(** * Profile extraction and candidate ranking: a shallow embedding

    The development embeds the CV parser ([src/services/parser.js]), the
    matcher service ([src/services/matcher.js]) and what stands around
    them: the upload to storage ([src/services/storage.js]), the validators
    it relies on ([src/utils/validation.js]) and the badges of the result
    pages ([src/pages]). It proves the properties the specification states
    about the parser and the matcher, and further properties of the code.

    - JavaScript numbers are IEEE 754 binary64 values: they are modelled by
      Rocq's primitive [float]s, whose operations are specified by the
      standard library's [FloatAxioms] over [spec_float].
    - JavaScript strings are modelled by [string]: sequences of 8-bit
      characters, read as the code units [0] to [255]. The letters of the
      patterns are the ASCII letters; [toLowerCase] and the [i] flag also
      know the letters beyond ASCII, and white space includes the no-break
      space.
    - A value that may be [undefined] or [null] is a [nullable].
    - A method call on [undefined] or [null] raises a [TypeError]: code that
      can raise lives in the [result] monad.
    - A regular expression is a term of [regex], matched by a backtracking
      matcher that lists the matches at a position in the order JavaScript
      tries them.
    - [Array.prototype.sort] is a stable sort: it is modelled by insertion,
      an element moving behind a later one only when the comparison
      function says so.
    - The text [x.toFixed(2)] returns is kept as the numeral it spells, and
      [parseFloat] reads the nearest binary64 number from it.
    - What an awaited call of a library gives is an [outcome]: a value, or
      an exception with its message. The libraries themselves (PDF.js,
      Mammoth, the storage client) are parameters of the functions that
      call them; the storage client takes the state of the world and
      returns the next one.

    Part I embeds the code, Part II proves facts about the embedding, and
    Part III states the claims of the specification, C1 to C10. Five of
    them (C3, C6, C7, C9, C10) fail as they are worded: each comes with an
    input on which it fails and with the amended statement that holds. Part IV
    states further properties, X1 to X27, read off the code. *)

From Stdlib Require Import ZArith List String Ascii Bool Lia Floats Uint63.
From Stdlib Require Import Sorted Permutation DecimalString.
Import ListNotations.

Set Warnings "-inexact-float".

(* ================================================================= *)
(** * Part I: the embedding *)
(* ================================================================= *)

(** ** JavaScript numbers *)

Module JSNumber.

Local Open Scope float_scope.

(** [arr.length] as a number (an array holds fewer than [2^32]
    elements). *)
Definition of_length (n : nat) : float :=
  of_uint63 (Uint63.of_Z (Z.of_nat n)).

(** [Math.min(a, b)]: NaN if either argument is NaN; [-0] is smaller
    than [+0]. *)
Definition Math_min (a b : float) : float :=
  if is_nan a || is_nan b then nan
  else if a <? b then a
  else if b <? a then b
  else if PrimFloat.Leibniz.eqb a neg_zero then a else b.

(** [Math.max(a, b)]: NaN if either argument is NaN; [+0] is larger
    than [-0]. *)
Definition Math_max (a b : float) : float :=
  if is_nan a || is_nan b then nan
  else if a <? b then b
  else if b <? a then a
  else if PrimFloat.Leibniz.eqb a neg_zero then b else a.

(** The text [x.toFixed(2)] returns, kept as the numeral it spells. *)
Inductive numeral : Type :=
| NumNaN                               (* "NaN" *)
| NumInfinity (neg : bool)             (* "Infinity", "-Infinity" *)
| NumFixed (neg : bool) (n : Z)        (* sign, then n/100 written with two decimals *)
| NumExp (x : float).                  (* |x| >= 1e21: Number::toString(x) *)

(** The integer [n] for which [n / 100 - m * 2^e] is closest to zero, the
    larger one of two. *)
Definition hundredths (m : positive) (e : Z) : Z :=
  match e with
  | Zneg k => (200 * Zpos m + 2 ^ Zpos k) / 2 ^ (Zpos k + 1)
  | _ => Zpos m * 2 ^ e * 100
  end.

(** [10^21 <= m * 2^e]. *)
Definition ge_1e21 (m : positive) (e : Z) : bool :=
  match e with
  | Zneg k => (10 ^ 21 <=? Zpos m / 2 ^ Zpos k)%Z
  | _ => (10 ^ 21 <=? Zpos m * 2 ^ e)%Z
  end.

(** [Number.prototype.toFixed] with [fractionDigits = 2]. *)
Definition SF_toFixed2 (x : float) (sx : spec_float) : numeral :=
  match sx with
  | S754_nan => NumNaN
  | S754_infinity s => NumInfinity s
  | S754_zero _ => NumFixed false 0
  | S754_finite s m e =>
      if ge_1e21 m e then NumExp x else NumFixed s (hundredths m e)
  end.

Definition toFixed2 (x : float) : numeral := SF_toFixed2 x (Prim2SF x).

(** The double nearest to [n / d] (ties to even). *)
Definition nearest_ratio (n d : positive) : float :=
  SF2Prim
    (let '(q, e, l) := SFdiv_core_binary prec emax (Zpos n) 0 (Zpos d) 0 in
     binary_round_aux prec emax false q e l).

(** [parseFloat] on the texts [toFixed] returns. *)
Definition parseFloat (s : numeral) : float :=
  match s with
  | NumNaN => nan
  | NumInfinity neg => if neg then neg_infinity else infinity
  | NumFixed neg n =>
      let v := match n with
               | Zpos p => nearest_ratio p 100
               | _ => zero
               end in
      if neg then - v else v
  | NumExp x => x
  end.

End JSNumber.

(** ** Absent values and exceptions *)

(** A JavaScript value that may be [undefined] or [null]. *)
Inductive nullable (A : Type) : Type :=
| Undefined
| Null
| Val (a : A).
Arguments Undefined {A}.
Arguments Null {A}.
Arguments Val {A} a.

Inductive error : Type := TypeError.

Inductive result (A : Type) : Type :=
| Ok (a : A)
| Throw (e : error).
Arguments Ok {A} a.
Arguments Throw {A} e.

Definition bind {A B} (m : result A) (k : A -> result B) : result B :=
  match m with
  | Ok a => k a
  | Throw e => Throw e
  end.

Notation "x <- m ;; k" := (bind m (fun x => k))
  (at level 61, m at next level, right associativity).

Module JS.

(** [v.m(...)]: a method call on [undefined] or [null] raises. *)
Definition call {A B} (v : nullable A) (m : A -> B) : result B :=
  match v with
  | Val a => Ok (m a)
  | _ => Throw TypeError
  end.

(** [v?.m(...)]: [undefined] when [v] is [undefined] or [null]. *)
Definition optcall {A B} (v : nullable A) (m : A -> B) : nullable B :=
  match v with
  | Val a => Val (m a)
  | _ => Undefined
  end.

(** [v?.p] for a property [p] that may itself be absent. *)
Definition optget {A B} (v : nullable A) (p : A -> nullable B) : nullable B :=
  match v with
  | Val a => p a
  | _ => Undefined
  end.

(** [v || d] for an array or object [v], which is truthy whenever present. *)
Definition or_default {A} (v : nullable A) (d : A) : A :=
  match v with
  | Val a => a
  | _ => d
  end.

(** Truthiness of a string that may be absent: the empty string is falsy. *)
Definition truthy_string (v : nullable string) : bool :=
  match v with
  | Val s => negb (String.eqb s EmptyString)
  | _ => false
  end.

(** [v || d] for a string [v]. *)
Definition string_or (v : nullable string) (d : string) : string :=
  if truthy_string v then or_default v d else d.

(** Truthiness of a boolean that may be absent. *)
Definition truthy_bool (v : nullable bool) : bool :=
  match v with
  | Val b => b
  | _ => false
  end.

(** Truthiness of an array or object that may be absent. *)
Definition present {A} (v : nullable A) : bool :=
  match v with
  | Val _ => true
  | _ => false
  end.

(** A value of a template literal: [`${v}`]. *)
Definition template (v : nullable string) : string :=
  match v with
  | Undefined => "undefined"
  | Null => "null"
  | Val s => s
  end.

End JS.

(** ** JavaScript strings *)

Module JSString.

Local Open Scope string_scope.

Definition code (c : ascii) : N := N_of_ascii c.

Definition is_upper (c : ascii) : bool := (65 <=? code c)%N && (code c <=? 90)%N.
Definition is_lower (c : ascii) : bool := (97 <=? code c)%N && (code c <=? 122)%N.
Definition is_digit (c : ascii) : bool := (48 <=? code c)%N && (code c <=? 57)%N.

(** [\w] *)
Definition is_word (c : ascii) : bool :=
  is_upper c || is_lower c || is_digit c || (code c =? 95)%N.

(** [\s], and the characters [trim] removes: tab, line feed, vertical tab,
    form feed, carriage return, space, no-break space. *)
Definition is_space (c : ascii) : bool :=
  ((9 <=? code c)%N && (code c <=? 13)%N) || (code c =? 32)%N || (code c =? 160)%N.

(** The capital letters beyond ASCII, from [192] to [222] without the
    sign [215], and their small letters, from [224] to [254] without the
    sign [247]. *)
Definition is_upper_latin1 (c : ascii) : bool :=
  (192 <=? code c)%N && (code c <=? 222)%N && negb (code c =? 215)%N.
Definition is_lower_latin1 (c : ascii) : bool :=
  (224 <=? code c)%N && (code c <=? 254)%N && negb (code c =? 247)%N.

(** A capital letter, of ASCII or beyond. *)
Definition is_capital (c : ascii) : bool := is_upper c || is_upper_latin1 c.

(** [toLowerCase] of one character. *)
Definition lower_char (c : ascii) : ascii :=
  if is_capital c then ascii_of_N (code c + 32) else c.

(** The character by which the [i] flag compares: the capital of a small
    letter. The characters [181], [223] and [255], which have no capital
    among the 8-bit characters, stand for themselves. *)
Definition upper_char (c : ascii) : ascii :=
  if is_lower c || is_lower_latin1 c then ascii_of_N (code c - 32) else c.

Fixpoint toLowerCase (s : string) : string :=
  match s with
  | EmptyString => EmptyString
  | String c s' => String (lower_char c) (toLowerCase s')
  end.

(** [s.includes(sub)] *)
Fixpoint includes (s sub : string) : bool :=
  String.prefix sub s ||
  match s with
  | EmptyString => false
  | String _ s' => includes s' sub
  end.

Fixpoint trimStart (s : string) : string :=
  match s with
  | EmptyString => EmptyString
  | String c s' => if is_space c then trimStart s' else s
  end.

Fixpoint trimEnd (s : string) : string :=
  match s with
  | EmptyString => EmptyString
  | String c s' =>
      match trimEnd s' with
      | EmptyString => if is_space c then EmptyString else String c EmptyString
      | t => String c t
      end
  end.

Definition trim (s : string) : string := trimEnd (trimStart s).

(** [s.split(sep)] for a one-character separator: never empty. *)
Fixpoint split (sep : ascii) (s : string) : list string :=
  match s with
  | EmptyString => [EmptyString]
  | String c s' =>
      if Ascii.eqb c sep then EmptyString :: split sep s'
      else match split sep s' with
           | [] => [String c EmptyString]
           | w :: ws => String c w :: ws
           end
  end.

(** [arr.join(sep)] *)
Fixpoint join (sep : string) (l : list string) : string :=
  match l with
  | [] => EmptyString
  | [x] => x
  | x :: xs => (x ++ sep ++ join sep xs)%string
  end.

(** [arr.slice(from, to)] *)
Definition slice {A} (from to : nat) (l : list A) : list A :=
  firstn (to - from) (skipn from l).

Definition LF : ascii := ascii_of_N 10.

(** [parseInt] on a string of decimal digits. *)
Fixpoint digits_value (acc : Z) (s : string) : Z :=
  match s with
  | EmptyString => acc
  | String c s' =>
      if is_digit c then digits_value (10 * acc + Z.of_N (code c - 48)) s'
      else acc
  end.

End JSString.

(** ** Regular expressions *)

Module Regex.

Import JSString.
Local Open Scope string_scope.
Local Open Scope list_scope.

Inductive regex : Type :=
| Eps
| Chr (p : ascii -> bool)
| Seq (r1 r2 : regex)
| Alt (r1 r2 : regex)
| Star (r : regex)
| WordB.

(** Where the matcher stands: the character before, and the text ahead. *)
Definition state : Type := option ascii * string.

Definition is_word_opt (c : option ascii) : bool :=
  match c with
  | Some c => is_word c
  | None => false
  end.

Definition peek (s : string) : option ascii :=
  match s with
  | EmptyString => None
  | String c _ => Some c
  end.

(** All the ways [r] matches at [st], in the order a backtracking matcher
    tries them: the head is the match JavaScript reports. *)
Fixpoint run (r : regex) (st : state) : list state :=
  match r with
  | Eps => [st]
  | Chr p =>
      match snd st with
      | String c s' => if p c then [(Some c, s')] else []
      | EmptyString => []
      end
  | Seq r1 r2 => flat_map (run r2) (run r1 st)
  | Alt r1 r2 => run r1 st ++ run r2 st
  | Star r1 =>
      (fix loop (fuel : nat) (st : state) {struct fuel} : list state :=
         match fuel with
         | O => [st]
         | S fuel' =>
             flat_map
               (fun st' =>
                  if (String.length (snd st') <? String.length (snd st))%nat
                  then loop fuel' st' else [])
               (run r1 st) ++ [st]
         end) (String.length (snd st)) st
  | WordB =>
      if xorb (is_word_opt (fst st)) (is_word_opt (peek (snd st)))
      then [st] else []
  end.

Fixpoint take (n : nat) (s : string) : string :=
  match n, s with
  | S n', String c s' => String c (take n' s')
  | _, _ => EmptyString
  end.

(** The leftmost match: the text before it, the match, the text after. *)
Fixpoint search (r : regex) (prev : option ascii) (s : string)
  : option (string * string * string) :=
  match run r (prev, s) with
  | (_, rest) :: _ =>
      Some (EmptyString, take (String.length s - String.length rest) s, rest)
  | [] =>
      match s with
      | EmptyString => None
      | String c s' =>
          match search r (Some c) s' with
          | Some (b, m, a) => Some (String c b, m, a)
          | None => None
          end
      end
  end.

(** [r.test(s)] *)
Definition test (r : regex) (s : string) : bool :=
  match search r None s with
  | Some _ => true
  | None => false
  end.

(** [s.match(r)] without the [g] flag: element [0] of the result, or
    [null]. *)
Definition match_first (r : regex) (s : string) : nullable string :=
  match search r None s with
  | Some (_, m, _) => Val m
  | None => Null
  end.

Fixpoint last_char (prev : option ascii) (s : string) : option ascii :=
  match s with
  | EmptyString => prev
  | String c s' => last_char (Some c) s'
  end.

Fixpoint match_all_from (fuel : nat) (r : regex) (prev : option ascii)
  (s : string) : list string :=
  match fuel with
  | O => []
  | S fuel' =>
      match search r prev s with
      | None => []
      | Some (b, m, a) =>
          m ::
          match m with
          | EmptyString =>
              match a with
              | EmptyString => []
              | String c a' => match_all_from fuel' r (Some c) a'
              end
          | _ => match_all_from fuel' r (last_char prev (b ++ m)%string) a
          end
      end
  end.

(** [s.match(r)] with the [g] flag: every match from left to right, or
    [null] when there is none. *)
Definition match_all (r : regex) (s : string) : nullable (list string) :=
  match match_all_from (S (String.length s)) r None s with
  | [] => Null
  | l => Val l
  end.

(** [s.split(r)[0]] for an [r] that matches no empty text: what stands
    before the first match, or all of [s]. *)
Definition split_first (r : regex) (s : string) : string :=
  match search r None s with
  | Some (b, _, _) => b
  | None => s
  end.

(** *** Building blocks *)

Definition digit : regex := Chr is_digit.
Definition chr (c : ascii) : regex := Chr (Ascii.eqb c).
(** A character under the [i] flag. *)
Definition chr_i (c : ascii) : regex :=
  Chr (fun x => Ascii.eqb (upper_char x) (upper_char c)).
Definition opt (r : regex) : regex := Alt r Eps.
Definition plus (r : regex) : regex := Seq r (Star r).

Fixpoint rep (n : nat) (r : regex) : regex :=
  match n with
  | O => Eps
  | S O => r
  | S n' => Seq r (rep n' r)
  end.

Fixpoint lit (s : string) : regex :=
  match s with
  | EmptyString => Eps
  | String c EmptyString => chr c
  | String c s' => Seq (chr c) (lit s')
  end.

Fixpoint lit_i (s : string) : regex :=
  match s with
  | EmptyString => Eps
  | String c EmptyString => chr_i c
  | String c s' => Seq (chr_i c) (lit_i s')
  end.

Fixpoint alts (rs : list regex) : regex :=
  match rs with
  | [] => Chr (fun _ => false)
  | [r] => r
  | r :: rs' => Alt r (alts rs')
  end.

End Regex.

(** ** The data model *)

Module Skill.
Record t : Type := { name : string; category : string }.
End Skill.

Module Experience.
Record t : Type :=
  { job_title : string;
    company : string;
    location : nullable string;
    start_date : string;
    end_date : string;
    duration_months : float;
    description : string }.
End Experience.

Module Education.
Record t : Type :=
  { degree : string;
    institution : string;
    graduation_year : nullable float }.
End Education.

Module Personal.
Record t : Type :=
  { name : string;
    email : nullable string;
    phone : nullable string;
    linkedin_url : nullable string;
    location : nullable string }.
End Personal.

(** The structured profile ([extractedData], [cvData]). Any part may be
    missing from the object handed to the matcher. *)
Module CVData.
Record t : Type :=
  { personal : nullable Personal.t;
    summary : nullable string;
    skills : nullable (list Skill.t);
    experience : nullable (list Experience.t);
    education : nullable (list Education.t);
    industries : nullable (list string);
    career_goals : nullable string;
    accuracy_score : nullable float }.
End CVData.

(** A candidate company. *)
Module Company.
Record t : Type :=
  { name : nullable string;
    linkedin_url : nullable string;
    industry : nullable string;
    size : nullable string;
    location : nullable string;
    description : nullable string }.
End Company.

(** A candidate person (a [profile] in the matcher). *)
Module Person.
Record t : Type :=
  { name : nullable string;
    linkedin_url : nullable string;
    current_role : nullable string;
    current_company : nullable string;
    location : nullable string;
    headline : nullable string;
    skills : nullable (list string) }.
End Person.

(** ** The CV parser *)

Module Parser.

Import JSString Regex JSNumber.
Local Open Scope string_scope.
Local Open Scope list_scope.

Definition SKILL_CATEGORIES_TECHNICAL : string := "technical".
Definition SKILL_CATEGORIES_SOFT : string := "soft".

Definition TECHNICAL_SKILLS : list string :=
  [ "javascript"; "python"; "java"; "c++"; "react"; "vue"; "angular"; "node.js";
    "typescript"; "go"; "rust"; "sql"; "postgresql"; "mongodb"; "redis";
    "docker"; "kubernetes"; "aws"; "azure"; "gcp"; "git"; "ci/cd";
    "machine learning"; "ai"; "data science"; "tensorflow"; "pytorch" ].

Definition SOFT_SKILLS : list string :=
  [ "leadership"; "communication"; "teamwork"; "problem-solving";
    "critical thinking"; "time management"; "collaboration"; "adaptability";
    "creativity"; "emotional intelligence"; "negotiation"; "public speaking" ].

Definition is_alnum (c : ascii) : bool := is_upper c || is_lower c || is_digit c.
Definition in_chars (cs : string) (c : ascii) : bool :=
  existsb (Ascii.eqb c) (list_ascii_of_string cs).

(** [[-.\s]] *)
Definition separator : regex := Chr (fun c => in_chars "-." c || is_space c).

(** [/\b[A-Za-z0-9._%+-]+@[A-Za-z0-9.-]+\.[A-Z|a-z]{2,}\b/] *)
Definition emailRegex : regex :=
  let local := Chr (fun c => is_alnum c || in_chars "._%+-" c) in
  let domain := Chr (fun c => is_alnum c || in_chars ".-" c) in
  let tld := Chr (fun c => is_upper c || in_chars "|" c || is_lower c) in
  Seq WordB (Seq (plus local) (Seq (chr "@") (Seq (plus domain)
    (Seq (chr ".") (Seq (rep 2 tld) (Seq (Star tld) WordB)))))).

(** [/(\+?\d{1,3}[-.\s]?)?\(?\d{3}\)?[-.\s]?\d{3}[-.\s]?\d{4}/] *)
Definition phoneRegex : regex :=
  Seq (opt (Seq (opt (chr "+"))
              (Seq (Seq digit (opt (Seq digit (opt digit)))) (opt separator))))
    (Seq (opt (chr "(")) (Seq (rep 3 digit) (Seq (opt (chr ")"))
      (Seq (opt separator) (Seq (rep 3 digit) (Seq (opt separator) (rep 4 digit))))))).

(** [/linkedin\.com\/in\/[A-Za-z0-9-]+/i] *)
Definition linkedinRegex : regex :=
  Seq (lit_i "linkedin.com/in/") (plus (Chr (fun c => is_alnum c || in_chars "-" c))).

(** [/\b(19|20)\d{2}\b/], with or without the [g] flag. *)
Definition yearRegex : regex :=
  Seq WordB (Seq (Alt (lit "19") (lit "20")) (Seq (rep 2 digit) WordB)).

(** [parseInt(s)] for a text that starts with decimal digits, as the year
    tokens it is called on do; NaN when the text starts with none. *)
Definition parseInt (s : string) : float :=
  match s with
  | String c _ =>
      if is_digit c then of_uint63 (Uint63.of_Z (digits_value 0 s)) else nan
  | EmptyString => nan
  end.

Definition extractContactInfo (text : string) : Personal.t :=
  let emailMatch := match_first emailRegex text in
  let phoneMatch := match_first phoneRegex text in
  let linkedinMatch := match_first linkedinRegex text in
  let lines :=
    filter (fun line => (0 <? String.length (trim line))%nat) (split LF text) in
  let name := JS.string_or (JS.optcall (match lines with
                                        | [] => Undefined
                                        | l :: _ => Val l
                                        end) trim) "Unknown" in
  {| Personal.name := name;
     Personal.email := match emailMatch with Val m => Val m | _ => Null end;
     Personal.phone := match phoneMatch with Val m => Val m | _ => Null end;
     Personal.linkedin_url :=
       match linkedinMatch with
       | Val m => Val ("https://" ++ m)%string
       | _ => Null
       end;
     Personal.location := Null |}.

Definition extractSummary (text : string) : string :=
  let summaryKeywords := ["summary"; "objective"; "profile"; "about"] in
  let lines := split LF text in
  let fix loop (ls : list string) : option string :=
    match ls with
    | [] => None
    | l :: rest =>
        let line := toLowerCase l in
        if existsb (fun keyword => includes line keyword) summaryKeywords
        then Some (trim (join " " (firstn 3 rest)))
        else loop rest
    end in
  match loop lines with
  | Some s => s
  | None => trim (join " " (slice 1 4 lines))
  end.

Definition extractSkills (text : string) : list Skill.t :=
  let textLower := toLowerCase text in
  let foundSkills := [] in
  let foundSkills :=
    foundSkills ++
    map (fun skill => {| Skill.name := skill; Skill.category := SKILL_CATEGORIES_TECHNICAL |})
      (filter (fun skill => includes textLower (toLowerCase skill)) TECHNICAL_SKILLS) in
  let foundSkills :=
    foundSkills ++
    map (fun skill => {| Skill.name := skill; Skill.category := SKILL_CATEGORIES_SOFT |})
      (filter (fun skill => includes textLower (toLowerCase skill)) SOFT_SKILLS) in
  foundSkills.

Definition calculateMonths (startYear endYear : string) : float :=
  let start := parseInt startYear in
  let end_ := parseInt endYear in
  ((end_ - start) * 12)%float.

(** [lines[i + 1]?.trim() || d] *)
Definition next_line_or (rest : list string) (d : string) : string :=
  JS.string_or (JS.optcall (match rest with
                            | [] => Undefined
                            | l :: _ => Val l
                            end) trim) d.

(** The entries pushed for the lines from index [i] on: [line :: rest]
    is [lines[i], lines[i + 1], ...]. *)
Fixpoint experience_entries (lines : list string) : list Experience.t :=
  match lines with
  | [] => []
  | line :: rest =>
      match match_all yearRegex line with
      | Val ((y0 :: ys) as years) =>
          {| Experience.job_title :=
               JS.string_or (Val (trim (split_first (rep 4 digit) line))) "Position";
             Experience.company := "Company";
             Experience.location := Null;
             Experience.start_date := y0;
             Experience.end_date := last years y0;
             Experience.duration_months := calculateMonths y0 (last years y0);
             Experience.description := next_line_or rest "" |}
          :: experience_entries rest
      | _ => experience_entries rest
      end
  end.

Definition extractExperience (text : string) : list Experience.t :=
  let lines := split LF text in
  let experiences := experience_entries lines in
  slice 0 5 experiences.

Definition degreeKeywords : list string :=
  ["bachelor"; "master"; "phd"; "mba"; "b.s."; "m.s."; "b.a."; "m.a."].

Fixpoint education_entries (lines : list string) : list Education.t :=
  match lines with
  | [] => []
  | line :: rest =>
      let lineLower := toLowerCase line in
      let hasDegree := existsb (fun keyword => includes lineLower keyword) degreeKeywords in
      if hasDegree then
        let yearMatch := match_first yearRegex line in
        {| Education.degree := trim line;
           Education.institution := next_line_or rest "University";
           Education.graduation_year :=
             match yearMatch with
             | Val m => Val (parseInt m)
             | _ => Null
             end |}
        :: education_entries rest
      else education_entries rest
  end.

Definition extractEducation (text : string) : list Education.t :=
  slice 0 3 (education_entries (split LF text)).

Definition commonIndustries : list string :=
  [ "Technology"; "Finance"; "Healthcare"; "Education"; "Retail";
    "Manufacturing"; "Consulting"; "SaaS"; "Fintech"; "E-commerce" ].

Definition extractIndustries (text : string) : list string :=
  let textLower := toLowerCase text in
  filter (fun industry => includes textLower (toLowerCase industry)) commonIndustries.

Definition extractCareerGoals (text : string) : string :=
  let goalKeywords := ["seeking"; "looking for"; "interested in"; "goal"; "objective"] in
  let fix loop (ls : list string) : option string :=
    match ls with
    | [] => None
    | l :: rest =>
        let lineLower := toLowerCase l in
        if existsb (fun keyword => includes lineLower keyword) goalKeywords
        then Some (trim l)
        else loop rest
    end in
  match loop (split LF text) with
  | Some s => s
  | None => "Seeking new opportunities"
  end.

(** The five checks of [calculateAccuracyScore]. *)
Definition accuracy_checks (text : string) : list bool :=
  [ includes text "@";                                          (* Has email *)
    test (Seq (rep 3 digit) (Seq (opt separator) (Seq (rep 3 digit)
            (Seq (opt separator) (rep 4 digit))))) text;        (* Has phone *)
    test (lit_i "linkedin.com") text;                           (* Has LinkedIn *)
    test (Seq (Alt (lit "19") (lit "20")) (rep 2 digit)) text;  (* Has years *)
    test (alts [lit_i "bachelor"; lit_i "master"; lit_i "phd"]) text (* Has education *)
  ].

Definition calculateAccuracyScore (text : string) : float :=
  let checks := accuracy_checks text in
  let score :=
    (of_length (List.length (filter (fun b : bool => b) checks))
     / of_length (List.length checks))%float in
  Math_min (score + 0.2)%float 1.0%float.

(** The [extractedData] object [parseCV] builds from the text of a CV. *)
Definition extractedData (text : string) : CVData.t :=
  {| CVData.personal := Val (extractContactInfo text);
     CVData.summary := Val (extractSummary text);
     CVData.skills := Val (extractSkills text);
     CVData.experience := Val (extractExperience text);
     CVData.education := Val (extractEducation text);
     CVData.industries := Val (extractIndustries text);
     CVData.career_goals := Val (extractCareerGoals text);
     CVData.accuracy_score := Val (calculateAccuracyScore text) |}.

End Parser.

(** ** The matcher service *)

Module Matcher.

Import JSString Regex JSNumber.
Local Open Scope string_scope.
Local Open Scope list_scope.
Local Open Scope float_scope.

(** [arr.some(f)] for a callback that may return [undefined]. *)
Definition some {A} (f : A -> nullable bool) (l : list A) : bool :=
  existsb (fun x => JS.truthy_bool (f x)) l.

(** [arr.filter(f)] for a callback that may return [undefined]. *)
Definition filter_truthy {A} (f : A -> nullable bool) (l : list A) : list A :=
  filter (fun x => JS.truthy_bool (f x)) l.

(** [arr.map(f)] for a callback that may raise. *)
Fixpoint map_result {A B} (f : A -> result B) (l : list A) : result (list B) :=
  match l with
  | [] => Ok []
  | x :: xs =>
      y <- f x ;;
      ys <- map_result f xs ;;
      Ok (y :: ys)
  end.

(** [arr.sort(comparefn)]: the sort is stable; an element moves behind a
    later one only when [comparefn] returns a positive number. *)
Section Sort.
Context {A : Type} (comparefn : A -> A -> float).

Fixpoint sort_insert (x : A) (l : list A) : list A :=
  match l with
  | [] => [x]
  | y :: ys =>
      if 0 <? comparefn x y then y :: sort_insert x ys else x :: y :: ys
  end.

Fixpoint Array_sort (l : list A) : list A :=
  match l with
  | [] => []
  | x :: xs => sort_insert x (Array_sort xs)
  end.
End Sort.

(** [`${n}`] for an array length [n]. *)
Definition length_text (n : nat) : string :=
  NilZero.string_of_uint (Nat.to_uint n).

Module MatchingCriteria.
Record t : Type :=
  { matched_skills : list string;
    matched_industries : list string;
    location_match : bool;
    size_preference : nullable string;
    explanation : string }.
End MatchingCriteria.

(** [{...company, match_score, matching_criteria}] *)
Module RankedCompany.
Record t : Type :=
  { company : Company.t;
    match_score : float;
    matching_criteria : MatchingCriteria.t }.
End RankedCompany.

(** [{...profile, match_score, shared_skills, shared_interests,
    conversation_starter}] *)
Module RankedProfile.
Record t : Type :=
  { profile : Person.t;
    match_score : float;
    shared_skills : list string;
    shared_interests : list string;
    conversation_starter : string }.
End RankedProfile.

(** [cvData.personal?.location] *)
Definition cvLocation (cvData : CVData.t) : nullable string :=
  JS.optget (CVData.personal cvData) Personal.location.

(** *** Companies *)

(** The local constants of [calculateCompanyMatchScore]. *)
Module CompanyScore.

Definition cvIndustries (cvData : CVData.t) : list string :=
  JS.or_default (CVData.industries cvData) [].

Definition industryMatch (company : Company.t) (cvData : CVData.t) : bool :=
  some (fun ind =>
          JS.optcall (Company.industry company)
            (fun s => includes (toLowerCase s) (toLowerCase ind)))
    (cvIndustries cvData).

Definition cvSkills (cvData : CVData.t) : list string :=
  map (fun s => toLowerCase (Skill.name s)) (JS.or_default (CVData.skills cvData) []).

Definition companyText (company : Company.t) : string :=
  toLowerCase (JS.template (Company.name company) ++ " "
               ++ JS.template (Company.description company))%string.

Definition matchingSkills (company : Company.t) (cvData : CVData.t) : list string :=
  filter (fun skill => includes (companyText company) skill) (cvSkills cvData).

Definition skillsScore (company : Company.t) (cvData : CVData.t) : float :=
  Math_min
    (of_length (List.length (matchingSkills company cvData))
     / Math_max (of_length (List.length (cvSkills cvData))) 1)
    1.0.

(** [cvLocation && company.location?.includes(cvLocation)] *)
Definition locationMatch (company : Company.t) (cvData : CVData.t) : bool :=
  JS.truthy_string (cvLocation cvData)
  && JS.truthy_bool
       (JS.optcall (Company.location company)
          (fun s => includes s (JS.template (cvLocation cvData)))).

(** [company.size && (company.size.includes('51-200') ||
    company.size.includes('201-500'))] *)
Definition sizePreferred (company : Company.t) : result bool :=
  if JS.truthy_string (Company.size company) then
    a <- JS.call (Company.size company) (fun s => includes s "51-200") ;;
    if a then Ok true
    else JS.call (Company.size company) (fun s => includes s "201-500")
  else Ok false.

End CompanyScore.

Definition calculateCompanyMatchScore (company : Company.t) (cvData : CVData.t)
  : result float :=
  let score := 0.0 in
  (* Industry match (40%) *)
  let score := if CompanyScore.industryMatch company cvData then score + 0.4 else score in
  (* Skills match (30%) *)
  let score := score + CompanyScore.skillsScore company cvData * 0.3 in
  (* Location match (20%) *)
  let score :=
    if CompanyScore.locationMatch company cvData then score + 0.2
    else if JS.truthy_string (Company.location company) then score + 0.1
    else score in
  (* Size preference (10%) *)
  preferred <- CompanyScore.sizePreferred company ;;
  let score := if preferred then score + 0.1 else score in
  Ok (Math_min score 1.0).

Definition getCompanyMatchingCriteria (company : Company.t) (cvData : CVData.t)
  : MatchingCriteria.t :=
  let cvSkills := map Skill.name (JS.or_default (CVData.skills cvData) []) in
  let cvIndustries := JS.or_default (CVData.industries cvData) [] in
  let companyText := CompanyScore.companyText company in
  let matchedSkills :=
    filter (fun skill => includes companyText (toLowerCase skill)) cvSkills in
  let matchedIndustries :=
    filter_truthy
      (fun ind =>
         JS.optcall (Company.industry company)
           (fun s => includes (toLowerCase s) (toLowerCase ind)))
      cvIndustries in
  {| MatchingCriteria.matched_skills := slice 0 5 matchedSkills;
     MatchingCriteria.matched_industries := matchedIndustries;
     MatchingCriteria.location_match :=
       JS.truthy_bool
         (JS.optcall (Company.location company)
            (fun s => includes s (JS.string_or (cvLocation cvData) "")));
     MatchingCriteria.size_preference := Company.size company;
     MatchingCriteria.explanation :=
       ("Matches " ++ length_text (List.length matchedSkills)
        ++ " of your key skills and operates in your target industry.")%string |}.

(** [parseFloat(matchScore.toFixed(2))] *)
Definition round2 (matchScore : float) : float := parseFloat (toFixed2 matchScore).

Definition rankCompanies (companies : nullable (list Company.t))
  (cvData : nullable CVData.t) : result (list RankedCompany.t) :=
  match companies, cvData with
  | Val companies, Val cvData =>
      rankedCompanies <-
        map_result
          (fun company =>
             matchScore <- calculateCompanyMatchScore company cvData ;;
             let matchingCriteria := getCompanyMatchingCriteria company cvData in
             Ok {| RankedCompany.company := company;
                   RankedCompany.match_score := round2 matchScore;
                   RankedCompany.matching_criteria := matchingCriteria |})
          companies ;;
      (* Sort by match score descending *)
      Ok (Array_sort
            (fun a b => RankedCompany.match_score b - RankedCompany.match_score a)
            rankedCompanies)
  | _, _ => Ok []
  end.

(** *** People *)

(** The local constants of [calculateProfileMatchScore]. *)
Module ProfileScore.

Definition cvSkills (cvData : CVData.t) : list string :=
  map (fun s => toLowerCase (Skill.name s)) (JS.or_default (CVData.skills cvData) []).

Definition profileSkills (profile : Person.t) : list string :=
  map toLowerCase (JS.or_default (Person.skills profile) []).

(** [arr.includes(x)] *)
Definition array_includes (l : list string) (x : string) : bool :=
  existsb (String.eqb x) l.

Definition sharedCount (profile : Person.t) (cvData : CVData.t) : nat :=
  List.length (filter (fun skill => array_includes (profileSkills profile) skill)
                 (cvSkills cvData)).

Definition skillsScore (profile : Person.t) (cvData : CVData.t) : float :=
  Math_min
    (of_length (sharedCount profile cvData)
     / Math_max (of_length (List.length (cvSkills cvData))) 1)
    1.0.

Definition cvIndustries (cvData : CVData.t) : list string :=
  map toLowerCase (JS.or_default (CVData.industries cvData) []).

Definition profileText (profile : Person.t) : string :=
  toLowerCase (JS.template (Person.headline profile) ++ " "
               ++ JS.template (Person.current_company profile))%string.

Definition industryMatch (profile : Person.t) (cvData : CVData.t) : bool :=
  existsb (fun ind => includes (profileText profile) ind) (cvIndustries cvData).

(** [cvData.experience?.length || 0] *)
Definition cvExperience (cvData : CVData.t) : nat :=
  match CVData.experience cvData with
  | Val l => List.length l
  | _ => 0
  end.

(** [/senior|lead|manager|director/i] *)
Definition seniorRegex : regex :=
  alts [lit_i "senior"; lit_i "lead"; lit_i "manager"; lit_i "director"].

Definition isSeniorRole (profile : Person.t) : bool :=
  test seniorRegex (JS.string_or (Person.current_role profile) "").

(** [cvLocation && profile.location?.includes(cvLocation)] *)
Definition locationMatch (profile : Person.t) (cvData : CVData.t) : bool :=
  JS.truthy_string (cvLocation cvData)
  && JS.truthy_bool
       (JS.optcall (Person.location profile)
          (fun s => includes s (JS.template (cvLocation cvData)))).

End ProfileScore.

Definition calculateProfileMatchScore (profile : Person.t) (cvData : CVData.t)
  : float :=
  let score := 0.0 in
  (* Shared skills (40%) *)
  let score := score + ProfileScore.skillsScore profile cvData * 0.4 in
  (* Industry/interests (30%) *)
  let score := if ProfileScore.industryMatch profile cvData then score + 0.3 else score in
  (* Seniority alignment (20%) *)
  let cvExperience := ProfileScore.cvExperience cvData in
  let isSeniorRole := ProfileScore.isSeniorRole profile in
  let score :=
    if (5 <=? cvExperience)%nat && isSeniorRole then score + 0.2
    else if (cvExperience <? 5)%nat && negb isSeniorRole then score + 0.2
    else score + 0.1 in
  (* Location (10%) *)
  let score := if ProfileScore.locationMatch profile cvData then score + 0.1 else score in
  Math_min score 1.0.

Definition getSharedSkills (profile : Person.t) (cvData : CVData.t) : list string :=
  let cvSkills := ProfileScore.cvSkills cvData in
  let profileSkills := ProfileScore.profileSkills profile in
  slice 0 5 (filter (fun skill => ProfileScore.array_includes profileSkills skill) cvSkills).

Definition getSharedInterests (profile : Person.t) (cvData : CVData.t) : list string :=
  let cvIndustries := JS.or_default (CVData.industries cvData) [] in
  let profileText := ProfileScore.profileText profile in
  filter (fun ind => includes profileText (toLowerCase ind)) cvIndustries.

(** [profile.name?.split(' ')[0]] *)
Definition firstName (profile : Person.t) : nullable string :=
  JS.optcall (Person.name profile) (fun s => hd EmptyString (split " " s)).

Definition generateConversationStarter (profile : Person.t) (cvData : CVData.t)
  : string :=
  let sharedSkills := getSharedSkills profile cvData in
  let sharedInterests := getSharedInterests profile cvData in
  let hi := ("Hi " ++ JS.template (firstName profile))%string in
  let role := JS.template (Person.current_role profile) in
  let company := JS.template (Person.current_company profile) in
  match sharedSkills, sharedInterests with
  | skill :: _, interest :: _ =>
      (hi ++ ", I noticed we both have experience with " ++ skill
       ++ " and share an interest in " ++ interest
       ++ ". I'm currently exploring opportunities in this space and would love to hear about your journey to "
       ++ role ++ " at " ++ company ++ ".")%string
  | skill :: _, [] =>
      (hi ++ ", I saw that we both work with " ++ skill
       ++ ". I'd love to learn more about how you use it in your role at "
       ++ company ++ ".")%string
  | [], interest :: _ =>
      (hi ++ ", I'm interested in " ++ interest
       ++ " and noticed you're working in this field. Would you be open to a brief chat about your experience at "
       ++ company ++ "?")%string
  | [], [] =>
      (hi ++ ", I came across your profile and am impressed by your work at "
       ++ company ++ ". I'd love to connect and learn more about your career path.")%string
  end.

Definition rankProfiles (profiles : nullable (list Person.t))
  (cvData : nullable CVData.t) : result (list RankedProfile.t) :=
  match profiles, cvData with
  | Val profiles, Val cvData =>
      let rankedProfiles :=
        map (fun profile =>
               let matchScore := calculateProfileMatchScore profile cvData in
               let sharedSkills := getSharedSkills profile cvData in
               let sharedInterests := getSharedInterests profile cvData in
               let conversationStarter := generateConversationStarter profile cvData in
               {| RankedProfile.profile := profile;
                  RankedProfile.match_score := round2 matchScore;
                  RankedProfile.shared_skills := sharedSkills;
                  RankedProfile.shared_interests := sharedInterests;
                  RankedProfile.conversation_starter := conversationStarter |})
          profiles in
      (* Sort by match score descending *)
      Ok (Array_sort
            (fun a b => RankedProfile.match_score b - RankedProfile.match_score a)
            rankedProfiles)
  | _, _ => Ok []
  end.

(** *** The terms of the scores

    What each step of the scoring functions adds to [score]. *)

Module CompanyTerms.

Definition industry (company : Company.t) (cvData : CVData.t) : float :=
  if CompanyScore.industryMatch company cvData then 0.4 else 0.

Definition skills (company : Company.t) (cvData : CVData.t) : float :=
  CompanyScore.skillsScore company cvData * 0.3.

Definition location (company : Company.t) (cvData : CVData.t) : float :=
  if CompanyScore.locationMatch company cvData then 0.2
  else if JS.truthy_string (Company.location company) then 0.1
  else 0.

Definition size (company : Company.t) : float :=
  match CompanyScore.sizePreferred company with
  | Ok true => 0.1
  | _ => 0
  end.

End CompanyTerms.

Module ProfileTerms.

Definition skills (profile : Person.t) (cvData : CVData.t) : float :=
  ProfileScore.skillsScore profile cvData * 0.4.

Definition industry (profile : Person.t) (cvData : CVData.t) : float :=
  if ProfileScore.industryMatch profile cvData then 0.3 else 0.

Definition seniority (profile : Person.t) (cvData : CVData.t) : float :=
  let cvExperience := ProfileScore.cvExperience cvData in
  let isSeniorRole := ProfileScore.isSeniorRole profile in
  if (5 <=? cvExperience)%nat && isSeniorRole then 0.2
  else if (cvExperience <? 5)%nat && negb isSeniorRole then 0.2
  else 0.1.

Definition location (profile : Person.t) (cvData : CVData.t) : float :=
  if ProfileScore.locationMatch profile cvData then 0.1 else 0.

End ProfileTerms.

End Matcher.

(** ** Numbers on the pages *)

Module JSMath.
Local Open Scope float_scope.

(** The number that is the integer [z] (exact below [2^53]). *)
Definition integer (z : Z) : float :=
  match z with
  | Z0 => 0
  | Zpos _ => of_uint63 (Uint63.of_Z z)
  | Zneg p => - of_uint63 (Uint63.of_Z (Zpos p))
  end.

(** [Math.round(x)]: the integer nearest to [x], the larger one of two;
    [x] itself when it is NaN, infinite, a zero or an integer; a zero of
    the sign of [x] when the nearest integer is zero. *)
Definition Math_round (x : float) : float :=
  match Prim2SF x with
  | S754_finite s m (Zneg k) =>
      let v := if s then Zneg m else Zpos m in
      match ((2 * v + 2 ^ Zpos k) / 2 ^ (Zpos k + 1))%Z with
      | Z0 => if s then neg_zero else zero
      | q => integer q
      end
  | _ => x
  end.

End JSMath.

(** ** The result pages *)

Module Pages.
Import JSMath.
Local Open Scope string_scope.
Local Open Scope float_scope.

(** [getScoreClass] of [pages/companies.js] and [pages/profiles.js]. *)
Definition getScoreClass (score : float) : string :=
  if 0.8 <=? score then "excellent"
  else if 0.6 <=? score then "good"
  else if 0.4 <=? score then "fair"
  else "poor".

(** [Math.round(x.match_score * 100)], the number of the badge
    [`${...}% Match`]. *)
Definition matchPercent (match_score : float) : float :=
  Math_round (match_score * 100).

(** [Math.round(accuracyScore * 100)], the number of the message
    [`Accuracy: ${...}%`] of [pages/upload.js]. *)
Definition accuracyPercent (accuracyScore : float) : float :=
  Math_round (accuracyScore * 100).

End Pages.

(** ** Files and validation *)

(** A [File]: its name, its size in bytes (a whole number) and its MIME
    type. *)
Module File.
Record t : Type := { name : string; size : N; type : string }.
End File.

Module Constants.

Local Open Scope string_scope.

Definition MAX_CV_SIZE_BYTES : N := 5 * 1024 * 1024.
Definition MAX_CV_SIZE_MB : string := "5".

Definition ALLOWED_FILE_TYPES_PDF : string := "application/pdf".
Definition ALLOWED_FILE_TYPES_DOCX : string :=
  "application/vnd.openxmlformats-officedocument.wordprocessingml.document".
Definition ALLOWED_FILE_TYPES_TXT : string := "text/plain".

Definition ALLOWED_FILE_EXTENSIONS : list string := [".pdf"; ".docx"; ".txt"].

Definition MESSAGES_FILE_TOO_LARGE : string :=
  "File size exceeds " ++ MAX_CV_SIZE_MB
  ++ "MB limit. Please compress or split your file.".
Definition MESSAGES_INVALID_FILE_TYPE : string :=
  "Unsupported file type. Please upload a PDF, DOCX, or TXT file.".

(** [/^https:\/\/www\.linkedin\.com\/in\//], without its [^]. *)
Definition LINKEDIN_PATTERNS_PROFILE : Regex.regex :=
  Regex.lit "https://www.linkedin.com/in/".

End Constants.

Module Validation.

Import JSString Regex Constants.
Local Open Scope string_scope.
Local Open Scope list_scope.

(** [{ valid, error }] *)
Record t : Type := { valid : bool; error : nullable string }.

(** [/^r/.test(s)]: the pattern matches at the start of the text. *)
Definition test_at_start (r : regex) (s : string) : bool :=
  match run r (None, s) with
  | [] => false
  | _ :: _ => true
  end.

(** [/^r$/.test(s)]: the pattern matches the text from its start to its
    end. *)
Definition test_whole (r : regex) (s : string) : bool :=
  existsb (fun st => match snd st with EmptyString => true | _ => false end)
    (run r (None, s)).

(** [arr.includes(x)] for an array of strings. *)
Definition Array_includes (l : list string) (x : string) : bool :=
  existsb (String.eqb x) l.

(** [arr.pop()] on the array [split] returns, which is never empty. *)
Definition pop (l : list string) : string := last l EmptyString.

Definition validateCVFile (file : nullable File.t) : t :=
  match file with
  | Val file =>
      (* Check file size *)
      if (MAX_CV_SIZE_BYTES <? File.size file)%N then
        {| valid := false; error := Val MESSAGES_FILE_TOO_LARGE |}
      else
        (* Check file type *)
        let validTypes :=
          [ALLOWED_FILE_TYPES_PDF; ALLOWED_FILE_TYPES_DOCX; ALLOWED_FILE_TYPES_TXT] in
        if negb (Array_includes validTypes (File.type file)) then
          {| valid := false; error := Val MESSAGES_INVALID_FILE_TYPE |}
        else
          (* Check file extension as backup *)
          let extension := ("." ++ toLowerCase (pop (split "." (File.name file))))%string in
          if negb (Array_includes ALLOWED_FILE_EXTENSIONS extension) then
            {| valid := false; error := Val MESSAGES_INVALID_FILE_TYPE |}
          else {| valid := true; error := Null |}
  | _ => {| valid := false; error := Val "No file provided" |}
  end.

(** [[^\s@]] *)
Definition no_space_no_at : regex :=
  Chr (fun c => negb (is_space c || Ascii.eqb c "@")).

(** [/^[^\s@]+@[^\s@]+\.[^\s@]+$/], without its [^] and [$]. *)
Definition emailRegex : regex :=
  Seq (plus no_space_no_at) (Seq (chr "@") (Seq (plus no_space_no_at)
    (Seq (chr ".") (plus no_space_no_at)))).

Definition validateEmail (email : nullable string) : t :=
  if negb (JS.truthy_string email) then
    {| valid := false; error := Val "Email is required" |}
  else if negb (test_whole emailRegex (trim (JS.or_default email ""))) then
    {| valid := false; error := Val "Invalid email format" |}
  else {| valid := true; error := Null |}.

Definition validateLinkedInProfileURL (url : nullable string) : t :=
  if negb (JS.truthy_string url) then
    {| valid := false; error := Val "LinkedIn profile URL is required" |}
  else if negb (test_at_start LINKEDIN_PATTERNS_PROFILE (JS.or_default url "")) then
    {| valid := false;
       error := Val "Invalid LinkedIn profile URL. Must start with https://www.linkedin.com/in/" |}
  else {| valid := true; error := Null |}.

End Validation.

(** What an awaited call gives: a value, or an exception with its
    [message]. *)
Inductive outcome (A : Type) : Type :=
| Fulfilled (a : A)
| Rejected (message : string).
Arguments Fulfilled {A} a.
Arguments Rejected {A} message.

(** ** The storage service *)

Module Storage.

Import JSString Constants Validation.
Local Open Scope string_scope.
Local Open Scope list_scope.

Definition STORAGE_BUCKET : string := "cvs".

(** [[^a-zA-Z0-9.-]] *)
Definition unsafe_char (c : ascii) : bool :=
  negb (is_lower c || is_upper c || is_digit c || Ascii.eqb c "." || Ascii.eqb c "-").

(** [name.replace(/[^a-zA-Z0-9.-]/g, '_')] *)
Fixpoint sanitize (name : string) : string :=
  match name with
  | EmptyString => EmptyString
  | String c name' => String (if unsafe_char c then "_"%char else c) (sanitize name')
  end.

(** [`${n}`] for a whole number [n] (below [10^21]). *)
Definition integer_text (n : Z) : string :=
  match n with
  | Z0 => "0"
  | Zpos p => NilZero.string_of_uint (Pos.to_uint p)
  | Zneg p => "-" ++ NilZero.string_of_uint (Pos.to_uint p)
  end.

(** The path under which [uploadCV] stores a file:
    [`${userId}/${timestamp}_${sanitizedFilename}`]. *)
Definition storagePath (userId : string) (timestamp : Z) (file : File.t) : string :=
  let sanitizedFilename := sanitize (File.name file) in
  userId ++ "/" ++ integer_text timestamp ++ "_" ++ sanitizedFilename.

(** An error that [uploadCV] returns: [new Error(message)] or the error
    object of the storage client. *)
Inductive UploadError (E : Type) : Type :=
| Error (message : string)
| ClientError (e : E).
Arguments Error {E} message.
Arguments ClientError {E} e.

(** The options [uploadCV] passes to [upload]. *)
Record UploadOptions : Type := { cacheControl : string; upsert : bool }.

(** The [data] object of an answer of [upload], of which [uploadCV] reads
    [path]: the path may be missing. *)
Record UploadData : Type := { path : nullable string }.

(** [{ data, error }] of [upload]: the data object and the error object,
    each of which may be [null] or missing. *)
Record UploadResponse (E : Type) : Type :=
  { data : nullable UploadData; upload_error : nullable E }.
Arguments data {E} _.
Arguments upload_error {E} _.

(** [{ storagePath, publicUrl, error }] *)
Record UploadCV (E : Type) : Type :=
  { result_storagePath : nullable string;
    result_publicUrl : nullable string;
    result_error : nullable (UploadError E) }.
Arguments result_storagePath {E} _.
Arguments result_publicUrl {E} _.
Arguments result_error {E} _.

Section Client.

(** The state of the world, the errors of the storage client, and what
    [uploadCV] uses of the world: the clock and the client. *)
Context {World E : Type}.
Variable Date_now : World -> Z.
Variable upload :
  string -> string -> File.t -> UploadOptions -> World -> World * outcome (UploadResponse E).
(** [getPublicUrl(path)]: [urlData?.publicUrl]. *)
Variable getPublicUrl : string -> string -> nullable string.
(** The message of the [TypeError] that reading a property of [null] or
    [undefined] raises: [data.path] when the client answers without data
    object and without error ([file.name] is read of accepted files only,
    and these are no [null]). *)
Variable TypeError_message : string.

Definition failure (w : World) (e : UploadError E) : World * UploadCV E :=
  (w, {| result_storagePath := Null; result_publicUrl := Null;
         result_error := Val e |}).

Definition uploadCV (file : nullable File.t) (userId : string) (w : World)
  : World * UploadCV E :=
  (* Validate file *)
  let validation := validateCVFile file in
  if negb (Validation.valid validation) then
    failure w (Error (JS.template (Validation.error validation)))
  else
    match file with
    | Val file =>
        (* Generate unique file path *)
        let timestamp := Date_now w in
        let storagePath := storagePath userId timestamp file in
        (* Upload file to Supabase Storage *)
        match upload STORAGE_BUCKET storagePath file
                {| cacheControl := "3600"; upsert := false |} w with
        | (w, Fulfilled response) =>
            match upload_error response with
            | Val e => failure w (ClientError e)
            | _ =>
                (* Get public URL *)
                let publicUrl := getPublicUrl STORAGE_BUCKET storagePath in
                match data response with
                | Val data =>
                    (w, {| result_storagePath := path data;
                           result_publicUrl :=
                             if JS.truthy_string publicUrl then publicUrl else Null;
                           result_error := Null |})
                | _ => failure w (Error ("Upload failed: " ++ TypeError_message))
                end
            end
        | (w, Rejected message) =>
            failure w (Error ("Upload failed: " ++ message))
        end
    | _ => failure w (Error ("Upload failed: " ++ TypeError_message))
    end.

End Client.

End Storage.

(** ** Parsing a file *)

Module ParseCV.

Import JSString Constants Parser.
Local Open Scope list_scope.
Local Open Scope string_scope.

(** [{ text, error }] *)
Record Extracted : Type := { text : string; error : nullable string }.

(** [{ extractedData, accuracyScore, error }]; an [Error] is kept as its
    message. *)
Record t : Type :=
  { extractedData : nullable CVData.t;
    accuracyScore : float;
    parse_error : nullable string }.

Definition failed (message : string) : t :=
  {| extractedData := Null; accuracyScore := 0; parse_error := Val message |}.

Section Readers.

(** What the libraries read from a file: PDF.js the [str] of the text
    items of every page, Mammoth the raw text of a document, the [File]
    interface the text of the file. *)
Variable pdf_pages : File.t -> outcome (list (list string)).
Variable docx_value : File.t -> outcome string.
Variable file_text : File.t -> outcome string.
(** The message of the [TypeError] that reading [file.type] raises when
    [file] is [null] or [undefined]. *)
Variable TypeError_message : string.

Definition extractTextFromPDF (file : File.t) : Extracted :=
  match pdf_pages file with
  | Fulfilled pages =>
      let fullText :=
        fold_left
          (fun fullText items =>
             let pageText := join " " items in
             fullText ++ (pageText ++ String LF ""))%string
          pages "" in
      {| text := fullText; error := Null |}
  | Rejected message =>
      {| text := ""; error := Val ("PDF extraction failed: " ++ message) |}
  end.

Definition extractTextFromDOCX (file : File.t) : Extracted :=
  match docx_value file with
  | Fulfilled value => {| text := value; error := Null |}
  | Rejected message =>
      {| text := ""; error := Val ("DOCX extraction failed: " ++ message) |}
  end.

(** The second half of [parseCV]: the structured data extracted from the
    text, and its [accuracy_score]. *)
Definition parsed (text : string) : t :=
  {| extractedData := Val (Parser.extractedData text);
     accuracyScore := calculateAccuracyScore text;  (* extractedData.accuracy_score *)
     parse_error := Null |}.

Definition parseCV (file : nullable File.t) : t :=
  match file with
  | Val file =>
      (* Extract text based on file type *)
      if String.eqb (File.type file) ALLOWED_FILE_TYPES_PDF then
        let result := extractTextFromPDF file in
        match error result with
        | Val message => failed message
        | _ => parsed (text result)
        end
      else if String.eqb (File.type file) ALLOWED_FILE_TYPES_DOCX then
        let result := extractTextFromDOCX file in
        match error result with
        | Val message => failed message
        | _ => parsed (text result)
        end
      else if String.eqb (File.type file) ALLOWED_FILE_TYPES_TXT then
        match file_text file with
        | Fulfilled text => parsed text
        | Rejected message => failed ("Parsing failed: " ++ message)
        end
      else failed "Unsupported file type"
  | _ => failed ("Parsing failed: " ++ TypeError_message)
  end.

End Readers.

End ParseCV.

(* ================================================================= *)
(** * Part II: properties *)
(* ================================================================= *)

(** ** Facts about binary64 rounding *)

Module RoundingFacts.

Local Open Scope Z_scope.

Definition sign_is (sx : bool) (r : spec_float) : Prop :=
  match r with
  | S754_nan => False
  | S754_zero s | S754_infinity s | S754_finite s _ _ => s = sx
  end.

Lemma shr_1_m mrs : 0 <= shr_m mrs -> 0 <= shr_m (shr_1 mrs) <= shr_m mrs.
Proof.
  destruct mrs as [m r s]; simpl.
  destruct m as [|[p|p|]|p]; simpl; lia.
Qed.

Lemma iter_shr_1_m p : forall mrs,
  0 <= shr_m mrs -> 0 <= shr_m (iter_pos shr_1 p mrs) <= shr_m mrs.
Proof.
  induction p as [p IH|p IH|]; intros mrs H; simpl.
  - pose proof (shr_1_m mrs H) as H1.
    pose proof (IH _ (proj1 H1)) as H2.
    pose proof (IH _ (proj1 H2)) as H3. lia.
  - pose proof (IH _ H) as H2.
    pose proof (IH _ (proj1 H2)) as H3. lia.
  - apply shr_1_m; assumption.
Qed.

Lemma shr_record_of_loc_m m l : shr_m (shr_record_of_loc m l) = m.
Proof. destruct l as [|[]]; reflexivity. Qed.

Lemma shr_fexp_m m e l :
  0 <= m -> 0 <= shr_m (fst (shr_fexp prec emax m e l)) <= m.
Proof.
  intros H. unfold shr_fexp, shr.
  destruct (fexp prec emax (Zdigits2 m + e) - e) as [|p|p]; simpl;
    try (rewrite shr_record_of_loc_m; lia).
  pose proof (iter_shr_1_m p (shr_record_of_loc m l)) as Hi.
  rewrite shr_record_of_loc_m in Hi. auto.
Qed.

Lemma shr_fexp_e m e l :
  snd (shr_fexp prec emax m e l) = Z.max e (fexp prec emax (Zdigits2 m + e)).
Proof.
  unfold shr_fexp, shr.
  destruct (fexp prec emax (Zdigits2 m + e) - e) as [|p|p] eqn:E; simpl; lia.
Qed.

Lemma round_nearest_even_m m l :
  0 <= m -> 0 <= round_nearest_even m l <= m + 1.
Proof.
  intros H. destruct l as [|[]]; simpl; try lia.
  destruct (Z.even m); lia.
Qed.

Lemma binary_round_aux_sign sx mx ex lx :
  0 <= mx -> sign_is sx (binary_round_aux prec emax sx mx ex lx).
Proof.
  intros H. unfold binary_round_aux.
  pose proof (shr_fexp_m mx ex lx H) as H1.
  destruct (shr_fexp prec emax mx ex lx) as [mrs' e']. simpl in H1.
  pose proof (round_nearest_even_m (shr_m mrs') (loc_of_shr_record mrs') (proj1 H1)) as H2.
  pose proof (shr_fexp_m _ e' loc_Exact (proj1 H2)) as H3.
  destruct (shr_fexp prec emax _ e' loc_Exact) as [mrs'' e'']. simpl in H3.
  destruct (shr_m mrs'') as [|p|p]; try (exfalso; lia).
  - reflexivity.
  - destruct (e'' <=? emax - prec); reflexivity.
Qed.

Lemma digits2_pos_le p : forall K, Zpos p < 2 ^ K -> 0 <= K -> Zpos (digits2_pos p) <= K.
Proof.
  induction p as [p IH|p IH|]; intros K H HK; simpl.
  - assert (K <> 0) by (intros ->; simpl in H; lia).
    assert (Zpos p < 2 ^ (K - 1)).
    { replace K with (Z.succ (K - 1)) in H by lia. rewrite Z.pow_succ_r in H by lia. lia. }
    specialize (IH (K - 1)). lia.
  - assert (K <> 0) by (intros ->; simpl in H; lia).
    assert (Zpos p < 2 ^ (K - 1)).
    { replace K with (Z.succ (K - 1)) in H by lia. rewrite Z.pow_succ_r in H by lia. lia. }
    specialize (IH (K - 1)). lia.
  - assert (K <> 0) by (intros ->; simpl in H; lia). lia.
Qed.

Lemma Zdigits2_le m K : 0 <= m < 2 ^ K -> 0 <= K -> Zdigits2 m <= K.
Proof.
  intros [H0 H1] HK. destruct m as [|p|p]; simpl; try lia.
  apply digits2_pos_le; assumption.
Qed.

Lemma digits2_pos_lt p : Zpos p < 2 ^ Zpos (digits2_pos p).
Proof.
  induction p as [p IH|p IH|]; simpl digits2_pos.
  - rewrite Pos2Z.inj_succ, Z.pow_succ_r by lia. lia.
  - rewrite Pos2Z.inj_succ, Z.pow_succ_r by lia. lia.
  - simpl. lia.
Qed.

Definition fin_nonneg (r : spec_float) : Prop :=
  match r with
  | S754_zero false | S754_finite false _ _ => True
  | _ => False
  end.

Lemma binary_round_aux_fin mx ex lx :
  0 <= mx < 2 ^ 63 -> ex <= 0 ->
  fin_nonneg (binary_round_aux prec emax false mx ex lx).
Proof.
  intros [H0 Hb] He. unfold binary_round_aux.
  pose proof (shr_fexp_m mx ex lx H0) as H1.
  pose proof (shr_fexp_e mx ex lx) as E1.
  destruct (shr_fexp prec emax mx ex lx) as [mrs' e']. simpl in H1, E1.
  pose proof (round_nearest_even_m (shr_m mrs') (loc_of_shr_record mrs') (proj1 H1)) as H2.
  pose proof (shr_fexp_m _ e' loc_Exact (proj1 H2)) as H3.
  pose proof (shr_fexp_e (round_nearest_even (shr_m mrs') (loc_of_shr_record mrs')) e' loc_Exact) as E2.
  destruct (shr_fexp prec emax _ e' loc_Exact) as [mrs'' e'']. simpl in H3, E2.
  assert (D1 : Zdigits2 mx <= 63) by (apply Zdigits2_le; lia).
  assert (D2 : Zdigits2 (round_nearest_even (shr_m mrs') (loc_of_shr_record mrs')) <= 64).
  { apply Zdigits2_le; [|lia]. change (2 ^ 64) with (2 * 2 ^ 63). lia. }
  unfold fexp, SpecFloat.emin, prec, emax in *.
  destruct (shr_m mrs'') as [|p|p]; try (exfalso; lia).
  - exact I.
  - replace (e'' <=? 1024 - 53) with true; [exact I|].
    symmetry. apply Z.leb_le. lia.
Qed.

Definition nn_sf (r : spec_float) : Prop := sign_is false r.

Lemma fin_nonneg_nn r : fin_nonneg r -> nn_sf r.
Proof. destruct r as [[]|[]| |[] m e]; simpl; intros H; try contradiction; reflexivity. Qed.

Lemma binary_round_sign sx m e : sign_is sx (binary_round prec emax sx m e).
Proof.
  unfold binary_round.
  destruct (shl_align m e _) as [mz ez].
  apply binary_round_aux_sign. lia.
Qed.

Lemma SFadd_nn a b : nn_sf a -> nn_sf b -> nn_sf (SF64add a b).
Proof.
  unfold nn_sf.
  destruct a as [[]|[]| |[] ma ea]; destruct b as [[]|[]| |[] mb eb];
    simpl; intros Ha Hb; try discriminate; try contradiction; try reflexivity.
  apply binary_round_sign.
Qed.

Lemma SFmul_nn a mb eb : nn_sf a -> nn_sf (SF64mul a (S754_finite false mb eb)).
Proof.
  unfold nn_sf.
  destruct a as [[]|[]| |[] ma ea]; simpl; intros Ha;
    try discriminate; try contradiction; try reflexivity.
  apply binary_round_aux_sign. lia.
Qed.

Lemma SFdiv_core_binary_nonneg m1 e1 m2 e2 :
  0 <= fst (fst (SFdiv_core_binary prec emax (Zpos m1) e1 (Zpos m2) e2)).
Proof.
  unfold SFdiv_core_binary.
  set (s := _ - _ - Z.min _ _).
  set (m' := match s with Z0 => Zpos m1 | Zpos _ => Z.shiftl (Zpos m1) s | Zneg _ => 0 end).
  assert (Hm : 0 <= m').
  { subst m'. destruct s; try lia. apply Z.shiftl_nonneg. lia. }
  pose proof (Z.div_pos m' (Zpos m2) Hm ltac:(lia)) as Hq.
  unfold Z.div in Hq.
  destruct (Z.div_eucl m' (Zpos m2)) as [q r]. simpl in *. exact Hq.
Qed.

Lemma SFdiv_nn a mb eb : fin_nonneg a -> nn_sf (SF64div a (S754_finite false mb eb)).
Proof.
  unfold nn_sf.
  destruct a as [[]|[]| |[] ma ea]; simpl; intros Ha; try contradiction; try reflexivity.
  pose proof (SFdiv_core_binary_nonneg ma ea mb eb) as Hq.
  destruct (SFdiv_core_binary prec emax (Zpos ma) ea (Zpos mb) eb) as [[q e] l].
  simpl in Hq. apply binary_round_aux_sign. exact Hq.
Qed.

Lemma iter_xO_value m d : Zpos (Pos.iter xO m d) = Zpos m * 2 ^ Zpos d.
Proof.
  induction d as [|d IH] using Pos.peano_ind.
  - simpl. lia.
  - rewrite Pos.iter_succ, Pos2Z.inj_succ, Z.pow_succ_r by lia.
    rewrite Pos2Z.inj_xO, IH. lia.
Qed.

Lemma binary_normalize_fin z :
  0 <= z < 2 ^ 63 -> fin_nonneg (binary_normalize prec emax z 0 false).
Proof.
  intros [H0 Hb]. destruct z as [|m|m]; simpl; try exact I; try lia.
  unfold binary_round.
  assert (H : let '(mz, ez) := shl_align m 0 (fexp prec emax (Zpos (digits2_pos m) + 0)) in
              0 <= Zpos mz < 2 ^ 63 /\ ez <= 0).
  { unfold shl_align.
    destruct (fexp prec emax (Zpos (digits2_pos m) + 0) - 0) as [|d|d] eqn:E; try lia.
    split; [|lia].
    rewrite iter_xO_value.
    pose proof (digits2_pos_lt m) as Hd.
    unfold fexp, SpecFloat.emin, prec, emax in E.
    assert (Ed : Zpos d = 53 - Zpos (digits2_pos m)) by lia.
    assert (Zpos m * 2 ^ Zpos d < 2 ^ Zpos (digits2_pos m) * 2 ^ Zpos d).
    { apply Z.mul_lt_mono_pos_r; [apply Z.pow_pos_nonneg; lia | exact Hd]. }
    rewrite <- Z.pow_add_r in H by lia.
    replace (Zpos (digits2_pos m) + Zpos d) with 53 in H by lia.
    assert (2 ^ 53 < 2 ^ 63) by (apply Z.pow_lt_mono_r; lia).
    lia. }
  destruct (shl_align m 0 _) as [mz ez]. destruct H as [Hm He].
  apply binary_round_aux_fin; assumption.
Qed.

End RoundingFacts.

(** ** Facts about JavaScript numbers *)

Module NumberFacts.

Import JSNumber RoundingFacts.
Local Open Scope float_scope.

Definition nn (x : float) : Prop := nn_sf (Prim2SF x).
Definition fin (x : float) : Prop := fin_nonneg (Prim2SF x).

Lemma fin_nn x : fin x -> nn x.
Proof. apply fin_nonneg_nn. Qed.

Lemma SFcompare_refl r : r <> S754_nan -> SFcompare r r = Some Eq.
Proof.
  destruct r as [s|s| |s m e]; simpl; intros H; try congruence.
  - destruct s; reflexivity.
  - rewrite Z.compare_refl, Pos.compare_cont_refl. destruct s; reflexivity.
Qed.

Lemma is_nan_false x : Prim2SF x <> S754_nan -> is_nan x = false.
Proof.
  intros H. unfold is_nan. rewrite FloatAxioms.eqb_spec. unfold SFeqb.
  rewrite SFcompare_refl by assumption. reflexivity.
Qed.

Lemma nn_not_nan x : nn x -> is_nan x = false.
Proof.
  intros H. apply is_nan_false. intros E. unfold nn in H. rewrite E in H. exact H.
Qed.

Lemma nn_add x y : nn x -> nn y -> nn (x + y).
Proof. unfold nn. rewrite FloatAxioms.add_spec. apply SFadd_nn. Qed.

Lemma of_length_fin n : fin (of_length n).
Proof.
  unfold fin, of_length. rewrite of_uint63_spec.
  apply binary_normalize_fin.
  pose proof (Uint63.to_Z_bounded (of_Z (Z.of_nat n))) as H.
  exact H.
Qed.

Definition one_sf : spec_float := Eval vm_compute in Prim2SF 1.

Lemma Prim2SF_one : Prim2SF 1 = one_sf.
Proof. vm_compute. reflexivity. Qed.

(** A non-negative number below one is finite. *)
Lemma ltb_one_fin x : nn x -> (x <? 1) = true -> fin x.
Proof.
  unfold nn, fin. rewrite FloatAxioms.ltb_spec, Prim2SF_one. unfold one_sf.
  destruct (Prim2SF x) as [[]|[]| |[] m e]; simpl; intros H L;
    try discriminate; try contradiction; exact I.
Qed.

Lemma Math_min_one x :
  nn x -> Math_min x 1 = 1 \/ (Math_min x 1 = x /\ (x <? 1) = true).
Proof.
  intros H. unfold Math_min.
  rewrite (nn_not_nan x H).
  change (is_nan 1) with false. cbn [orb].
  destruct (x <? 1) eqn:L1; [right; split; reflexivity|].
  destruct (1 <? x) eqn:L2; [left; reflexivity|].
  destruct (Leibniz.eqb x neg_zero) eqn:L3; [|left; reflexivity].
  apply FloatAxioms.Leibniz.eqb_spec in L3. subst x. exfalso.
  unfold nn in H. vm_compute in H. discriminate.
Qed.

Lemma Math_min_one_fin x : nn x -> fin (Math_min x 1).
Proof.
  intros H. destruct (Math_min_one x H) as [E|[E L]]; rewrite E.
  - unfold fin. vm_compute. exact I.
  - apply ltb_one_fin; assumption.
Qed.

(** [Math.max(n, 1)] is a positive finite number when [n] is finite. *)
Lemma Math_max_one x :
  fin x -> exists m e, Prim2SF (Math_max x 1) = S754_finite false m e.
Proof.
  intros H. unfold Math_max.
  rewrite (nn_not_nan x (fin_nn x H)).
  change (is_nan 1) with false. cbn [orb].
  assert (H1 : exists m e, Prim2SF 1 = S754_finite false m e)
    by (rewrite Prim2SF_one; unfold one_sf; eauto).
  destruct (x <? 1) eqn:L1; [exact H1|].
  assert (Hx : (x <? 1) = false -> exists m e, Prim2SF x = S754_finite false m e).
  { unfold fin in H. rewrite FloatAxioms.ltb_spec, Prim2SF_one. unfold one_sf.
    destruct (Prim2SF x) as [[]|[]| |[] m e]; simpl in *; try contradiction;
      try discriminate; eauto. }
  destruct (1 <? x); [auto|].
  destruct (Leibniz.eqb x neg_zero); auto.
Qed.

Lemma nn_div x y :
  fin x -> (exists m e, Prim2SF y = S754_finite false m e) -> nn (x / y).
Proof.
  intros Hx (m & e & Hy). unfold nn. rewrite FloatAxioms.div_spec, Hy.
  apply SFdiv_nn. exact Hx.
Qed.

Lemma nn_mul_const x c m e :
  Prim2SF c = S754_finite false m e -> nn x -> nn (x * c).
Proof.
  intros Hc Hx. unfold nn. rewrite FloatAxioms.mul_spec, Hc. apply SFmul_nn. exact Hx.
Qed.

(** The ratio of two array lengths, clamped: the [skillsScore] of both
    scoring functions. *)
Lemma ratio_fin a b :
  fin (Math_min (of_length a / Math_max (of_length b) 1) 1).
Proof.
  apply Math_min_one_fin, nn_div.
  - apply of_length_fin.
  - apply Math_max_one, of_length_fin.
Qed.

(** *** Rounding to two decimals *)

Local Open Scope Z_scope.

Lemma valid_mantissa m e :
  valid_binary (S754_finite false m e) = true -> Zpos m < 2 ^ 53.
Proof.
  simpl. unfold bounded, canonical_mantissa. intros H.
  apply andb_prop in H. destruct H as [H _]. apply Z.eqb_eq in H.
  unfold fexp, SpecFloat.emin, prec, emax in H.
  pose proof (digits2_pos_lt m) as Hd.
  assert (Zpos (digits2_pos m) <= 53) by lia.
  assert (2 ^ Zpos (digits2_pos m) <= 2 ^ 53) by (apply Z.pow_le_mono_r; lia).
  lia.
Qed.

Lemma below_one_hundredths m e :
  valid_binary (S754_finite false m e) = true ->
  SFltb (S754_finite false m e) one_sf = true ->
  ge_1e21 m e = false /\ 0 <= hundredths m e <= 100.
Proof.
  intros V L. apply valid_mantissa in V.
  unfold SFltb, SFcompare, one_sf in L.
  assert (K : exists k, e = Zneg k /\ Zpos m < 2 ^ Zpos k).
  { destruct (Z.compare e (-52)) eqn:C; try discriminate.
    - apply Z.compare_eq in C. subst e. exists 52%positive. split; [reflexivity|].
      destruct (Pos.compare_cont Eq m 4503599627370496) eqn:P; try discriminate.
      exact P.
    - destruct e as [|p|k]; try discriminate C.
      change (Zneg k < -52) in C.
      exists k. split; [reflexivity|].
      assert (2 ^ 53 <= 2 ^ Zpos k) by (apply Z.pow_le_mono_r; lia). lia. }
  destruct K as (k & -> & Hm).
  assert (P : 0 < 2 ^ Zpos k) by (apply Z.pow_pos_nonneg; lia).
  unfold ge_1e21, hundredths. split.
  - rewrite Z.div_small by lia. reflexivity.
  - rewrite Z.pow_add_r by lia. change (2 ^ 1) with 2. split.
    + apply Z.div_pos; lia.
    + assert ((200 * Zpos m + 2 ^ Zpos k) / (2 ^ Zpos k * 2) < 101); [|lia].
      apply Z.div_lt_upper_bound; lia.
Qed.

(** The value read back from the two-decimal text of [n / 100]. *)
Definition grid (n : nat) : float := parseFloat (NumFixed false (Z.of_nat n)).

(** The numbers [0.00], [0.01], ..., [1.00]. *)
Definition grid_values : list float := Eval vm_compute in map grid (seq 0 101).

Lemma grid_values_eq : map grid (seq 0 101) = grid_values.
Proof. vm_compute. reflexivity. Qed.

Lemma grid_in n : (n <= 100)%nat -> In (grid n) grid_values.
Proof. intros H. rewrite <- grid_values_eq. apply in_map, in_seq. lia. Qed.

(** A non-negative number, clamped to one and rounded to two decimals, is
    one of the 101 grid values. *)
Lemma round2_clamped x :
  nn x -> In (parseFloat (toFixed2 (Math_min x 1))) grid_values.
Proof.
  intros H. destruct (Math_min_one x H) as [E|[E L]]; rewrite E.
  - change (parseFloat (toFixed2 1)) with (grid 100). apply grid_in. lia.
  - unfold toFixed2.
    pose proof (Prim2SF_valid x) as V.
    rewrite FloatAxioms.ltb_spec, Prim2SF_one in L.
    unfold nn in H.
    destruct (Prim2SF x) as [[]|[]| |[] m e]; simpl in H; try discriminate; try contradiction.
    + apply (grid_in 0). lia.
    + destruct (below_one_hundredths m e V L) as [G B].
      simpl. rewrite G.
      replace (hundredths m e) with (Z.of_nat (Z.to_nat (hundredths m e)))
        by (apply Z2Nat.id; lia).
      apply (grid_in (Z.to_nat (hundredths m e))). lia.
Qed.

Local Open Scope float_scope.

Definition grid_bounds_check : bool :=
  forallb (fun v => (0 <=? v) && (v <=? 1)) grid_values.

Lemma grid_bounds_check_true : grid_bounds_check = true.
Proof. vm_compute. reflexivity. Qed.

Lemma grid_bounds v :
  In v grid_values -> (0 <=? v) = true /\ (v <=? 1) = true.
Proof.
  intros H. pose proof grid_bounds_check_true as C.
  unfold grid_bounds_check in C. rewrite forallb_forall in C.
  apply andb_prop. exact (C v H).
Qed.

(** On the grid, the sign of [v - u] tells the order of [u] and [v]. *)
Definition grid_order_check : bool :=
  forallb (fun u => forallb (fun v =>
    if 0 <? v - u then u <=? v else v <=? u) grid_values) grid_values.

Lemma grid_order_check_true : grid_order_check = true.
Proof. vm_compute. reflexivity. Qed.

Lemma grid_order u v :
  In u grid_values -> In v grid_values ->
  (if 0 <? v - u then u <=? v else v <=? u) = true.
Proof.
  intros Hu Hv. pose proof grid_order_check_true as C.
  unfold grid_order_check in C. rewrite forallb_forall in C.
  specialize (C u Hu). rewrite forallb_forall in C.
  exact (C v Hv).
Qed.

Definition grid_trans_check : bool :=
  forallb (fun u => forallb (fun v => forallb (fun w =>
    implb ((v <=? u) && (w <=? v)) (w <=? u)) grid_values) grid_values) grid_values.

Lemma grid_trans_check_true : grid_trans_check = true.
Proof. vm_compute. reflexivity. Qed.

Lemma grid_trans u v w :
  In u grid_values -> In v grid_values -> In w grid_values ->
  (v <=? u) = true -> (w <=? v) = true -> (w <=? u) = true.
Proof.
  intros Hu Hv Hw Huv Hvw. pose proof grid_trans_check_true as C.
  unfold grid_trans_check in C. rewrite forallb_forall in C.
  specialize (C u Hu). rewrite forallb_forall in C.
  specialize (C v Hv). rewrite forallb_forall in C.
  specialize (C w Hw). rewrite Huv, Hvw in C. exact C.
Qed.

(** *** Sums of score terms *)

Lemma add_zero_r x : nn x -> x + 0 = x.
Proof.
  intros H. apply Prim2SF_inj. rewrite FloatAxioms.add_spec.
  change (Prim2SF 0) with (S754_zero false).
  unfold nn in H.
  destruct (Prim2SF x) as [[]|[]| |[] m e]; simpl in H;
    try discriminate; try contradiction; reflexivity.
Qed.

(** A literal that is positive and finite. *)
Definition positive_literal (c : float) : Prop :=
  exists m e, Prim2SF c = S754_finite false m e.

Lemma positive_literal_nn c : positive_literal c -> nn c.
Proof. intros (m & e & H). unfold nn. rewrite H. reflexivity. Qed.

Lemma nn_zero : nn 0.
Proof. reflexivity. Qed.

Ltac literal := do 2 eexists; vm_compute; reflexivity.

Lemma literal_0_1 : positive_literal 0.1. Proof. literal. Qed.
Lemma literal_0_2 : positive_literal 0.2. Proof. literal. Qed.
Lemma literal_0_3 : positive_literal 0.3. Proof. literal. Qed.
Lemma literal_0_4 : positive_literal 0.4. Proof. literal. Qed.

Lemma nn_mul_literal x c : positive_literal c -> nn x -> nn (x * c).
Proof. intros (m & e & H). apply (nn_mul_const x c m e H). Qed.

(** Two numbers that a comparison tells apart are different. *)
Lemma float_neq (x y : float) : (x <? y)%float = true -> x <> y.
Proof.
  intros L E. subst y. rewrite FloatAxioms.ltb_spec in L. unfold SFltb in L.
  destruct (Prim2SF x) as [s|s| |s m e] eqn:P.
  - discriminate.
  - destruct s; discriminate.
  - discriminate.
  - rewrite SFcompare_refl in L by discriminate. discriminate.
Qed.

(** *** Zero over a positive number *)



End NumberFacts.

(** ** Facts about sorting *)

Module SortFacts.

Import Matcher.
Local Open Scope float_scope.

Section Sorting.
Context {A : Type} (comparefn : A -> A -> float).

Lemma sort_insert_perm x l : Permutation (sort_insert comparefn x l) (x :: l).
Proof.
  induction l as [|y ys IH]; simpl.
  - apply Permutation_refl.
  - destruct (0 <? comparefn x y).
    + eapply perm_trans; [apply perm_skip, IH | apply perm_swap].
    + apply Permutation_refl.
Qed.

Lemma Array_sort_perm l : Permutation (Array_sort comparefn l) l.
Proof.
  induction l as [|x xs IH]; simpl.
  - apply perm_nil.
  - eapply perm_trans; [apply sort_insert_perm | apply perm_skip, IH].
Qed.

Lemma Array_sort_Forall (P : A -> Prop) l :
  Forall P l -> Forall P (Array_sort comparefn l).
Proof.
  intros H. eapply Permutation_Forall; [|exact H].
  apply Permutation_sym, Array_sort_perm.
Qed.

(** The elements that are compared satisfy [P]; on them the sign of
    [comparefn] agrees with the transitive order [R]. *)
Variable P : A -> Prop.
Variable R : A -> A -> Prop.
Hypothesis keep : forall x y, P x -> P y -> (0 <? comparefn x y) = false -> R x y.
Hypothesis swap : forall x y, P x -> P y -> (0 <? comparefn x y) = true -> R y x.
Hypothesis trans : forall x y z, P x -> P y -> P z -> R x y -> R y z -> R x z.

Lemma sort_insert_sorted x l :
  P x -> Forall P l -> StronglySorted R l ->
  StronglySorted R (sort_insert comparefn x l).
Proof.
  intros Px. induction l as [|y ys IH]; intros HP HS; simpl.
  - constructor; constructor.
  - inversion HP as [|? ? Py HPys]; subst.
    inversion HS as [|? ? HSys Hy]; subst.
    destruct (0 <? comparefn x y) eqn:C.
    + constructor; [apply IH; assumption|].
      eapply Permutation_Forall;
        [apply Permutation_sym, sort_insert_perm|].
      constructor; [apply swap; assumption | exact Hy].
    + assert (Rxy : R x y) by (apply keep; assumption).
      constructor; [exact HS|].
      constructor; [exact Rxy|].
      rewrite Forall_forall in *. intros z Hz.
      apply (trans x y z); auto.
Qed.

Lemma Array_sort_sorted l :
  Forall P l -> StronglySorted R (Array_sort comparefn l).
Proof.
  induction l as [|x xs IH]; intros HP; simpl.
  - constructor.
  - inversion HP; subst.
    apply sort_insert_sorted; auto.
    apply Array_sort_Forall; assumption.
Qed.
End Sorting.

End SortFacts.

(** ** Facts about strings and regular expressions *)

Module RegexFacts.

Import JSString Regex.
Local Open Scope string_scope.
Local Open Scope list_scope.

(** *** Characters *)

Definition all_ascii : list ascii := Eval vm_compute in map ascii_of_nat (seq 0 256).

Lemma all_ascii_complete c : In c all_ascii.
Proof.
  assert (E : map ascii_of_nat (seq 0 256) = all_ascii) by (vm_compute; reflexivity).
  rewrite <- E, <- (ascii_nat_embedding c).
  apply in_map, in_seq. pose proof (nat_ascii_bounded c). lia.
Qed.

(** A property of characters that holds of all 256 of them. *)
Lemma forall_ascii (p : ascii -> bool) :
  forallb p all_ascii = true -> forall c, p c = true.
Proof.
  intros H c. rewrite forallb_forall in H. apply H, all_ascii_complete.
Qed.

(** Under the [i] flag a character that is no capital letter matches what
    lower-cases to it. *)
Lemma chr_i_lower c x :
  is_capital c = false ->
  Ascii.eqb (upper_char x) (upper_char c) = Ascii.eqb c (lower_char x).
Proof.
  intros Hc.
  pose proof (forall_ascii
    (fun c => forallb (fun x =>
       is_capital c
       || Bool.eqb (Ascii.eqb (upper_char x) (upper_char c)) (Ascii.eqb c (lower_char x)))
       all_ascii)
    ltac:(vm_compute; reflexivity) c) as H.
  cbv beta in H. rewrite forallb_forall in H.
  specialize (H x (all_ascii_complete x)).
  rewrite Hc in H. simpl in H. apply Bool.eqb_prop in H. exact H.
Qed.

Lemma separator_not_digit c :
  Parser.in_chars "-." c || is_space c = true -> is_digit c = false.
Proof.
  pose proof (forall_ascii
    (fun c => implb (Parser.in_chars "-." c || is_space c) (negb (is_digit c)))
    ltac:(vm_compute; reflexivity) c) as H.
  cbv beta in H. intros S. rewrite S in H. simpl in H.
  apply negb_true_iff in H. exact H.
Qed.

Lemma existsb_ext_in {A} (f g : A -> bool) l :
  (forall x, In x l -> f x = g x) -> existsb f l = existsb g l.
Proof.
  induction l as [|x l IH]; intros H; simpl; [reflexivity|].
  rewrite (H x (or_introl eq_refl)), IH; [reflexivity|].
  intros y Hy. apply H. right. exact Hy.
Qed.

Lemma existsb_map {A B} (f : A -> B) (p : B -> bool) l :
  existsb p (map f l) = existsb (fun x => p (f x)) l.
Proof. induction l as [|x l IH]; simpl; [reflexivity|]. rewrite IH. reflexivity. Qed.

(** *** Scanning a text *)

(** [p] holds of some suffix of [s]. *)
Fixpoint any_suffix (p : string -> bool) (s : string) : bool :=
  p s ||
  match s with
  | EmptyString => false
  | String _ s' => any_suffix p s'
  end.

Lemma any_suffix_ext p q s :
  (forall t, p t = q t) -> any_suffix p s = any_suffix q s.
Proof.
  intros H. induction s as [|c s IH]; simpl; rewrite H; [reflexivity|].
  rewrite IH. reflexivity.
Qed.

Lemma any_suffix_orb p q s :
  any_suffix (fun t => p t || q t) s = any_suffix p s || any_suffix q s.
Proof.
  induction s as [|c s IH]; simpl.
  - rewrite !orb_false_r. reflexivity.
  - rewrite IH. destruct (p (String c s)), (q (String c s)), (any_suffix p s); reflexivity.
Qed.

Lemma any_suffix_existsb {A} (p : A -> string -> bool) (l : list A) s :
  any_suffix (fun t => existsb (fun k => p k t) l) s
  = existsb (fun k => any_suffix (p k) s) l.
Proof.
  induction l as [|k l IH]; simpl.
  - induction s as [|c s IHs]; simpl; [reflexivity|exact IHs].
  - rewrite <- IH. apply any_suffix_orb.
Qed.

Lemma includes_any_suffix s sub : includes s sub = any_suffix (String.prefix sub) s.
Proof. induction s as [|c s IH]; simpl; [reflexivity|]. rewrite IH. reflexivity. Qed.

Lemma includes_lower_any_suffix s sub :
  includes (toLowerCase s) sub = any_suffix (fun t => String.prefix sub (toLowerCase t)) s.
Proof. induction s as [|c s IH]; simpl; [reflexivity|]. rewrite IH. reflexivity. Qed.

(** *** Matching at a position *)

(** [r] matches at the head of [t], after the character [prev]. *)
Definition matches (r : regex) (prev : option ascii) (t : string) : bool :=
  match run r (prev, t) with
  | [] => false
  | _ :: _ => true
  end.

Fixpoint search_any (r : regex) (prev : option ascii) (s : string) : bool :=
  matches r prev s ||
  match s with
  | EmptyString => false
  | String c s' => search_any r (Some c) s'
  end.

Lemma search_some r s : forall prev,
  match search r prev s with Some _ => true | None => false end = search_any r prev s.
Proof.
  induction s as [|c s IH]; intros prev; simpl; unfold matches.
  - destruct (run r (prev, "")) as [|[p rest] l]; reflexivity.
  - destruct (run r (prev, String c s)) as [|[p rest] l]; [|reflexivity].
    simpl. rewrite <- IH.
    destruct (search r (Some c) s) as [[[b m] a]|]; reflexivity.
Qed.

Lemma test_search_any r s : test r s = search_any r None s.
Proof. unfold test. apply search_some. Qed.

(** A pattern without [\b] matches wherever [p] holds. *)
Lemma test_any_suffix r p s :
  (forall prev t, matches r prev t = p t) -> test r s = any_suffix p s.
Proof.
  intros H. rewrite test_search_any. generalize (@None ascii).
  induction s as [|c s IH]; intros prev; simpl; rewrite H; [reflexivity|].
  rewrite IH. reflexivity.
Qed.

Lemma matches_alt r1 r2 prev t :
  matches (Alt r1 r2) prev t = matches r1 prev t || matches r2 prev t.
Proof.
  unfold matches. simpl.
  destruct (run r1 (prev, t)); simpl; [|reflexivity].
  destruct (run r2 (prev, t)); reflexivity.
Qed.

Lemma matches_alts rs prev t :
  matches (alts rs) prev t = existsb (fun r => matches r prev t) rs.
Proof.
  induction rs as [|r rs IH]; simpl.
  - unfold matches. simpl. destruct t; reflexivity.
  - destruct rs as [|r' rs'].
    + simpl. rewrite orb_false_r. reflexivity.
    + rewrite matches_alt, IH. reflexivity.
Qed.

(** No capital letter occurs in [k]. *)
Fixpoint no_upper (k : string) : bool :=
  match k with
  | EmptyString => true
  | String c k' => negb (is_capital c) && no_upper k'
  end.

Lemma prefix_empty s : String.prefix "" s = true.
Proof. destruct s; reflexivity. Qed.

Lemma matches_chr_i c prev t :
  is_capital c = false ->
  matches (chr_i c) prev t = String.prefix (String c "") (toLowerCase t).
Proof.
  intros Hc. unfold matches. simpl.
  destruct t as [|x t]; simpl; [reflexivity|].
  rewrite (chr_i_lower c x Hc).
  destruct (ascii_dec c (lower_char x)) as [E|E].
  - rewrite (proj2 (Ascii.eqb_eq _ _) E). symmetry. apply prefix_empty.
  - rewrite (proj2 (Ascii.eqb_neq _ _) E). reflexivity.
Qed.

(** A keyword under the [i] flag matches where the lower-cased text
    starts with it. *)
Lemma matches_lit_i k : no_upper k = true ->
  forall prev t, matches (lit_i k) prev t = String.prefix k (toLowerCase t).
Proof.
  induction k as [|c k IH]; intros Hk prev t.
  - symmetry. apply prefix_empty.
  - simpl in Hk. apply andb_prop in Hk. destruct Hk as [Hc Hk].
    apply negb_true_iff in Hc.
    destruct k as [|c' k'].
    + apply matches_chr_i, Hc.
    + specialize (IH Hk).
      change (lit_i (String c (String c' k')))
        with (Seq (chr_i c) (lit_i (String c' k'))).
      unfold matches at 1. cbn [run].
      destruct t as [|x t]; [reflexivity|].
      cbn [snd run chr_i toLowerCase String.prefix].
      rewrite (chr_i_lower c x Hc).
      destruct (ascii_dec c (lower_char x)) as [E|E].
      * rewrite (proj2 (Ascii.eqb_eq _ _) E). cbn [flat_map].
        rewrite app_nil_r. apply (IH (Some x) t).
      * rewrite (proj2 (Ascii.eqb_neq _ _) E). reflexivity.
Qed.

(** [/k1|k2|.../i.test(s)]: some keyword occurs in the lower-cased text. *)
Lemma test_keywords_i ks s :
  forallb no_upper ks = true ->
  test (alts (map lit_i ks)) s = existsb (fun k => includes (toLowerCase s) k) ks.
Proof.
  intros H.
  rewrite (test_any_suffix _
             (fun t => existsb (fun k => String.prefix k (toLowerCase t)) ks)).
  - rewrite any_suffix_existsb. apply existsb_ext_in.
    intros k _. symmetry. apply includes_lower_any_suffix.
  - intros prev t. rewrite matches_alts, existsb_map.
    rewrite forallb_forall in H.
    apply existsb_ext_in. intros k Hk. apply matches_lit_i, H, Hk.
Qed.

(** *** Patterns without [\b] and [*] *)

Fixpoint simple (r : regex) : bool :=
  match r with
  | Eps | Chr _ => true
  | Seq r1 r2 | Alt r1 r2 => simple r1 && simple r2
  | Star _ | WordB => false
  end.

(** [r] matches at the head of [t] and [k] holds of the text that
    follows. *)
Fixpoint accepts (r : regex) (k : string -> bool) (t : string) : bool :=
  match r with
  | Eps => k t
  | Chr p =>
      match t with
      | String c t' => p c && k t'
      | EmptyString => false
      end
  | Seq r1 r2 => accepts r1 (accepts r2 k) t
  | Alt r1 r2 => accepts r1 k t || accepts r2 k t
  | Star _ | WordB => false
  end.

Lemma existsb_flat_map {A B} (f : A -> list B) (p : B -> bool) l :
  existsb p (flat_map f l) = existsb (fun x => existsb p (f x)) l.
Proof.
  induction l as [|x l IH]; simpl; [reflexivity|].
  rewrite existsb_app, IH. reflexivity.
Qed.

Lemma run_accepts r : simple r = true ->
  forall k prev t,
    existsb (fun st => k (snd st)) (run r (prev, t)) = accepts r k t.
Proof.
  induction r as [|p|r1 IH1 r2 IH2|r1 IH1 r2 IH2|r IH|]; intros S k prev t;
    simpl in S; try discriminate.
  - simpl. apply orb_false_r.
  - simpl. destruct t as [|c t]; [reflexivity|].
    destruct (p c); simpl; [apply orb_false_r|reflexivity].
  - apply andb_prop in S. destruct S as [S1 S2].
    cbn [run accepts]. rewrite existsb_flat_map.
    rewrite <- (IH1 S1 (accepts r2 k) prev t).
    apply existsb_ext_in. intros [p' t'] _. apply (IH2 S2).
  - apply andb_prop in S. destruct S as [S1 S2].
    cbn [run accepts]. rewrite existsb_app, (IH1 S1), (IH2 S2). reflexivity.
Qed.

Definition stop (t : string) : bool := true.

Lemma matches_accepts r prev t :
  simple r = true -> matches r prev t = accepts r stop t.
Proof.
  intros S. rewrite <- (run_accepts r S stop prev t). unfold matches.
  destruct (run r (prev, t)); reflexivity.
Qed.

(** [n] digits, then [k]. *)
Fixpoint digits_then (n : nat) (k : string -> bool) (t : string) : bool :=
  match n with
  | O => k t
  | S n' =>
      match t with
      | String c t' => is_digit c && digits_then n' k t'
      | EmptyString => false
      end
  end.

(** One of [-], [.] and the white-space characters or nothing, then [k]. *)
Definition separator_then (k : string -> bool) (t : string) : bool :=
  match t with
  | String c t' => (Parser.in_chars "-." c || is_space c) && k t'
  | EmptyString => false
  end
  || k t.

(** The characters of [s], then [k]. *)
Fixpoint literal_then (s : string) (k : string -> bool) (t : string) : bool :=
  match s with
  | EmptyString => k t
  | String c s' =>
      match t with
      | String x t' => Ascii.eqb c x && literal_then s' k t'
      | EmptyString => false
      end
  end.

Lemma accepts_rep_digit n k t : accepts (rep n digit) k t = digits_then n k t.
Proof.
  revert t. induction n as [|n IH]; intros t; [reflexivity|].
  destruct n as [|n'].
  - reflexivity.
  - change (rep (S (S n')) digit) with (Seq digit (rep (S n') digit)).
    cbn [accepts digit digits_then]. destruct t as [|c t]; [reflexivity|].
    rewrite IH. reflexivity.
Qed.

Lemma accepts_ext r k k' t :
  (forall u, k u = k' u) -> accepts r k t = accepts r k' t.
Proof.
  revert k k' t.
  induction r as [|p|r1 IH1 r2 IH2|r1 IH1 r2 IH2|r IH|]; intros k k' t H; simpl;
    try reflexivity.
  - apply H.
  - destruct t; [reflexivity|]. rewrite H. reflexivity.
  - apply IH1. intros u. apply IH2, H.
  - rewrite (IH1 k k' t H), (IH2 k k' t H). reflexivity.
Qed.

Lemma accepts_lit s k t : accepts (lit s) k t = literal_then s k t.
Proof.
  revert t. induction s as [|c s IH]; intros t; [reflexivity|].
  destruct s as [|c' s'].
  - reflexivity.
  - change (lit (String c (String c' s'))) with (Seq (chr c) (lit (String c' s'))).
    cbn [accepts chr literal_then]. destruct t as [|x t]; [reflexivity|].
    rewrite IH. reflexivity.
Qed.

End RegexFacts.

(** ** Facts about the matcher *)

Module MatcherFacts.

Import JSNumber NumberFacts SortFacts Matcher.
Local Open Scope float_scope.

Create HintDb nn.
#[local] Hint Resolve nn_zero nn_add positive_literal_nn nn_mul_literal
  literal_0_1 literal_0_2 literal_0_3 literal_0_4 fin_nn ratio_fin : nn.

Lemma map_result_ok {A B} (f : A -> result B) (g : A -> B) l :
  (forall x, f x = Ok (g x)) -> map_result f l = Ok (map g l).
Proof.
  intros H. induction l as [|x xs IH]; simpl.
  - reflexivity.
  - rewrite H, IH. reflexivity.
Qed.

(** *** Companies *)

Lemma sizePreferred_ok company :
  exists b, CompanyScore.sizePreferred company = Ok b.
Proof.
  unfold CompanyScore.sizePreferred.
  destruct (Company.size company) as [| |s]; simpl; eauto.
  destruct (negb (String.eqb s "")); simpl; eauto.
  destruct (JSString.includes s "51-200"); eauto.
Qed.

Lemma company_skills_nn company cvData : nn (CompanyTerms.skills company cvData).
Proof. unfold CompanyTerms.skills, CompanyScore.skillsScore. auto with nn. Qed.

Lemma company_industry_nn company cvData : nn (CompanyTerms.industry company cvData).
Proof. unfold CompanyTerms.industry. destruct CompanyScore.industryMatch; auto with nn. Qed.

Lemma company_location_nn company cvData : nn (CompanyTerms.location company cvData).
Proof.
  unfold CompanyTerms.location.
  destruct CompanyScore.locationMatch; auto with nn.
  destruct JS.truthy_string; auto with nn.
Qed.

Lemma company_size_nn company : nn (CompanyTerms.size company).
Proof.
  unfold CompanyTerms.size.
  destruct CompanyScore.sizePreferred as [[]|]; auto with nn.
Qed.

#[local] Hint Resolve company_skills_nn company_industry_nn company_location_nn
  company_size_nn : nn.

(** The sum the company score clamps. *)
Definition company_sum (company : Company.t) (cvData : CVData.t) : float :=
  0 + CompanyTerms.industry company cvData + CompanyTerms.skills company cvData
  + CompanyTerms.location company cvData + CompanyTerms.size company.

Lemma company_sum_nn company cvData : nn (company_sum company cvData).
Proof. unfold company_sum. auto 10 with nn. Qed.

(** The company score never raises, and is the clamped sum of its four
    terms. *)
Lemma calculateCompanyMatchScore_terms company cvData :
  calculateCompanyMatchScore company cvData
  = Ok (Math_min (company_sum company cvData) 1).
Proof.
  unfold calculateCompanyMatchScore, company_sum.
  pose proof (company_skills_nn company cvData) as Hs.
  unfold CompanyTerms.industry, CompanyTerms.location, CompanyTerms.size.
  fold (CompanyTerms.skills company cvData).
  destruct (sizePreferred_ok company) as [b ->]. simpl.
  destruct (CompanyScore.industryMatch company cvData);
    destruct (CompanyScore.locationMatch company cvData);
    destruct (JS.truthy_string (Company.location company));
    destruct b;
    rewrite ?add_zero_r by auto 10 with nn; reflexivity.
Qed.

(** *** People *)

Lemma profile_skills_nn profile cvData : nn (ProfileTerms.skills profile cvData).
Proof. unfold ProfileTerms.skills, ProfileScore.skillsScore. auto with nn. Qed.

Lemma profile_industry_nn profile cvData : nn (ProfileTerms.industry profile cvData).
Proof. unfold ProfileTerms.industry. destruct ProfileScore.industryMatch; auto with nn. Qed.

Lemma profile_seniority_nn profile cvData : nn (ProfileTerms.seniority profile cvData).
Proof.
  unfold ProfileTerms.seniority. cbv zeta.
  destruct (_ && _); auto with nn.
  destruct (_ && _); auto with nn.
Qed.

Lemma profile_location_nn profile cvData : nn (ProfileTerms.location profile cvData).
Proof. unfold ProfileTerms.location. destruct ProfileScore.locationMatch; auto with nn. Qed.

#[local] Hint Resolve profile_skills_nn profile_industry_nn profile_seniority_nn
  profile_location_nn : nn.

(** The sum the person score clamps. *)
Definition profile_sum (profile : Person.t) (cvData : CVData.t) : float :=
  0 + ProfileTerms.skills profile cvData + ProfileTerms.industry profile cvData
  + ProfileTerms.seniority profile cvData + ProfileTerms.location profile cvData.

Lemma profile_sum_nn profile cvData : nn (profile_sum profile cvData).
Proof. unfold profile_sum. auto 10 with nn. Qed.

(** The person score is the clamped sum of its four terms. *)
Lemma calculateProfileMatchScore_terms profile cvData :
  calculateProfileMatchScore profile cvData
  = Math_min (profile_sum profile cvData) 1.
Proof.
  unfold calculateProfileMatchScore, profile_sum.
  pose proof (profile_skills_nn profile cvData) as Hs.
  unfold ProfileTerms.industry, ProfileTerms.seniority, ProfileTerms.location.
  fold (ProfileTerms.skills profile cvData). cbv zeta.
  destruct (ProfileScore.industryMatch profile cvData);
    destruct ((5 <=? ProfileScore.cvExperience cvData)%nat && ProfileScore.isSeniorRole profile);
    destruct ((ProfileScore.cvExperience cvData <? 5)%nat && negb (ProfileScore.isSeniorRole profile));
    destruct (ProfileScore.locationMatch profile cvData);
    rewrite ?add_zero_r by auto 10 with nn; reflexivity.
Qed.

(** *** Ranking *)

(** The record [rankCompanies] builds for one company. *)
Definition rankedCompany (cvData : CVData.t) (company : Company.t) : RankedCompany.t :=
  {| RankedCompany.company := company;
     RankedCompany.match_score := round2 (Math_min (company_sum company cvData) 1);
     RankedCompany.matching_criteria := getCompanyMatchingCriteria company cvData |}.

(** The record [rankProfiles] builds for one person. *)
Definition rankedProfile (cvData : CVData.t) (profile : Person.t) : RankedProfile.t :=
  {| RankedProfile.profile := profile;
     RankedProfile.match_score := round2 (calculateProfileMatchScore profile cvData);
     RankedProfile.shared_skills := getSharedSkills profile cvData;
     RankedProfile.shared_interests := getSharedInterests profile cvData;
     RankedProfile.conversation_starter := generateConversationStarter profile cvData |}.

Definition company_order (a b : RankedCompany.t) : float :=
  RankedCompany.match_score b - RankedCompany.match_score a.

Definition profile_order (a b : RankedProfile.t) : float :=
  RankedProfile.match_score b - RankedProfile.match_score a.

Lemma rankCompanies_present companies cvData :
  rankCompanies (Val companies) (Val cvData)
  = Ok (Array_sort company_order (map (rankedCompany cvData) companies)).
Proof.
  unfold rankCompanies.
  rewrite (map_result_ok _ (rankedCompany cvData)).
  - reflexivity.
  - intros company. rewrite calculateCompanyMatchScore_terms. reflexivity.
Qed.

Lemma rankProfiles_present profiles cvData :
  rankProfiles (Val profiles) (Val cvData)
  = Ok (Array_sort profile_order (map (rankedProfile cvData) profiles)).
Proof. reflexivity. Qed.

Lemma rankedCompany_on_grid cvData company :
  In (RankedCompany.match_score (rankedCompany cvData company)) grid_values.
Proof. apply round2_clamped, company_sum_nn. Qed.

Lemma rankedProfile_on_grid cvData profile :
  In (RankedProfile.match_score (rankedProfile cvData profile)) grid_values.
Proof.
  simpl. rewrite calculateProfileMatchScore_terms.
  apply round2_clamped, profile_sum_nn.
Qed.

(** Whatever the arguments, [rankCompanies] returns, and every score of
    the result is on the grid [0.00, 0.01, ..., 1.00]. *)
Lemma rankCompanies_on_grid companies cvData :
  exists out,
    rankCompanies companies cvData = Ok out
    /\ Forall (fun r => In (RankedCompany.match_score r) grid_values) out.
Proof.
  destruct companies as [| |cs]; try (exists []; split; [reflexivity|constructor]);
  destruct cvData as [| |cv]; try (exists []; split; [reflexivity|constructor]).
  eexists. split; [apply rankCompanies_present|].
  apply Array_sort_Forall, Forall_forall.
  intros r Hr. apply in_map_iff in Hr. destruct Hr as (c & <- & _).
  apply rankedCompany_on_grid.
Qed.

Lemma rankProfiles_on_grid profiles cvData :
  exists out,
    rankProfiles profiles cvData = Ok out
    /\ Forall (fun r => In (RankedProfile.match_score r) grid_values) out.
Proof.
  destruct profiles as [| |ps]; try (exists []; split; [reflexivity|constructor]);
  destruct cvData as [| |cv]; try (exists []; split; [reflexivity|constructor]).
  eexists. split; [apply rankProfiles_present|].
  apply Array_sort_Forall, Forall_forall.
  intros r Hr. apply in_map_iff in Hr. destruct Hr as (p & <- & _).
  apply rankedProfile_on_grid.
Qed.

(** The result ranks exactly the candidates it was given. *)
Lemma rankCompanies_candidates companies cvData :
  exists out,
    rankCompanies (Val companies) (Val cvData) = Ok out
    /\ Permutation (map RankedCompany.company out) companies.
Proof.
  eexists. split; [apply rankCompanies_present|].
  eapply perm_trans; [apply Permutation_map, Array_sort_perm|].
  rewrite map_map. cbn [rankedCompany RankedCompany.company].
  rewrite map_id. apply Permutation_refl.
Qed.

Lemma rankProfiles_candidates profiles cvData :
  exists out,
    rankProfiles (Val profiles) (Val cvData) = Ok out
    /\ Permutation (map RankedProfile.profile out) profiles.
Proof.
  eexists. split; [apply rankProfiles_present|].
  eapply perm_trans; [apply Permutation_map, Array_sort_perm|].
  rewrite map_map. cbn [rankedProfile RankedProfile.profile].
  rewrite map_id. apply Permutation_refl.
Qed.

End MatcherFacts.

(** ** Facts about the parser *)

Module ParserFacts.

Import JSString Regex RegexFacts JSNumber NumberFacts Parser.
Local Open Scope string_scope.
Local Open Scope list_scope.

(** *** The five signals of the confidence score *)

Definition has_at (text : string) : bool := includes text "@".

(** Three digits, three digits and four digits; the second and the third
    group may each follow one separator. *)
Definition phone_at : string -> bool :=
  digits_then 3 (separator_then (digits_then 3 (separator_then (digits_then 4 stop)))).

Definition has_phone (text : string) : bool := any_suffix phone_at text.

Definition has_linkedin (text : string) : bool :=
  includes (toLowerCase text) "linkedin.com".

(** [19] or [20], then two digits. *)
Definition year_at (t : string) : bool :=
  literal_then "19" (digits_then 2 stop) t || literal_then "20" (digits_then 2 stop) t.

Definition has_year (text : string) : bool := any_suffix year_at text.

(** One of [keywords] occurs in the text, in any letter case. *)
Definition has_degree (keywords : list string) (text : string) : bool :=
  existsb (fun keyword => includes (toLowerCase text) keyword) keywords.

Definition signals (keywords : list string) (text : string) : list bool :=
  [has_at text; has_phone text; has_linkedin text; has_year text; has_degree keywords text].

Definition count_true (l : list bool) : nat := List.length (filter (fun b : bool => b) l).

(** [min(count_true / 5 + 0.2, 1.0)] over the five signals. *)
Definition confidence (keywords : list string) (text : string) : float :=
  Math_min (of_length (count_true (signals keywords text)) / 5 + 0.2)%float 1%float.

Lemma accuracy_checks_signals text :
  accuracy_checks text = signals ["bachelor"; "master"; "phd"] text.
Proof.
  unfold accuracy_checks, signals. repeat f_equal.
  - apply test_any_suffix. intros prev t.
    rewrite matches_accepts by reflexivity. reflexivity.
  - unfold has_linkedin. rewrite includes_lower_any_suffix.
    apply test_any_suffix. intros prev t. apply matches_lit_i. reflexivity.
  - apply test_any_suffix. intros prev t.
    rewrite matches_accepts by reflexivity. reflexivity.
  - apply (test_keywords_i ["bachelor"; "master"; "phd"]). reflexivity.
Qed.

Lemma extractSkills_names text :
  map Skill.name (extractSkills text)
  = filter (fun skill => includes (toLowerCase text) (toLowerCase skill))
      (TECHNICAL_SKILLS ++ SOFT_SKILLS).
Proof.
  unfold extractSkills. cbv zeta. cbn [app].
  rewrite map_app, !map_map, filter_app. cbn [Skill.name].
  rewrite !map_id. reflexivity.
Qed.

End ParserFacts.

(** ** Facts about year tokens *)

Module YearFacts.

Import JSString Regex RegexFacts JSNumber NumberFacts Parser.
Local Open Scope string_scope.
Local Open Scope list_scope.

Definition is_empty (t : string) : bool :=
  match t with
  | EmptyString => true
  | _ => false
  end.

(** A year token: [19] or [20], then two digits, and nothing more. *)
Definition year_token (m : string) : bool :=
  literal_then "19" (digits_then 2 is_empty) m
  || literal_then "20" (digits_then 2 is_empty) m.

Lemma run_chr p st0 st :
  In st (run (Chr p) st0) ->
  exists c t, snd st0 = String c t /\ p c = true /\ st = (Some c, t).
Proof.
  simpl. destruct (snd st0) as [|c t]; [intros []|].
  destruct (p c) eqn:P; [|intros []].
  intros [<-|[]]. exists c, t. auto.
Qed.

Lemma run_seq r1 r2 st0 st :
  In st (run (Seq r1 r2) st0) ->
  exists st1, In st1 (run r1 st0) /\ In st (run r2 st1).
Proof. simpl. intros H. apply in_flat_map in H. exact H. Qed.

Lemma run_alt r1 r2 st0 st :
  In st (run (Alt r1 r2) st0) -> In st (run r1 st0) \/ In st (run r2 st0).
Proof. simpl. apply in_app_or. Qed.

Lemma run_wordb st0 st : In st (run WordB st0) -> st = st0.
Proof.
  simpl. destruct (xorb _ _); [|intros []]. intros [<-|[]]. reflexivity.
Qed.

Lemma run_two p q st0 st :
  In st (run (Seq (Chr p) (Chr q)) st0) ->
  exists c1 c2 t,
    snd st0 = String c1 (String c2 t) /\ p c1 = true /\ q c2 = true
    /\ st = (Some c2, t).
Proof.
  intros H. apply run_seq in H. destruct H as (st1 & H1 & H2).
  apply run_chr in H1. destruct H1 as (c1 & t1 & E1 & P1 & ->).
  apply run_chr in H2. destruct H2 as (c2 & t2 & E2 & P2 & ->).
  simpl in E2. subst t1. exists c1, c2, t2. auto.
Qed.

Lemma run_yearRegex prev s st :
  In st (run yearRegex (prev, s)) ->
  exists c1 c2 c3 c4 rest,
    s = String c1 (String c2 (String c3 (String c4 rest)))
    /\ st = (Some c4, rest)
    /\ year_token (String c1 (String c2 (String c3 (String c4 ""))))  = true.
Proof.
  unfold yearRegex. intros H.
  apply run_seq in H. destruct H as (st1 & H1 & H).
  apply run_wordb in H1. subst st1.
  apply run_seq in H. destruct H as (st2 & H2 & H).
  apply run_seq in H. destruct H as (st3 & H3 & H).
  apply run_wordb in H. subst st.
  apply run_two in H3. destruct H3 as (c3 & c4 & rest & E3 & D3 & D4 & ->).
  assert (Y : exists c1 c2,
             s = String c1 (String c2 (snd st2)) /\ st2 = (Some c2, snd st2)
             /\ ((Ascii.eqb "1" c1 = true /\ Ascii.eqb "9" c2 = true)
                 \/ (Ascii.eqb "2" c1 = true /\ Ascii.eqb "0" c2 = true))).
  { apply run_alt in H2. destruct H2 as [H2|H2];
      apply run_two in H2; destruct H2 as (c1 & c2 & t & E & P1 & P2 & ->);
      simpl in E; exists c1, c2; simpl; auto. }
  destruct Y as (c1 & c2 & -> & E2 & Y). rewrite E3.
  exists c1, c2, c3, c4, rest.
  split; [reflexivity|]. split; [reflexivity|].
  unfold year_token. cbn [literal_then digits_then is_empty].
  unfold digit in D3, D4. rewrite D3, D4.
  destruct Y as [[-> ->]|[-> ->]]; simpl; [reflexivity|apply orb_true_r].
Qed.

Lemma take_four c1 c2 c3 c4 rest :
  take (String.length (String c1 (String c2 (String c3 (String c4 rest))))
        - String.length rest)
    (String c1 (String c2 (String c3 (String c4 rest))))
  = String c1 (String c2 (String c3 (String c4 ""))).
Proof.
  change (String.length (String c1 (String c2 (String c3 (String c4 rest)))))
    with (4 + String.length rest)%nat.
  rewrite Nat.add_sub. reflexivity.
Qed.

(** Whatever the year pattern matches is a year token. *)
Lemma search_yearRegex s : forall prev b m a,
  search yearRegex prev s = Some (b, m, a) -> year_token m = true.
Proof.
  induction s as [|c s IH]; intros prev b m a; cbn [search].
  - destruct (run yearRegex (prev, "")) as [|[p rest] l] eqn:R; [discriminate|].
    pose proof (run_yearRegex prev "" (p, rest)) as H.
    rewrite R in H. destruct (H (or_introl eq_refl)) as (c1 & c2 & c3 & c4 & r & E & _).
    discriminate E.
  - destruct (run yearRegex (prev, String c s)) as [|[p rest] l] eqn:R.
    + destruct (search yearRegex (Some c) s) as [[[b' m'] a']|] eqn:S; [|discriminate].
      intros E. inversion E; subst. eapply IH. exact S.
    + pose proof (run_yearRegex prev (String c s) (p, rest)) as H.
      rewrite R in H.
      destruct (H (or_introl eq_refl)) as (c1 & c2 & c3 & c4 & r & E & Est & Y).
      inversion Est; subst p rest. rewrite E, take_four.
      intros E'. inversion E' as [[Eb Em Ea]]. exact Y.
      
Qed.

Lemma match_all_from_yearRegex fuel : forall prev s,
  Forall (fun m => year_token m = true) (match_all_from fuel yearRegex prev s).
Proof.
  induction fuel as [|fuel IH]; intros prev s; cbn [match_all_from].
  - constructor.
  - destruct (search yearRegex prev s) as [[[b m] a]|] eqn:S; [|constructor].
    constructor; [eapply search_yearRegex; exact S|].
    destruct m as [|c m]; [destruct a as [|c a]|]; try constructor; apply IH.
Qed.

Lemma match_all_yearRegex line tokens :
  match_all yearRegex line = Val tokens ->
  Forall (fun m => year_token m = true) tokens.
Proof.
  unfold match_all. intros H.
  pose proof (match_all_from_yearRegex (S (String.length line)) None line) as F.
  destruct (match_all_from (S (String.length line)) yearRegex None line);
    [discriminate|].
  inversion H; subst. exact F.
Qed.

(** *** The value of a year token *)

(** The number that is the integer [z] (exact below [2^53]). *)
Definition of_integer (z : Z) : float :=
  match z with
  | Z0 => 0%float
  | Zpos _ => of_uint63 (Uint63.of_Z z)
  | Zneg p => (- of_uint63 (Uint63.of_Z (Zpos p)))%float
  end.

Definition year_value (token : string) : Z := digits_value 0 token.

Lemma is_digit_value c :
  is_digit c = true -> (0 <= Z.of_N (code c - 48) <= 9)%Z.
Proof.
  unfold is_digit. intros H. apply andb_prop in H. destruct H as [H1 H2].
  apply N.leb_le in H1, H2. lia.
Qed.

Lemma year_token_value m :
  year_token m = true ->
  (1900 <= year_value m <= 2099)%Z
  /\ parseInt m = of_uint63 (Uint63.of_Z (year_value m)).
Proof.
  unfold year_token. intros H.
  destruct m as [|c1 [|c2 [|c3 [|c4 [|c5 m]]]]];
    cbn [literal_then digits_then is_empty] in H;
    rewrite ?andb_false_r in H; try discriminate H.
  rewrite !andb_true_r in H.
  assert (D : is_digit c3 = true /\ is_digit c4 = true
              /\ ((c1 = "1"%char /\ c2 = "9"%char) \/ (c1 = "2"%char /\ c2 = "0"%char))).
  { apply orb_prop in H. destruct H as [H|H];
      do 3 (apply andb_prop in H; destruct H as [? H]);
      repeat match goal with
             | E : Ascii.eqb _ _ = true |- _ => apply Ascii.eqb_eq in E
             end; subst; (split; [assumption|split; [assumption|]]);
      [left|right]; split; reflexivity. }
  destruct D as (D3 & D4 & D).
  pose proof (is_digit_value c3 D3) as V3. pose proof (is_digit_value c4 D4) as V4.
  unfold parseInt, year_value.
  destruct D as [[-> ->]|[-> ->]];
    change (is_digit "1") with true; change (is_digit "2") with true;
    cbn [digits_value];
    change (is_digit "1") with true; change (is_digit "9") with true;
    change (is_digit "2") with true; change (is_digit "0") with true;
    cbv iota; rewrite D3, D4;
    change (code "1") with 49%N; change (code "9") with 57%N;
    change (code "2") with 50%N; change (code "0") with 48%N;
    (split; [lia|reflexivity]).
Qed.

Definition years : list Z := Eval vm_compute in map (fun k => (1900 + Z.of_nat k)%Z) (seq 0 200).

Lemma years_complete z : (1900 <= z <= 2099)%Z -> In z years.
Proof.
  intros H.
  assert (E : map (fun k => (1900 + Z.of_nat k)%Z) (seq 0 200) = years)
    by (vm_compute; reflexivity).
  rewrite <- E. replace z with (1900 + Z.of_nat (Z.to_nat (z - 1900)))%Z by lia.
  apply (in_map (fun k => (1900 + Z.of_nat k)%Z)), in_seq. lia.
Qed.

(** Between two years, the arithmetic of [calculateMonths] is exact. *)
Definition months_check : bool :=
  forallb (fun s => forallb (fun e =>
    PrimFloat.Leibniz.eqb
      ((of_uint63 (Uint63.of_Z e) - of_uint63 (Uint63.of_Z s)) * 12)%float
      (of_integer ((e - s) * 12))) years) years.

Lemma months_check_true : months_check = true.
Proof. vm_compute. reflexivity. Qed.

Lemma calculateMonths_years startYear endYear :
  year_token startYear = true -> year_token endYear = true ->
  calculateMonths startYear endYear
  = of_integer ((year_value endYear - year_value startYear) * 12).
Proof.
  intros Hs He.
  destruct (year_token_value startYear Hs) as [Rs Ps].
  destruct (year_token_value endYear He) as [Re Pe].
  unfold calculateMonths. rewrite Ps, Pe.
  pose proof months_check_true as C. unfold months_check in C.
  rewrite forallb_forall in C. specialize (C _ (years_complete _ Rs)).
  rewrite forallb_forall in C. specialize (C _ (years_complete _ Re)).
  apply FloatAxioms.Leibniz.eqb_spec in C. exact C.
Qed.

End YearFacts.

(** ** Facts about the year tokens of a line *)

Module TokenFacts.

Import JSString Regex RegexFacts Parser YearFacts.
Local Open Scope string_scope.
Local Open Scope list_scope.

(** A letter, a digit or [_] stands before the place. *)
Definition word_before (prev : option ascii) : bool :=
  match prev with
  | Some c => is_word c
  | None => false
  end.

(** A letter, a digit or [_] stands at the head of the text. *)
Definition word_ahead (s : string) : bool :=
  match s with
  | String c _ => is_word c
  | EmptyString => false
  end.

(** A year token stands at the head of [s]: [19] or [20] and two digits,
    with no letter, digit or [_] before it and none behind it. *)
Definition year_here (prev : option ascii) (s : string) : bool :=
  match s with
  | String c1 (String c2 (String c3 (String c4 rest))) =>
      negb (word_before prev)
      && (Ascii.eqb c1 "1" && Ascii.eqb c2 "9" || Ascii.eqb c1 "2" && Ascii.eqb c2 "0")
      && is_digit c3 && is_digit c4
      && negb (word_ahead rest)
  | _ => false
  end.

(** The year tokens of a text, from left to right; [prev] is the
    character before the text. *)
Fixpoint year_tokens_from (prev : option ascii) (s : string) : list string :=
  match s with
  | EmptyString => []
  | String c s' =>
      if year_here prev s then substring 0 4 s :: year_tokens_from (Some c) s'
      else year_tokens_from (Some c) s'
  end.

Definition year_tokens (line : string) : list string := year_tokens_from None line.

Lemma digit_word c : is_digit c = true -> is_word c = true.
Proof.
  unfold is_word. intros ->. rewrite orb_true_r. reflexivity.
Qed.

Lemma run_Seq r1 r2 st : run (Seq r1 r2) st = flat_map (run r2) (run r1 st).
Proof. reflexivity. Qed.

Lemma run_Alt r1 r2 st : run (Alt r1 r2) st = run r1 st ++ run r2 st.
Proof. reflexivity. Qed.

Lemma run_Chr_cons p prev c s :
  run (Chr p) (prev, String c s) = if p c then [(Some c, s)] else [].
Proof. reflexivity. Qed.

Lemma run_WordB prev s :
  run WordB (prev, s)
  = if xorb (word_before prev) (word_ahead s) then [(prev, s)] else [].
Proof. destruct prev, s; reflexivity. Qed.

Lemma run_lit2 a b prev c1 c2 s :
  run (lit (String a (String b ""))) (prev, String c1 (String c2 s))
  = if Ascii.eqb a c1 && Ascii.eqb b c2 then [(Some c2, s)] else [].
Proof.
  change (lit (String a (String b ""))) with (Seq (chr a) (chr b)).
  unfold chr. rewrite run_Seq, run_Chr_cons.
  destruct (Ascii.eqb a c1); [|reflexivity].
  cbn [flat_map andb]. rewrite app_nil_r, run_Chr_cons. reflexivity.
Qed.

Lemma run_digits2 prev c3 c4 s :
  run (rep 2 digit) (prev, String c3 (String c4 s))
  = if is_digit c3 && is_digit c4 then [(Some c4, s)] else [].
Proof.
  change (rep 2 digit) with (Seq digit digit).
  unfold digit. rewrite run_Seq, run_Chr_cons.
  destruct (is_digit c3); [|reflexivity].
  cbn [flat_map andb]. rewrite app_nil_r, run_Chr_cons. reflexivity.
Qed.

(** The digits and the word boundary behind them. *)
Lemma run_year_tail c2 c3 c4 rest :
  run (Seq (rep 2 digit) WordB) (Some c2, String c3 (String c4 rest))
  = if is_digit c3 && is_digit c4 && negb (word_ahead rest)
    then [(Some c4, rest)] else [].
Proof.
  rewrite run_Seq, run_digits2.
  destruct (is_digit c3); [|reflexivity].
  destruct (is_digit c4) eqn:D4; [|reflexivity].
  cbn [andb flat_map]. rewrite app_nil_r, run_WordB.
  cbn [word_before]. rewrite (digit_word c4 D4).
  destruct (word_ahead rest); reflexivity.
Qed.

(** Where the year pattern matches, it matches in one way: the four
    characters of a year token. *)
Lemma run_yearRegex_four prev c1 c2 c3 c4 rest :
  run yearRegex (prev, String c1 (String c2 (String c3 (String c4 rest))))
  = if year_here prev (String c1 (String c2 (String c3 (String c4 rest))))
    then [(Some c4, rest)] else [].
Proof.
  unfold yearRegex, year_here.
  rewrite run_Seq, run_WordB. cbn [word_ahead].
  rewrite (Ascii.eqb_sym c1 "1"), (Ascii.eqb_sym c2 "9"),
    (Ascii.eqb_sym c1 "2"), (Ascii.eqb_sym c2 "0").
  destruct (Ascii.eqb_spec "1" c1) as [<-|N1];
    [|destruct (Ascii.eqb_spec "2" c1) as [<-|N2]].
  - change (is_word "1") with true.
    destruct (word_before prev); cbn [xorb negb andb orb flat_map]; [reflexivity|].
    rewrite app_nil_r, run_Seq, run_Alt, !run_lit2.
    change (Ascii.eqb "1" "1") with true. change (Ascii.eqb "2" "1") with false.
    cbn [andb orb]. rewrite app_nil_r.
    destruct (Ascii.eqb "9" c2); cbn [flat_map]; [|reflexivity].
    rewrite app_nil_r, run_year_tail.
    cbn [andb orb negb]. reflexivity.
  - change (is_word "2") with true.
    destruct (word_before prev); cbn [xorb negb andb orb flat_map]; [reflexivity|].
    rewrite app_nil_r, run_Seq, run_Alt, !run_lit2.
    change (Ascii.eqb "1" "2") with false. change (Ascii.eqb "2" "2") with true.
    cbn [andb orb app].
    destruct (Ascii.eqb "0" c2); cbn [flat_map]; [|reflexivity].
    rewrite app_nil_r, run_year_tail.
    cbn [andb orb negb]. reflexivity.
  - cbn [andb orb]. rewrite andb_false_r. cbn [andb].
    destruct (xorb _ _); [|reflexivity].
    cbn [flat_map]. rewrite app_nil_r, run_Seq, run_Alt, !run_lit2.
    rewrite (proj2 (Ascii.eqb_neq _ _) N1), (proj2 (Ascii.eqb_neq _ _) N2).
    reflexivity.
Qed.

Lemma run_yearRegex_short prev s :
  (String.length s < 4)%nat -> run yearRegex (prev, s) = [].
Proof.
  intros L. destruct (run yearRegex (prev, s)) as [|st l] eqn:R; [reflexivity|].
  pose proof (run_yearRegex prev s st) as Y. rewrite R in Y.
  destruct (Y (or_introl eq_refl)) as (c1 & c2 & c3 & c4 & rest & E & _).
  subst s. cbn [String.length] in L. lia.
Qed.

Lemma run_yearRegex_none prev s :
  year_here prev s = false -> run yearRegex (prev, s) = [].
Proof.
  intros H.
  destruct s as [|c1 [|c2 [|c3 [|c4 rest]]]];
    try (apply run_yearRegex_short; cbn [String.length]; lia).
  rewrite run_yearRegex_four, H. reflexivity.
Qed.

Lemma year_here_four prev s :
  year_here prev s = true ->
  exists c1 c2 c3 c4 rest,
    s = String c1 (String c2 (String c3 (String c4 rest)))
    /\ is_digit c1 = true /\ is_digit c2 = true /\ is_digit c3 = true
    /\ is_digit c4 = true /\ word_ahead rest = false.
Proof.
  destruct s as [|c1 [|c2 [|c3 [|c4 rest]]]]; try discriminate.
  cbn [year_here]. intros H.
  apply andb_prop in H. destruct H as [H Wa].
  apply andb_prop in H. destruct H as [H D4].
  apply andb_prop in H. destruct H as [H D3].
  apply andb_prop in H. destruct H as [_ H].
  exists c1, c2, c3, c4, rest. split; [reflexivity|].
  apply negb_true_iff in Wa.
  assert (D : is_digit c1 = true /\ is_digit c2 = true).
  { apply orb_prop in H. destruct H as [H|H]; apply andb_prop in H;
      destruct H as [E1 E2]; apply Ascii.eqb_eq in E1, E2; subst; split; reflexivity. }
  destruct D. auto.
Qed.

(** No year token starts just behind a digit. *)
Lemma year_here_behind_digit c s :
  is_digit c = true -> year_here (Some c) s = false.
Proof.
  intros D. destruct s as [|c1 [|c2 [|c3 [|c4 rest]]]]; try reflexivity.
  cbn [year_here word_before]. rewrite (digit_word c D). reflexivity.
Qed.

(** Behind a year token, the next one starts behind its four characters
    at the earliest. *)
Lemma year_tokens_skip c1 c2 c3 c4 rest :
  is_digit c1 = true -> is_digit c2 = true -> is_digit c3 = true ->
  year_tokens_from (Some c1) (String c2 (String c3 (String c4 rest)))
  = year_tokens_from (Some c4) rest.
Proof.
  intros D1 D2 D3.
  cbn [year_tokens_from].
  rewrite !year_here_behind_digit by assumption. reflexivity.
Qed.

Lemma year_tokens_from_cons prev c s :
  year_tokens_from prev (String c s)
  = if year_here prev (String c s)
    then substring 0 4 (String c s) :: year_tokens_from (Some c) s
    else year_tokens_from (Some c) s.
Proof. reflexivity. Qed.

Lemma substring_none s : substring 0 0 s = "".
Proof. destruct s; reflexivity. Qed.

(** The leftmost match of the year pattern is the first year token, and
    the tokens behind it are those of the text behind it. *)
Lemma search_yearRegex_tokens s : forall prev,
  match search yearRegex prev s with
  | None => year_tokens_from prev s = []
  | Some (b, m, a) =>
      year_tokens_from prev s
      = m :: year_tokens_from (last_char prev (b ++ m)%string) a
      /\ m <> "" /\ (String.length a < String.length s)%nat
  end.
Proof.
  induction s as [|c s IH]; intros prev.
  - cbn [search]. rewrite run_yearRegex_none by reflexivity. reflexivity.
  - cbn [search]. destruct (year_here prev (String c s)) eqn:H.
    + destruct (year_here_four _ _ H) as (c1 & c2 & c3 & c4 & rest & E & D1 & D2 & D3 & D4 & Wa).
      injection E as -> ->. rewrite run_yearRegex_four, H.
      rewrite take_four, year_tokens_from_cons, H.
      rewrite (year_tokens_skip c1 c2 c3 c4 rest D1 D2 D3).
      cbn [substring append last_char String.length]. rewrite substring_none.
      split; [reflexivity|split; [discriminate|lia]].
    + rewrite (run_yearRegex_none _ _ H).
      rewrite year_tokens_from_cons, H.
      specialize (IH (Some c)).
      destruct (search yearRegex (Some c) s) as [[[b m] a]|]; [|exact IH].
      destruct IH as (T & N & L). cbn [append last_char String.length].
      split; [exact T|split; [exact N|lia]].
Qed.

Lemma match_all_from_tokens fuel : forall prev s,
  (String.length s < fuel)%nat ->
  match_all_from fuel yearRegex prev s = year_tokens_from prev s.
Proof.
  induction fuel as [|fuel IH]; intros prev s L; [lia|].
  cbn [match_all_from].
  pose proof (search_yearRegex_tokens s prev) as S.
  destruct (search yearRegex prev s) as [[[b m] a]|]; [|symmetry; exact S].
  destruct S as (T & N & La). rewrite T.
  destruct m as [|x m]; [contradiction N; reflexivity|].
  f_equal. apply IH. lia.
Qed.

(** What [line.match(yearRegex)] gives: the year tokens of the line, or
    [null] when it has none. *)
Lemma match_all_year_tokens line :
  match_all yearRegex line
  = match year_tokens line with
    | [] => Null
    | tokens => Val tokens
    end.
Proof.
  unfold match_all, year_tokens.
  rewrite match_all_from_tokens by lia. reflexivity.
Qed.

End TokenFacts.

(** ** Facts about lists *)

Module ListFacts.

Local Open Scope list_scope.

Fixpoint nodupb (l : list string) : bool :=
  match l with
  | [] => true
  | x :: xs => negb (existsb (String.eqb x) xs) && nodupb xs
  end.

Lemma nodupb_NoDup l : nodupb l = true -> NoDup l.
Proof.
  induction l as [|x xs IH]; simpl; intros H; constructor;
    apply andb_prop in H; destruct H as [H1 H2].
  - intros Hin. apply negb_true_iff in H1.
    assert (existsb (String.eqb x) xs = true); [|congruence].
    apply existsb_exists. exists x. split; [exact Hin|apply String.eqb_refl].
  - apply IH, H2.
Qed.

Lemma NoDup_map_filter {A B} (f : A -> B) (p : A -> bool) l :
  NoDup (map f l) -> NoDup (map f (filter p l)).
Proof.
  induction l as [|x xs IH]; simpl; intros H; [constructor|].
  inversion H as [|? ? Hx Hxs]; subst.
  destruct (p x); simpl; [constructor|]; auto.
  intros Hin. apply Hx. apply in_map_iff in Hin.
  destruct Hin as (y & E & Hy). apply filter_In in Hy.
  apply in_map_iff. exists y. tauto.
Qed.

Lemma In_firstn {A} n : forall (l : list A) x, In x (firstn n l) -> In x l.
Proof.
  induction n as [|n IH]; intros l x H; [contradiction|].
  destruct l as [|y ys]; [contradiction|].
  destruct H as [H|H]; [left; exact H|right; apply IH, H].
Qed.

Lemma NoDup_firstn {A} n : forall l : list A, NoDup l -> NoDup (firstn n l).
Proof.
  induction n as [|n IH]; intros l H; [constructor|].
  destruct l as [|x xs]; [constructor|].
  inversion H; subst. simpl. constructor; auto.
  intros Hin. apply In_firstn in Hin. contradiction.
Qed.

Lemma filter_none {A} (p : A -> bool) l :
  (forall x, In x l -> p x = false) -> filter p l = [].
Proof.
  induction l as [|x xs IH]; intros H; simpl; [reflexivity|].
  rewrite (H x (or_introl eq_refl)). apply IH.
  intros y Hy. apply H. right. exact Hy.
Qed.

Lemma existsb_none {A} (p : A -> bool) l :
  (forall x, In x l -> p x = false) -> existsb p l = false.
Proof.
  induction l as [|x xs IH]; intros H; simpl; [reflexivity|].
  rewrite (H x (or_introl eq_refl)). apply IH.
  intros y Hy. apply H. right. exact Hy.
Qed.

Lemma last_In {A} (l : list A) (d : A) : l <> [] -> In (last l d) l.
Proof.
  induction l as [|x l IH]; intros H; [contradiction|].
  destruct l as [|y l]; [left; reflexivity|].
  right. apply IH. discriminate.
Qed.

Lemma Forall2_firstn {A B} (R : A -> B -> Prop) n : forall l1 l2,
  Forall2 R l1 l2 -> Forall2 R (firstn n l1) (firstn n l2).
Proof.
  induction n as [|n IH]; intros l1 l2 H; [constructor|].
  destruct H; simpl; constructor; auto.
Qed.

End ListFacts.

(** ** Facts about the order of a ranking *)

Module RankingFacts.

Import JSNumber NumberFacts Matcher SortFacts MatcherFacts.
Local Open Scope float_scope.

Section Fixed.
Context {A : Type} (comparefn : A -> A -> float).

(** A list that is in order already is left as it is. *)
Lemma Array_sort_fixed (P : A -> Prop) (R : A -> A -> Prop) l :
  (forall x y, P x -> P y -> R x y -> (0 <? comparefn x y) = false) ->
  Forall P l -> StronglySorted R l -> Array_sort comparefn l = l.
Proof.
  intros H HP HS. induction HS as [|x xs HS IH Hx]; [reflexivity|].
  inversion HP as [|? ? Px Pxs]; subst.
  cbn [Array_sort]. rewrite (IH Pxs).
  destruct xs as [|y ys]; [reflexivity|].
  cbn [sort_insert].
  inversion Hx as [|? ? Rxy _]; subst. inversion Pxs as [|? ? Py _]; subst.
  rewrite (H x y Px Py Rxy). reflexivity.
Qed.
End Fixed.

(** On the grid, [v - u] is positive exactly when [v] is not at most
    [u]. *)
Definition grid_sign_check : bool :=
  forallb (fun u => forallb (fun v =>
    Bool.eqb (0 <? v - u) (negb (v <=? u))) grid_values) grid_values.

Lemma grid_sign_check_true : grid_sign_check = true.
Proof. vm_compute. reflexivity. Qed.

Lemma grid_sign u v :
  In u grid_values -> In v grid_values -> (0 <? v - u) = negb (v <=? u).
Proof.
  intros Hu Hv. pose proof grid_sign_check_true as C.
  unfold grid_sign_check in C. rewrite forallb_forall in C.
  specialize (C u Hu). rewrite forallb_forall in C.
  apply eqb_prop. exact (C v Hv).
Qed.

Lemma grid_refl u : In u grid_values -> (u <=? u) = true.
Proof.
  intros Hu. pose proof (grid_order u u Hu Hu) as G.
  destruct (0 <? u - u); exact G.
Qed.

(** The order in which the ranking leaves its elements. *)
Definition company_ge (a b : RankedCompany.t) : Prop :=
  (RankedCompany.match_score b <=? RankedCompany.match_score a) = true.

Definition profile_ge (a b : RankedProfile.t) : Prop :=
  (RankedProfile.match_score b <=? RankedProfile.match_score a) = true.

Definition company_on_grid (r : RankedCompany.t) : Prop :=
  In (RankedCompany.match_score r) grid_values.

Definition profile_on_grid (r : RankedProfile.t) : Prop :=
  In (RankedProfile.match_score r) grid_values.

Lemma company_order_sorted l :
  Forall company_on_grid l ->
  StronglySorted company_ge (Array_sort company_order l).
Proof.
  apply Array_sort_sorted.
  - intros x y Px Py C. pose proof (grid_order _ _ Px Py) as G.
    unfold company_order in C. rewrite C in G. exact G.
  - intros x y Px Py C. pose proof (grid_order _ _ Px Py) as G.
    unfold company_order in C. rewrite C in G. exact G.
  - intros x y z Px Py Pz. apply grid_trans; assumption.
Qed.

Lemma profile_order_sorted l :
  Forall profile_on_grid l ->
  StronglySorted profile_ge (Array_sort profile_order l).
Proof.
  apply Array_sort_sorted.
  - intros x y Px Py C. pose proof (grid_order _ _ Px Py) as G.
    unfold profile_order in C. rewrite C in G. exact G.
  - intros x y Px Py C. pose proof (grid_order _ _ Px Py) as G.
    unfold profile_order in C. rewrite C in G. exact G.
  - intros x y z Px Py Pz. apply grid_trans; assumption.
Qed.

Lemma rankedCompanies_on_grid cvData companies :
  Forall company_on_grid (map (rankedCompany cvData) companies).
Proof.
  apply Forall_forall. intros r Hr. apply in_map_iff in Hr.
  destruct Hr as (c & <- & _). apply rankedCompany_on_grid.
Qed.

Lemma rankedProfiles_on_grid cvData profiles :
  Forall profile_on_grid (map (rankedProfile cvData) profiles).
Proof.
  apply Forall_forall. intros r Hr. apply in_map_iff in Hr.
  destruct Hr as (c & <- & _). apply rankedProfile_on_grid.
Qed.

Lemma map_fixed {A} (f : A -> A) l :
  Forall (fun x => f x = x) l -> map f l = l.
Proof.
  induction 1 as [|x xs Hx _ IH]; [reflexivity|].
  simpl. rewrite Hx, IH. reflexivity.
Qed.

(** The record of a company, from the functions of the source. *)
Lemma rankedCompany_source cvData company :
  exists matchScore,
    calculateCompanyMatchScore company cvData = Ok matchScore
    /\ rankedCompany cvData company
       = {| RankedCompany.company := company;
            RankedCompany.match_score := round2 matchScore;
            RankedCompany.matching_criteria :=
              getCompanyMatchingCriteria company cvData |}.
Proof.
  eexists. split; [apply calculateCompanyMatchScore_terms|reflexivity].
Qed.

End RankingFacts.

(** ** Facts about candidates of equal score *)

Module TieFacts.
Import JSNumber NumberFacts Matcher SortFacts MatcherFacts RankingFacts.
Local Open Scope float_scope.

Section Stable.
Context {A : Type} (comparefn : A -> A -> float).
Variable P : A -> Prop.
Variable p : A -> bool.
Hypothesis tie : forall x y,
  P x -> P y -> p x = true -> p y = true -> (0 <? comparefn x y) = false.

Lemma sort_insert_ties x l :
  P x -> Forall P l ->
  filter p (sort_insert comparefn x l) = filter p (x :: l).
Proof.
  intros Px HP. induction HP as [|y ys Py HP IH]; [reflexivity|].
  cbn [sort_insert]. destruct (0 <? comparefn x y) eqn:C; [|reflexivity].
  cbn [filter] in *. rewrite IH.
  pose proof (tie x y Px Py) as T.
  destruct (p x), (p y); try reflexivity.
  rewrite (T eq_refl eq_refl) in C. discriminate C.
Qed.

Lemma Array_sort_ties l :
  Forall P l -> filter p (Array_sort comparefn l) = filter p l.
Proof.
  induction 1 as [|x xs Px HP IH]; [reflexivity|].
  cbn [Array_sort].
  rewrite sort_insert_ties by (try apply Array_sort_Forall; assumption).
  cbn [filter]. rewrite IH. reflexivity.
Qed.
End Stable.

Lemma filter_map {A B} (f : A -> B) (p : B -> bool) l :
  filter p (map f l) = map f (filter (fun x => p (f x)) l).
Proof.
  induction l as [|x xs IH]; [reflexivity|].
  simpl. destruct (p (f x)); simpl; rewrite IH; reflexivity.
Qed.

Lemma filter_nil_existsb {A} (p : A -> bool) l :
  filter p l = [] <-> existsb p l = false.
Proof.
  induction l as [|x xs IH]; simpl; [tauto|].
  destruct (p x); simpl; [|exact IH].
  split; discriminate.
Qed.

End TieFacts.

(** ** Facts about parts of a text *)

Module StringFacts.

Import JSString.
Local Open Scope string_scope.
Local Open Scope list_scope.

Lemma prefix_app a q : String.prefix a (a ++ q) = true.
Proof.
  induction a as [|c a IH]; simpl.
  - destruct q; reflexivity.
  - destruct (ascii_dec c c) as [_|N]; [exact IH|contradiction].
Qed.

Lemma prefix_split a : forall s,
  String.prefix a s = true -> exists q, s = (a ++ q)%string.
Proof.
  induction a as [|c a IH]; intros s H.
  - exists s. reflexivity.
  - destruct s as [|d s]; [discriminate H|]. simpl in H.
    destruct (ascii_dec c d) as [->|]; [|discriminate H].
    destruct (IH s H) as (q & ->). exists q. reflexivity.
Qed.

Lemma includes_split s : forall sub,
  includes s sub = true -> exists p q, s = (p ++ sub ++ q)%string.
Proof.
  induction s as [|c s IH]; intros sub H; cbn [includes] in H.
  - rewrite orb_false_r in H. destruct (prefix_split _ _ H) as (q & E).
    exists "", q. exact E.
  - apply orb_prop in H. destruct H as [H|H].
    + destruct (prefix_split _ _ H) as (q & E). exists "", q. exact E.
    + destruct (IH sub H) as (p & q & ->). exists (String c p), q. reflexivity.
Qed.

Lemma includes_app p : forall sub q, includes (p ++ sub ++ q) sub = true.
Proof.
  induction p as [|c p IH]; intros sub q.
  - cbn [append]. destruct (sub ++ q)%string eqn:E; cbn [includes];
      rewrite <- E, prefix_app; reflexivity.
  - cbn [append includes]. rewrite IH. apply orb_true_r.
Qed.

Lemma append_assoc (a b c : string) : ((a ++ b) ++ c = a ++ (b ++ c))%string.
Proof. induction a as [|x a IH]; simpl; [reflexivity|rewrite IH; reflexivity]. Qed.

Lemma append_empty_r (a : string) : (a ++ "")%string = a.
Proof. induction a as [|x a IH]; simpl; [reflexivity|rewrite IH; reflexivity]. Qed.

Lemma includes_app_l s t sub :
  includes s sub = true -> includes (s ++ t) sub = true.
Proof.
  intros H. apply includes_split in H. destruct H as (p & q & ->).
  rewrite !append_assoc. apply includes_app.
Qed.

Lemma includes_app_r s t sub :
  includes t sub = true -> includes (s ++ t) sub = true.
Proof.
  intros H. apply includes_split in H. destruct H as (p & q & ->).
  rewrite <- append_assoc. apply includes_app.
Qed.

Lemma includes_refl_app sub t : includes (sub ++ t) sub = true.
Proof. apply (includes_app "" sub t). Qed.

Lemma includes_trans s t u :
  includes s t = true -> includes t u = true -> includes s u = true.
Proof.
  intros H1 H2. apply includes_split in H1, H2.
  destruct H1 as (p & q & ->). destruct H2 as (p' & q' & ->).
  rewrite !append_assoc. rewrite <- (append_assoc p p').
  apply includes_app.
Qed.

(** The text before the first [sep]. *)
Fixpoint before (sep : ascii) (s : string) : string :=
  match s with
  | EmptyString => EmptyString
  | String c s' => if Ascii.eqb c sep then EmptyString else String c (before sep s')
  end.

Lemma split_hd sep s : hd EmptyString (split sep s) = before sep s.
Proof.
  induction s as [|c s IH]; [reflexivity|].
  cbn [split before]. destruct (Ascii.eqb c sep); [reflexivity|].
  destruct (split sep s) as [|w ws]; simpl in *; rewrite <- IH; reflexivity.
Qed.

End StringFacts.

(** ** Facts about the badges *)

Module PagesFacts.
Import JSNumber NumberFacts JSMath Pages.
Local Open Scope string_scope.
Local Open Scope float_scope.

(** The class of a score of [n] hundredths. *)
Definition class_of_percent (n : nat) : string :=
  if (80 <=? n)%nat then "excellent"
  else if (60 <=? n)%nat then "good"
  else if (40 <=? n)%nat then "fair"
  else "poor".

Definition badge_check : bool :=
  forallb (fun n =>
    PrimFloat.Leibniz.eqb (matchPercent (grid n)) (of_length n)
    && String.eqb (getScoreClass (grid n)) (class_of_percent n)) (seq 0 101).

Lemma badge_check_true : badge_check = true.
Proof. vm_compute. reflexivity. Qed.

Lemma badge_on_grid v :
  In v grid_values ->
  exists n, (n <= 100)%nat /\ v = grid n
            /\ matchPercent v = of_length n
            /\ getScoreClass v = class_of_percent n.
Proof.
  intros H. rewrite <- grid_values_eq in H. apply in_map_iff in H.
  destruct H as (n & <- & Hn). apply in_seq in Hn.
  pose proof badge_check_true as C. unfold badge_check in C.
  rewrite forallb_forall in C. specialize (C n).
  rewrite in_seq in C. specialize (C Hn).
  apply andb_prop in C. destruct C as [C1 C2].
  apply FloatAxioms.Leibniz.eqb_spec in C1. apply String.eqb_eq in C2.
  exists n. repeat split; [lia|assumption|assumption].
Qed.

End PagesFacts.

(** ** What a pattern matches *)

Module MatchFacts.

Import JSString Regex RegexFacts StringFacts.
Local Open Scope string_scope.
Local Open Scope list_scope.

(** [derives r w]: the pattern [r] can match the text [w] (a [\b] matches
    the empty text, whatever stands around it). *)
Inductive derives : regex -> string -> Prop :=
| derives_eps : derives Eps ""
| derives_chr p c : p c = true -> derives (Chr p) (String c "")
| derives_seq r1 r2 w1 w2 :
    derives r1 w1 -> derives r2 w2 -> derives (Seq r1 r2) (w1 ++ w2)
| derives_alt_l r1 r2 w : derives r1 w -> derives (Alt r1 r2) w
| derives_alt_r r1 r2 w : derives r2 w -> derives (Alt r1 r2) w
| derives_star_nil r : derives (Star r) ""
| derives_star_cons r w1 w2 :
    derives r w1 -> derives (Star r) w2 -> derives (Star r) (w1 ++ w2)
| derives_wordb : derives WordB "".

(** The loop of [run] on a [Star]. *)
Fixpoint star_loop (step : state -> list state) (fuel : nat) (st : state)
  : list state :=
  match fuel with
  | O => [st]
  | S fuel' =>
      flat_map
        (fun st' =>
           if (String.length (snd st') <? String.length (snd st))%nat
           then star_loop step fuel' st' else [])
        (step st) ++ [st]
  end.

Lemma run_star r st :
  run (Star r) st = star_loop (run r) (String.length (snd st)) st.
Proof.
  cbn [run]. generalize (String.length (snd st)) as fuel. intros fuel.
  revert st. induction fuel as [|fuel IH]; intros st; [reflexivity|].
  cbn [star_loop]. f_equal. apply flat_map_ext. intros st'.
  destruct (String.length (snd st') <? String.length (snd st))%nat;
    [apply IH|reflexivity].
Qed.

Lemma last_char_app w1 : forall prev w2,
  last_char (last_char prev w1) w2 = last_char prev (w1 ++ w2).
Proof.
  induction w1 as [|c w1 IH]; intros prev w2; [reflexivity|].
  simpl. apply IH.
Qed.

(** A state [run] reaches: the text consumed, which the pattern derives,
    stands before the text that is left. *)
Definition reached (r : regex) (prev : option ascii) (s : string) (st : state)
  : Prop :=
  exists w, s = (w ++ snd st)%string /\ derives r w /\ fst st = last_char prev w.

Lemma star_loop_sound r :
  (forall prev s st, In st (run r (prev, s)) -> reached r prev s st) ->
  forall fuel prev s st,
    In st (star_loop (run r) fuel (prev, s)) -> reached (Star r) prev s st.
Proof.
  intros IH. induction fuel as [|fuel IHf]; intros prev s st H; cbn [star_loop] in H.
  - destruct H as [<-|[]]. exists "". repeat split. constructor.
  - apply in_app_or in H. destruct H as [H|[<-|[]]].
    + apply in_flat_map in H. destruct H as ([p1 s1] & H1 & H).
      destruct (String.length (snd (p1, s1)) <? String.length (snd (prev, s)))%nat;
        [|destruct H].
      apply IH in H1. destruct H1 as (w1 & E1 & D1 & L1).
      apply IHf in H. destruct H as (w2 & E2 & D2 & L2).
      simpl in *. subst.
      exists (w1 ++ w2)%string.
      split; [symmetry; apply append_assoc|].
      split; [constructor; assumption|].
      rewrite <- last_char_app. exact L2.
    + exists "". repeat split. constructor.
Qed.

Lemma run_sound r : forall prev s st,
  In st (run r (prev, s)) -> reached r prev s st.
Proof.
  induction r as [|p|r1 IH1 r2 IH2|r1 IH1 r2 IH2|r IH|]; intros prev s st H.
  - destruct H as [<-|[]]. exists "". repeat split. constructor.
  - simpl in H. destruct s as [|c s]; [destruct H|].
    destruct (p c) eqn:P; [|destruct H]. destruct H as [<-|[]].
    exists (String c ""). repeat split. constructor. exact P.
  - cbn [run] in H. apply in_flat_map in H. destruct H as ([p1 s1] & H1 & H).
    apply IH1 in H1. destruct H1 as (w1 & E1 & D1 & L1).
    apply IH2 in H. destruct H as (w2 & E2 & D2 & L2).
    simpl in *. subst.
    exists (w1 ++ w2)%string.
    split; [symmetry; apply append_assoc|].
    split; [constructor; assumption|].
    rewrite <- last_char_app. exact L2.
  - cbn [run] in H. apply in_app_or in H. destruct H as [H|H].
    + apply IH1 in H. destruct H as (w & E & D & L).
      exists w. repeat split; try assumption. apply derives_alt_l, D.
    + apply IH2 in H. destruct H as (w & E & D & L).
      exists w. repeat split; try assumption. apply derives_alt_r, D.
  - rewrite run_star in H. eapply star_loop_sound; eassumption.
  - simpl in H. destruct (xorb _ _); [|destruct H]. destruct H as [<-|[]].
    exists "". repeat split. constructor.
Qed.

Lemma take_app w rest :
  take (String.length (w ++ rest) - String.length rest) (w ++ rest) = w.
Proof.
  assert (L : forall a b : string,
             String.length (a ++ b) = (String.length a + String.length b)%nat).
  { intros a b. induction a as [|c a IH]; simpl; [reflexivity|]. rewrite IH. reflexivity. }
  rewrite L, Nat.add_sub.
  induction w as [|c w IH]; simpl; [destruct rest; reflexivity|].
  rewrite IH. reflexivity.
Qed.

Lemma run_head_sound r prev s p rest l :
  run r (prev, s) = (p, rest) :: l ->
  s = (take (String.length s - String.length rest) s ++ rest)%string
  /\ derives r (take (String.length s - String.length rest) s).
Proof.
  intros R.
  destruct (run_sound r prev s (p, rest)) as (w & E & D & _);
    [rewrite R; left; reflexivity|].
  simpl in E. subst s. rewrite take_app. split; [reflexivity|exact D].
Qed.

(** What [search] reports: the text is the part before the match, the
    match and the part after it, and the pattern derives the match. *)
Lemma search_sound r s : forall prev b m a,
  search r prev s = Some (b, m, a) ->
  s = (b ++ m ++ a)%string /\ derives r m.
Proof.
  induction s as [|c s IH]; intros prev b m a; cbn [search].
  - destruct (run r (prev, "")) as [|[p rest] l] eqn:R; [discriminate|].
    intros E. injection E as <- <- <-.
    apply (run_head_sound _ _ _ _ _ _ R).
  - destruct (run r (prev, String c s)) as [|[p rest] l] eqn:R.
    + destruct (search r (Some c) s) as [[[b' m'] a']|] eqn:S; [|discriminate].
      intros E. injection E as <- <- <-.
      destruct (IH _ _ _ _ S) as [E D]. split; [|exact D].
      simpl. rewrite <- E. reflexivity.
    + intros E. injection E as <- <- <-.
      apply (run_head_sound _ _ _ _ _ _ R).
Qed.

Lemma match_first_sound r s m :
  match_first r s = Val m ->
  (exists b a, s = (b ++ m ++ a)%string) /\ derives r m.
Proof.
  unfold match_first.
  destruct (search r None s) as [[[b m'] a]|] eqn:S; [|discriminate].
  intros E. inversion E; subst.
  destruct (search_sound _ _ _ _ _ _ S) as [E' D].
  split; [exists b, a; exact E'|exact D].
Qed.

(** *** The shape of what is derived *)

(** Every character of [s] satisfies [p]. *)
Fixpoint all (p : ascii -> bool) (s : string) : bool :=
  match s with
  | EmptyString => true
  | String c s' => p c && all p s'
  end.

Lemma all_app p a b : all p (a ++ b) = all p a && all p b.
Proof.
  induction a as [|c a IH]; simpl; [reflexivity|].
  rewrite IH. apply andb_assoc.
Qed.

Lemma all_impl (p q : ascii -> bool) s :
  (forall c, p c = true -> q c = true) -> all p s = true -> all q s = true.
Proof.
  intros H. induction s as [|c s IH]; simpl; [reflexivity|].
  intros A. apply andb_prop in A. destruct A as [A1 A2].
  rewrite (H c A1), (IH A2). reflexivity.
Qed.

Lemma derives_chr_inv p w :
  derives (Chr p) w -> exists c, w = String c "" /\ p c = true.
Proof. intros D. inversion D; subst. eauto. Qed.

Lemma derives_seq_inv r1 r2 w :
  derives (Seq r1 r2) w ->
  exists w1 w2, w = (w1 ++ w2)%string /\ derives r1 w1 /\ derives r2 w2.
Proof. intros D. inversion D; subst. eauto. Qed.

Lemma derives_eps_inv w : derives Eps w -> w = "".
Proof. intros D. inversion D; subst. reflexivity. Qed.

Lemma derives_wordb_inv w : derives WordB w -> w = "".
Proof. intros D. inversion D; subst. reflexivity. Qed.

Lemma derives_star_chr p w : derives (Star (Chr p)) w -> all p w = true.
Proof.
  intros D. remember (Star (Chr p)) as r eqn:E.
  induction D as [| | | | | |r w1 w2 D1 _ D2 IH2|]; try discriminate E.
  - reflexivity.
  - inversion E; subst. apply derives_chr_inv in D1.
    destruct D1 as (c & -> & P). simpl. rewrite P. apply IH2. reflexivity.
Qed.

(** [p+]: one character or more, all of the class. *)
Lemma derives_plus_chr p w :
  derives (plus (Chr p)) w ->
  exists c w', w = String c w' /\ p c = true /\ all p w' = true.
Proof.
  intros D. apply derives_seq_inv in D. destruct D as (w1 & w2 & -> & D1 & D2).
  apply derives_chr_inv in D1. destruct D1 as (c & -> & P).
  apply derives_star_chr in D2. exists c, w2. auto.
Qed.

End MatchFacts.

(** ** Facts about lines *)

Module LineFacts.

Import JSString Regex RegexFacts StringFacts MatchFacts.
Local Open Scope string_scope.
Local Open Scope list_scope.

(** No character of [s] is [c]. *)
Definition lacks (c : ascii) (s : string) : bool :=
  all (fun x => negb (Ascii.eqb x c)) s.

Lemma split_not_nil sep s : split sep s <> [].
Proof.
  destruct s as [|c s]; simpl; [discriminate|].
  destruct (Ascii.eqb c sep); [discriminate|].
  destruct (split sep s); discriminate.
Qed.

Lemma join_cons_char sep c w ws :
  join sep (String c w :: ws) = String c (join sep (w :: ws)).
Proof. destruct ws; reflexivity. Qed.

(** Joining the pieces with the separator gives the text back. *)
Lemma split_join sep s : join (String sep "") (split sep s) = s.
Proof.
  induction s as [|c s IH]; [reflexivity|].
  cbn [split]. pose proof (split_not_nil sep s) as NN.
  destruct (split sep s) as [|w ws]; [contradiction|].
  destruct (Ascii.eqb_spec c sep) as [->|N].
  - change (join (String sep "") ("" :: w :: ws))
      with (String sep (join (String sep "") (w :: ws))).
    rewrite IH. reflexivity.
  - rewrite join_cons_char, IH. reflexivity.
Qed.

Lemma join_In sep l : forall ls,
  In l ls -> exists p q, join sep ls = (p ++ l ++ q)%string.
Proof.
  induction ls as [|x xs IH]; intros H; [destruct H|].
  destruct H as [->|H].
  - destruct xs as [|y ys].
    + exists "", "". simpl. symmetry. apply append_empty_r.
    + exists "", (sep ++ join sep (y :: ys))%string. reflexivity.
  - destruct (IH H) as (p & q & E).
    destruct xs as [|y ys]; [destruct H|].
    exists (x ++ sep ++ p)%string, q.
    change (join sep (x :: y :: ys)) with (x ++ sep ++ join sep (y :: ys))%string.
    rewrite E, !append_assoc. reflexivity.
Qed.

(** A line is a part of the text. *)
Lemma split_In sep s l :
  In l (split sep s) -> exists p q, s = (p ++ l ++ q)%string.
Proof.
  intros H. destruct (join_In (String sep "") l _ H) as (p & q & E).
  rewrite split_join in E. exists p, q. exact E.
Qed.

Lemma split_lacks sep s : Forall (fun l => lacks sep l = true) (split sep s).
Proof.
  induction s as [|c s IH]; cbn [split].
  - constructor; [reflexivity|constructor].
  - destruct (Ascii.eqb c sep) eqn:E.
    + constructor; [reflexivity|exact IH].
    + destruct (split sep s) as [|w ws].
      * constructor; [|constructor]. unfold lacks. simpl. rewrite E. reflexivity.
      * inversion IH; subst. constructor; [|assumption].
        unfold lacks in *. simpl. rewrite E. assumption.
Qed.

Lemma split_head sep s : In (before sep s) (split sep s).
Proof.
  rewrite <- split_hd. pose proof (split_not_nil sep s).
  destruct (split sep s); [contradiction|left; reflexivity].
Qed.

Lemma lower_char_LF c : Ascii.eqb (lower_char c) LF = Ascii.eqb c LF.
Proof.
  apply Bool.eqb_prop.
  apply (forall_ascii
           (fun c => Bool.eqb (Ascii.eqb (lower_char c) LF) (Ascii.eqb c LF))).
  vm_compute. reflexivity.
Qed.

Lemma toLowerCase_app a b :
  toLowerCase (a ++ b) = (toLowerCase a ++ toLowerCase b)%string.
Proof. induction a as [|c a IH]; simpl; [reflexivity|]. rewrite IH. reflexivity. Qed.

Lemma prefix_before k : forall s,
  lacks LF k = true ->
  String.prefix k (toLowerCase s) = true ->
  String.prefix k (toLowerCase (before LF s)) = true.
Proof.
  induction k as [|x k IH]; intros s L H; [apply prefix_empty|].
  destruct s as [|c s]; [discriminate H|].
  unfold lacks in L. cbn [all] in L. apply andb_prop in L. destruct L as [Lx Lk].
  cbn [toLowerCase String.prefix] in H.
  destruct (ascii_dec x (lower_char c)) as [->|]; [|discriminate H].
  rewrite lower_char_LF in Lx. apply negb_true_iff in Lx.
  cbn [before]. rewrite Lx. cbn [toLowerCase String.prefix].
  destruct (ascii_dec (lower_char c) (lower_char c)) as [_|N]; [|contradiction].
  apply IH; assumption.
Qed.

(** A word without line break that occurs in the text occurs in one of
    its lines. *)
Lemma includes_line k : forall s,
  lacks LF k = true ->
  includes (toLowerCase s) k = true ->
  exists l, In l (split LF s) /\ includes (toLowerCase l) k = true.
Proof.
  intros s L. induction s as [|c s IH]; intros H.
  - exists "". split; [left; reflexivity|exact H].
  - cbn [toLowerCase includes] in H. apply orb_prop in H. destruct H as [H|H].
    + exists (before LF (String c s)). split; [apply split_head|].
      apply (prefix_before k (String c s) L) in H.
      destruct (toLowerCase (before LF (String c s))); cbn [includes];
        rewrite H; reflexivity.
    + destruct (IH H) as (l & Hl & I). cbn [split].
      destruct (Ascii.eqb c LF).
      * exists l. split; [right; exact Hl|exact I].
      * destruct (split LF s) as [|w ws]; [destruct Hl|].
        destruct Hl as [->|Hl].
        -- exists (String c l). split; [left; reflexivity|].
           cbn [toLowerCase includes]. rewrite I. apply orb_true_r.
        -- exists l. split; [right; exact Hl|exact I].
Qed.

Lemma any_suffix_app (p : string -> bool) a : forall t,
  p t = true -> any_suffix p (a ++ t) = true.
Proof.
  induction a as [|c a IH]; intros t H.
  - destruct t; simpl; rewrite H; reflexivity.
  - simpl. rewrite (IH t H). apply orb_true_r.
Qed.

Lemma any_suffix_impl (p q : string -> bool) s :
  (forall t, p t = true -> q t = true) ->
  any_suffix p s = true -> any_suffix q s = true.
Proof.
  intros H. induction s as [|c s IH]; simpl; intros A;
    apply orb_prop in A; destruct A as [A|A].
  - rewrite (H _ A). reflexivity.
  - discriminate A.
  - rewrite (H _ A). reflexivity.
  - rewrite (IH A). apply orb_true_r.
Qed.

(** *** White space at the ends *)

Lemma all_trimStart p s : all p s = true -> all p (trimStart s) = true.
Proof.
  induction s as [|c s IH]; [reflexivity|].
  intros A. cbn [trimStart]. destruct (is_space c); [|exact A].
  simpl in A. apply andb_prop in A. apply IH, A.
Qed.

Lemma all_trimEnd p s : all p s = true -> all p (trimEnd s) = true.
Proof.
  induction s as [|c s IH]; [reflexivity|].
  intros A. simpl in A. apply andb_prop in A. destruct A as [A1 A2].
  cbn [trimEnd]. specialize (IH A2).
  destruct (trimEnd s) as [|d t].
  - destruct (is_space c); [reflexivity|]. simpl. rewrite A1. reflexivity.
  - cbn [all]. rewrite A1. exact IH.
Qed.

Lemma all_trim p s : all p s = true -> all p (trim s) = true.
Proof. intros A. apply all_trimEnd, all_trimStart, A. Qed.

Lemma trimStart_keeps x r : is_space x = false ->
  forall p, exists p', trimStart (p ++ String x r) = (p' ++ String x r)%string.
Proof.
  intros X. induction p as [|c p IH].
  - exists "". simpl. rewrite X. reflexivity.
  - cbn [append trimStart]. destruct (is_space c).
    + exact IH.
    + exists (String c p). reflexivity.
Qed.

Lemma trimEnd_keeps y : is_space y = false ->
  forall a q, exists q', trimEnd (a ++ String y q) = (a ++ String y q')%string.
Proof.
  intros Y. induction a as [|c a IH]; intros q.
  - cbn [append trimEnd]. destruct (trimEnd q) as [|d t].
    + rewrite Y. exists "". reflexivity.
    + exists (String d t). reflexivity.
  - cbn [append trimEnd]. destruct (IH q) as (q' & ->).
    destruct (a ++ String y q')%string eqn:E.
    + destruct a; discriminate E.
    + exists q'. cbn [append]. rewrite E. reflexivity.
Qed.

(** The first and the last character of [k] are no white space. *)
Definition solid (k : string) : bool :=
  match k with
  | EmptyString => false
  | String x k' =>
      negb (is_space x)
      && match last_char None k with
         | Some y => negb (is_space y)
         | None => false
         end
  end.

Lemma last_char_split k : forall prev y,
  last_char prev k = Some y -> k <> "" ->
  exists k0, k = (k0 ++ String y "")%string.
Proof.
  induction k as [|c k IH]; intros prev y H N; [contradiction|].
  destruct k as [|d k'].
  - simpl in H. inversion H; subst. exists "". reflexivity.
  - destruct (IH (Some c) y H) as (k0 & E); [discriminate|].
    exists (String c k0). rewrite E. reflexivity.
Qed.

(** A word with solid ends that occurs in a text occurs in the trimmed
    text. *)
Lemma includes_trim s k :
  solid k = true -> includes s k = true -> includes (trim s) k = true.
Proof.
  intros S H. apply includes_split in H. destruct H as (p & q & ->).
  destruct k as [|x k']; [discriminate S|].
  cbn [solid] in S. apply andb_prop in S. destruct S as [X Y].
  apply negb_true_iff in X.
  destruct (last_char None (String x k')) as [y|] eqn:L; [|discriminate Y].
  apply negb_true_iff in Y.
  destruct (last_char_split _ _ _ L) as (k0 & E); [discriminate|].
  unfold trim.
  destruct (trimStart_keeps x (k' ++ q) X p) as (p' & T).
  change ((String x k') ++ q)%string with (String x (k' ++ q)).
  rewrite T. change (String x (k' ++ q)) with ((String x k') ++ q)%string.
  rewrite E, append_assoc. cbn [append].
  rewrite <- append_assoc.
  destruct (trimEnd_keeps y Y (p' ++ k0) q) as (q' & ->).
  rewrite append_assoc.
  change (String y q') with ((String y "") ++ q')%string.
  rewrite <- (append_assoc k0). apply includes_app.
Qed.

Lemma is_space_lower c : is_space (lower_char c) = is_space c.
Proof.
  apply Bool.eqb_prop.
  apply (forall_ascii (fun c => Bool.eqb (is_space (lower_char c)) (is_space c))).
  vm_compute. reflexivity.
Qed.

Lemma toLowerCase_trimStart s :
  toLowerCase (trimStart s) = trimStart (toLowerCase s).
Proof.
  induction s as [|c s IH]; [reflexivity|].
  cbn [trimStart toLowerCase]. rewrite is_space_lower.
  destruct (is_space c); [exact IH|reflexivity].
Qed.

Lemma toLowerCase_trimEnd s :
  toLowerCase (trimEnd s) = trimEnd (toLowerCase s).
Proof.
  induction s as [|c s IH]; [reflexivity|].
  cbn [trimEnd toLowerCase]. rewrite <- IH, is_space_lower.
  destruct (trimEnd s); [destruct (is_space c)|]; reflexivity.
Qed.

Lemma toLowerCase_trim s : toLowerCase (trim s) = trim (toLowerCase s).
Proof. unfold trim. rewrite toLowerCase_trimEnd, toLowerCase_trimStart. reflexivity. Qed.

End LineFacts.

(** ** Facts about the patterns of the parser *)

Module PatternFacts.

Import JSString Regex RegexFacts StringFacts MatchFacts LineFacts Parser ParserFacts YearFacts.
Local Open Scope string_scope.
Local Open Scope list_scope.

Lemma derives_chr_eq c w : derives (chr c) w -> w = String c "".
Proof.
  intros D. apply derives_chr_inv in D. destruct D as (x & -> & E).
  apply Ascii.eqb_eq in E. subst. reflexivity.
Qed.

(** The classes of the address pattern. *)
Definition email_local (c : ascii) : bool := is_alnum c || in_chars "._%+-" c.
Definition email_domain (c : ascii) : bool := is_alnum c || in_chars ".-" c.
Definition email_tld (c : ascii) : bool := is_upper c || in_chars "|" c || is_lower c.

(** An address: a local part, [@], a domain, a dot and two characters or
    more of the last class. *)
Definition email_shape (m : string) : Prop :=
  exists l d t,
    m = (l ++ "@" ++ d ++ "." ++ t)%string
    /\ l <> "" /\ all email_local l = true
    /\ d <> "" /\ all email_domain d = true
    /\ (2 <= String.length t)%nat /\ all email_tld t = true.

Lemma derives_emailRegex m : derives emailRegex m -> email_shape m.
Proof.
  unfold emailRegex. intros D.
  apply derives_seq_inv in D. destruct D as (w0 & w & -> & D0 & D).
  apply derives_wordb_inv in D0. subst w0.
  apply derives_seq_inv in D. destruct D as (l & w1 & -> & Dl & D).
  apply derives_seq_inv in D. destruct D as (at_ & w2 & -> & Da & D).
  apply derives_seq_inv in D. destruct D as (d & w3 & -> & Dd & D).
  apply derives_seq_inv in D. destruct D as (dot & w4 & -> & Dp & D).
  apply derives_seq_inv in D. destruct D as (t2 & w5 & -> & Dt & D).
  apply derives_seq_inv in D. destruct D as (ts & w6 & -> & Ds & D).
  apply derives_wordb_inv in D. subst w6.
  apply derives_chr_eq in Da, Dp. subst at_ dot.
  apply derives_plus_chr in Dl. destruct Dl as (cl & l' & -> & Pl & Al).
  apply derives_plus_chr in Dd. destruct Dd as (cd & d' & -> & Pd & Ad).
  cbn [rep] in Dt. apply derives_seq_inv in Dt.
  destruct Dt as (t1 & t2' & -> & Dt1 & Dt2).
  apply derives_chr_inv in Dt1, Dt2.
  destruct Dt1 as (c1 & -> & P1). destruct Dt2 as (c2 & -> & P2).
  apply derives_star_chr in Ds.
  exists (String cl l'), (String cd d'), (String c1 (String c2 ts)).
  cbn [append]. rewrite append_empty_r.
  split; [reflexivity|].
  split; [discriminate|]. split; [cbn [all]; unfold email_local; rewrite Pl; exact Al|].
  split; [discriminate|]. split; [cbn [all]; unfold email_domain; rewrite Pd; exact Ad|].
  split; [simpl; lia|].
  cbn [all]. unfold email_tld. rewrite P1, P2. exact Ds.
Qed.

Lemma derives_chr_i c w :
  is_capital c = false -> derives (chr_i c) w ->
  exists x, w = String x "" /\ lower_char x = c.
Proof.
  intros U D. apply derives_chr_inv in D. destruct D as (x & -> & E).
  rewrite (chr_i_lower c x U) in E. apply Ascii.eqb_eq in E.
  exists x. auto.
Qed.

(** What a keyword under the [i] flag matches lower-cases to the
    keyword. *)
Lemma derives_lit_i k : no_upper k = true ->
  forall w, derives (lit_i k) w -> toLowerCase w = k.
Proof.
  induction k as [|c k IH]; intros U w D.
  - apply derives_eps_inv in D. subst. reflexivity.
  - simpl in U. apply andb_prop in U. destruct U as [Uc Uk].
    apply negb_true_iff in Uc.
    destruct k as [|c' k'].
    + destruct (derives_chr_i c w Uc D) as (x & -> & <-). reflexivity.
    + change (lit_i (String c (String c' k')))
        with (Seq (chr_i c) (lit_i (String c' k'))) in D.
      apply derives_seq_inv in D. destruct D as (w1 & w2 & -> & D1 & D2).
      destruct (derives_chr_i c w1 Uc D1) as (x & -> & <-).
      cbn [append toLowerCase]. rewrite (IH Uk w2 D2). reflexivity.
Qed.

Definition linkedin_slug (c : ascii) : bool := is_alnum c || in_chars "-" c.

(** A profile link: [linkedin.com/in/] in any letter case, then a name
    of one character or more. *)
Definition linkedin_shape (m : string) : Prop :=
  exists host slug,
    m = (host ++ slug)%string
    /\ toLowerCase host = "linkedin.com/in/"
    /\ slug <> "" /\ all linkedin_slug slug = true.

Lemma derives_linkedinRegex m : derives linkedinRegex m -> linkedin_shape m.
Proof.
  unfold linkedinRegex. intros D.
  apply derives_seq_inv in D. destruct D as (host & slug & -> & Dh & Ds).
  apply derives_lit_i in Dh; [|reflexivity].
  apply derives_plus_chr in Ds. destruct Ds as (c & s' & -> & P & A).
  exists host, (String c s'). split; [reflexivity|]. split; [exact Dh|].
  split; [discriminate|]. cbn [all]. unfold linkedin_slug. rewrite P. exact A.
Qed.

Lemma accepts_mono r : forall (k k' : string -> bool) t,
  (forall u, k u = true -> k' u = true) ->
  accepts r k t = true -> accepts r k' t = true.
Proof.
  induction r as [|p|r1 IH1 r2 IH2|r1 IH1 r2 IH2|r IH|]; intros k k' t H A;
    simpl in *; try discriminate A.
  - apply H, A.
  - destruct t as [|c t]; [discriminate A|].
    apply andb_prop in A. destruct A as [A1 A2]. rewrite A1, (H _ A2). reflexivity.
  - eapply IH1; [|exact A]. intros u. apply IH2, H.
  - apply orb_prop in A. destruct A as [A|A].
    + rewrite (IH1 _ _ _ H A). reflexivity.
    + rewrite (IH2 _ _ _ H A). apply orb_true_r.
Qed.

(** Where the phone check of the score matches, the phone pattern of the
    extractor matches. *)
Lemma phone_at_phoneRegex t :
  phone_at t = true -> accepts phoneRegex stop t = true.
Proof.
  intros H. unfold phoneRegex. cbn [accepts opt].
  apply orb_true_iff. right. apply orb_true_iff. right.
  unfold phone_at in H. rewrite <- accepts_rep_digit in H.
  eapply accepts_mono; [|exact H].
  intros u K. cbn [accepts]. apply orb_true_iff. right. exact K.
Qed.

(** The first of the matches [match_all] lists is the match [search]
    finds. *)
Lemma match_all_search r s m ms :
  match_all r s = Val (m :: ms) -> exists b a, search r None s = Some (b, m, a).
Proof.
  unfold match_all. cbn [match_all_from].
  destruct (search r None s) as [[[b m'] a]|]; [|discriminate].
  intros E. exists b, a. inversion E; subst. reflexivity.
Qed.

Lemma year_token_year_at m q : year_token m = true -> year_at (m ++ q) = true.
Proof.
  unfold year_token, year_at. intros H.
  destruct m as [|c1 [|c2 [|c3 [|c4 [|c5 m]]]]];
    cbn [literal_then digits_then is_empty] in H;
    rewrite ?andb_false_r in H; try discriminate H.
  cbn [append literal_then digits_then stop]. exact H.
Qed.

End PatternFacts.

(** ** Facts about the entries of the parser *)

Module ExtractionFacts.

Import JSString Regex RegexFacts StringFacts MatchFacts LineFacts Parser ParserFacts.
Import YearFacts PatternFacts ListFacts.
Local Open Scope string_scope.
Local Open Scope list_scope.

Lemma experience_entries_line lines :
  experience_entries lines <> [] ->
  exists line first others,
    In line lines /\ match_all yearRegex line = Val (first :: others).
Proof.
  induction lines as [|line rest IH]; cbn [experience_entries]; [contradiction|].
  destruct (match_all yearRegex line) as [| |[|first others]] eqn:M; intros H;
    try (destruct (IH H) as (l & f & o & Hl & E);
         exists l, f, o; split; [right; exact Hl|exact E]).
  exists line, first, others. split; [left; reflexivity|exact M].
Qed.

Lemma education_entries_line lines line :
  In line lines ->
  existsb (fun keyword => includes (toLowerCase line) keyword) degreeKeywords = true ->
  education_entries lines <> [].
Proof.
  induction lines as [|l rest IH]; intros H K; [destruct H|].
  cbn [education_entries]. cbv zeta.
  destruct H as [->|H].
  - rewrite K. intros E. discriminate E.
  - destruct (existsb (fun keyword => includes (toLowerCase l) keyword) degreeKeywords);
      [intros E; discriminate E|].
    apply IH; assumption.
Qed.

Lemma firstn_not_nil {A} n (l : list A) : l <> [] -> firstn (S n) l <> [].
Proof. destruct l; [contradiction|discriminate]. Qed.

Lemma firstn_nil_inv {A} n (l : list A) : firstn n l <> [] -> l <> [].
Proof. intros H E. subst. destruct n; contradiction. Qed.

End ExtractionFacts.

(** ** Facts about the fields of the parser *)

Module FieldFacts.

Import JSString Regex RegexFacts StringFacts MatchFacts LineFacts Parser ParserFacts.
Import YearFacts PatternFacts ListFacts ExtractionFacts.
Local Open Scope string_scope.
Local Open Scope list_scope.

Lemma includes_empty_l k : k <> "" -> includes "" k = false.
Proof. destruct k; [contradiction|reflexivity]. Qed.

Lemma solid_not_empty k : solid k = true -> k <> "".
Proof. destruct k; [discriminate|discriminate]. Qed.

(** A line that holds a word with solid ends, in any letter case, holds
    it after trimming, and is not blank. *)
Lemma keyword_in_trimmed line k :
  solid k = true -> includes (toLowerCase line) k = true ->
  includes (toLowerCase (trim line)) k = true /\ trim line <> "".
Proof.
  intros S I. assert (T : includes (toLowerCase (trim line)) k = true).
  { rewrite toLowerCase_trim. apply includes_trim; assumption. }
  split; [exact T|]. intros E. rewrite E in T. cbn [toLowerCase] in T.
  rewrite includes_empty_l in T by (apply solid_not_empty, S). discriminate T.
Qed.

Lemma string_or_not_empty v d : d <> "" -> JS.string_or v d <> "".
Proof.
  intros D. unfold JS.string_or, JS.truthy_string.
  destruct v as [| |s]; try exact D. simpl.
  destruct (String.eqb_spec s ""); simpl; assumption.
Qed.

Lemma string_or_lacks c v d :
  lacks c d = true ->
  match v with Val s => lacks c s = true | _ => True end ->
  lacks c (JS.string_or v d) = true.
Proof.
  intros D V. unfold JS.string_or, JS.truthy_string.
  destruct v as [| |s]; try exact D. simpl.
  destruct (negb (String.eqb s "")); assumption.
Qed.

Lemma lacks_trim c s : lacks c s = true -> lacks c (trim s) = true.
Proof. apply all_trim. Qed.

Lemma lacks_join c sep ls :
  lacks c sep = true -> Forall (fun l => lacks c l = true) ls ->
  lacks c (join sep ls) = true.
Proof.
  intros S. induction 1 as [|x xs Hx Hxs IH]; [reflexivity|].
  destruct xs as [|y ys]; [exact Hx|].
  change (join sep (x :: y :: ys)) with (x ++ sep ++ join sep (y :: ys))%string.
  unfold lacks in *. rewrite !all_app, Hx, S, IH. reflexivity.
Qed.

Lemma Forall_firstn {A} (P : A -> Prop) n : forall l,
  Forall P l -> Forall P (firstn n l).
Proof.
  induction n as [|n IH]; intros l H; [constructor|].
  destruct H; simpl; constructor; auto.
Qed.

Lemma Forall_skipn {A} (P : A -> Prop) n : forall l,
  Forall P l -> Forall P (skipn n l).
Proof.
  induction n as [|n IH]; intros l H; [exact H|].
  destruct H; simpl; [constructor|auto].
Qed.

Lemma next_line_or_lacks c rest d :
  lacks c d = true -> Forall (fun l => lacks c l = true) rest ->
  lacks c (next_line_or rest d) = true.
Proof.
  intros D H. unfold next_line_or. apply string_or_lacks; [exact D|].
  destruct H as [|l rest' Hl _]; simpl; [exact I|].
  apply lacks_trim, Hl.
Qed.

(** The lines of a text hold no character that the text lacks. *)
Lemma split_keeps_lacks c sep s :
  lacks c s = true -> Forall (fun l => lacks c l = true) (split sep s).
Proof.
  intros H. apply Forall_forall. intros l Hl.
  apply split_In in Hl. destruct Hl as (p & q & ->).
  unfold lacks in *. rewrite !all_app in H.
  apply andb_prop in H. destruct H as [_ H].
  apply andb_prop in H. apply H.
Qed.

Lemma Forall_under {A} (H : Prop) (P : A -> Prop) l :
  (H -> Forall P l) -> Forall (fun x => H -> P x) l.
Proof.
  induction l as [|x l IH]; intros F; constructor.
  - intros h. specialize (F h). inversion F; assumption.
  - apply IH. intros h. specialize (F h). inversion F; assumption.
Qed.

Lemma Forall_both {A} (P Q : A -> Prop) l :
  Forall P l -> Forall Q l -> Forall (fun x => P x /\ Q x) l.
Proof.
  induction 1 as [|x l Hx _ IH]; intros F; [constructor|].
  inversion F; subst. constructor; auto.
Qed.

Lemma split_first_lacks c r s :
  lacks c s = true -> lacks c (split_first r s) = true.
Proof.
  intros H. unfold split_first.
  destruct (search r None s) as [[[b m] a]|] eqn:S; [|exact H].
  apply search_sound in S. destruct S as [-> _].
  unfold lacks in *. rewrite all_app in H. apply andb_prop in H. apply H.
Qed.

End FieldFacts.

(** ** Facts about validation *)

Module ValidationFacts.

Import JSString Regex RegexFacts StringFacts MatchFacts LineFacts Parser PatternFacts.
Import Constants Validation.
Local Open Scope string_scope.
Local Open Scope list_scope.

Lemma run_chr_complete (p : ascii -> bool) prev c s :
  p c = true -> In (Some c, s) (run (Chr p) (prev, String c s)).
Proof. intros P. simpl. rewrite P. left. reflexivity. Qed.

Lemma run_seq_complete r1 r2 st0 st1 st2 :
  In st1 (run r1 st0) -> In st2 (run r2 st1) -> In st2 (run (Seq r1 r2) st0).
Proof. intros H1 H2. cbn [run]. apply in_flat_map. exists st1. auto. Qed.

(** A starred class can take every character of a text of the class. *)
Lemma run_star_chr_complete (p : ascii -> bool) w : forall prev rest,
  all p w = true ->
  In (last_char prev w, rest) (run (Star (Chr p)) (prev, (w ++ rest)%string)).
Proof.
  induction w as [|c w IH]; intros prev rest A.
  - rewrite run_star. cbn [append last_char snd].
    destruct (String.length rest); cbn [star_loop];
      [left; reflexivity|apply in_or_app; right; left; reflexivity].
  - cbn [all] in A. apply andb_prop in A. destruct A as [Pc A].
    rewrite run_star. cbn [append snd String.length star_loop].
    apply in_or_app. left. apply in_flat_map.
    exists (Some c, (w ++ rest)%string). split; [apply run_chr_complete, Pc|].
    cbn [snd String.length]. rewrite (proj2 (Nat.ltb_lt _ _)) by lia.
    pose proof (IH (Some c) rest A) as H. rewrite run_star in H. exact H.
Qed.

Lemma run_plus_chr_complete (p : ascii -> bool) c w prev rest :
  p c = true -> all p w = true ->
  In (last_char prev (String c w), rest)
    (run (plus (Chr p)) (prev, (String c w ++ rest)%string)).
Proof.
  intros Pc A. unfold plus. cbn [append last_char].
  eapply run_seq_complete; [apply run_chr_complete, Pc|].
  apply run_star_chr_complete, A.
Qed.

Lemma trimEnd_solid y : is_space y = false ->
  forall a, trimEnd (a ++ String y "") = (a ++ String y "")%string.
Proof.
  intros Y. induction a as [|c a IH].
  - simpl. rewrite Y. reflexivity.
  - cbn [append trimEnd]. rewrite IH.
    destruct (a ++ String y "")%string eqn:E; [destruct a; discriminate E|].
    reflexivity.
Qed.

(** A text with solid ends is left as it is. *)
Lemma trim_solid s : solid s = true -> trim s = s.
Proof.
  intros S. destruct s as [|x s']; [discriminate S|].
  cbn [solid] in S. apply andb_prop in S. destruct S as [X Y].
  apply negb_true_iff in X.
  destruct (last_char None (String x s')) as [y|] eqn:L; [|discriminate Y].
  apply negb_true_iff in Y.
  destruct (last_char_split _ _ _ L) as (k0 & E); [discriminate|].
  unfold trim. cbn [trimStart]. rewrite X, E. apply trimEnd_solid, Y.
Qed.

Lemma last_char_all p s : forall prev y,
  all p s = true -> s <> "" -> last_char prev s = Some y -> p y = true.
Proof.
  induction s as [|c s IH]; intros prev y A N L; [contradiction|].
  cbn [all] in A. apply andb_prop in A. destruct A as [Pc A].
  destruct s as [|d s'].
  - simpl in L. inversion L; subst. exact Pc.
  - apply (IH (Some c) y A); [discriminate|exact L].
Qed.

Lemma last_char_some s : forall prev, s <> "" -> exists y, last_char prev s = Some y.
Proof.
  induction s as [|c s IH]; intros prev N; [contradiction|].
  destruct s as [|d s']; [exists c; reflexivity|].
  apply (IH (Some c)). discriminate.
Qed.

Lemma last_char_app_r a b prev :
  b <> "" -> last_char prev (a ++ b) = last_char None b.
Proof.
  intros N. rewrite <- last_char_app.
  destruct b as [|c b]; [contradiction|]. reflexivity.
Qed.

Definition plain (c : ascii) : bool := negb (is_space c || Ascii.eqb c "@").

Lemma implb_ascii (p q : ascii -> bool) :
  forallb (fun c => implb (p c) (q c)) all_ascii = true ->
  forall c, p c = true -> q c = true.
Proof.
  intros H c P. pose proof (forall_ascii _ H c) as I. cbv beta in I.
  rewrite P in I. exact I.
Qed.

Lemma email_local_plain c : email_local c = true -> plain c = true.
Proof. apply implb_ascii. vm_compute. reflexivity. Qed.

Lemma email_domain_plain c : email_domain c = true -> plain c = true.
Proof. apply implb_ascii. vm_compute. reflexivity. Qed.

Lemma email_tld_plain c : email_tld c = true -> plain c = true.
Proof. apply implb_ascii. vm_compute. reflexivity. Qed.

Lemma plain_solid c : plain c = true -> is_space c = false.
Proof.
  unfold plain. intros H. apply negb_true_iff, orb_false_iff in H. apply H.
Qed.

(** An address of the extractor's shape passes the address pattern of
    the validator, and has no white space at its ends. *)
Lemma email_shape_valid m :
  email_shape m -> test_whole Validation.emailRegex m = true /\ trim m = m.
Proof.
  intros (l & d & t & -> & Nl & Al & Nd & Ad & Lt & At).
  apply (all_impl _ _ _ email_local_plain) in Al.
  apply (all_impl _ _ _ email_domain_plain) in Ad.
  apply (all_impl _ _ _ email_tld_plain) in At.
  destruct l as [|cl l']; [contradiction|].
  destruct d as [|cd d']; [contradiction|].
  destruct t as [|ct t']; [simpl in Lt; lia|].
  cbn [all] in Al, Ad, At.
  apply andb_prop in Al, Ad, At.
  destruct Al as [Pl Al]. destruct Ad as [Pd Ad]. destruct At as [Pt At].
  split.
  - unfold test_whole. apply existsb_exists.
    exists (last_char None
              (String cl l' ++ "@" ++ String cd d' ++ "." ++ String ct t'), "").
    split; [|reflexivity].
    unfold Validation.emailRegex.
    eapply run_seq_complete;
      [apply (run_plus_chr_complete _ cl l' None); [exact Pl|exact Al]|].
    cbn [append]. eapply run_seq_complete; [apply run_chr_complete, Ascii.eqb_refl|].
    eapply run_seq_complete;
      [apply (run_plus_chr_complete _ cd d'); [exact Pd|exact Ad]|].
    cbn [append]. eapply run_seq_complete; [apply run_chr_complete, Ascii.eqb_refl|].
    pose proof (run_plus_chr_complete _ ct t' (Some "."%char) "" Pt At) as H.
    rewrite append_empty_r in H.
    replace (last_char None
               (String cl (l' ++ String "@" (String cd (d' ++ String "." (String ct t'))))))
      with (last_char (Some "."%char) (String ct t')); [exact H|].
    change (String cl (l' ++ String "@" (String cd (d' ++ String "." (String ct t')))))
      with ((String cl l') ++ "@" ++ (String cd d') ++ "." ++ String ct t')%string.
    rewrite !last_char_app_r by discriminate. reflexivity.
  - apply trim_solid. cbn [solid append].
    rewrite (plain_solid _ Pl). cbn [negb andb].
    change (String cl (l' ++ String "@" (String cd (d' ++ String "." (String ct t')))))
      with ((String cl l') ++ "@" ++ (String cd d') ++ "." ++ String ct t')%string.
    rewrite !last_char_app_r by discriminate.
    destruct (last_char_some (String ct t') None) as (y & L); [discriminate|].
    rewrite L.
    assert (Py : plain y = true).
    { apply (last_char_all plain (String ct t') None y); [|discriminate|exact L].
      cbn [all]. rewrite Pt. exact At. }
    rewrite (plain_solid _ Py). reflexivity.
Qed.

End ValidationFacts.

(** ** Facts about files *)

Module FileFacts.

Import JSString Regex RegexFacts StringFacts MatchFacts LineFacts Parser PatternFacts.
Import Constants Validation Storage ParseCV ValidationFacts.
Local Open Scope list_scope.
Local Open Scope string_scope.

(** What [validateCVFile] checks of a file. *)
Definition size_allowed (file : File.t) : bool :=
  (File.size file <=? MAX_CV_SIZE_BYTES)%N.

Definition type_allowed (file : File.t) : bool :=
  Array_includes
    [ALLOWED_FILE_TYPES_PDF; ALLOWED_FILE_TYPES_DOCX; ALLOWED_FILE_TYPES_TXT]
    (File.type file).

(** The text after the last dot of the name (the whole name when it has
    no dot), in lower case. *)
Definition extension (name : string) : string :=
  toLowerCase (pop (split "." name)).

Definition extension_allowed (file : File.t) : bool :=
  Array_includes ["pdf"; "docx"; "txt"] (extension (File.name file)).

Lemma Array_includes_dot e :
  Array_includes ALLOWED_FILE_EXTENSIONS ("." ++ e)
  = Array_includes ["pdf"; "docx"; "txt"] e.
Proof. reflexivity. Qed.

Lemma validateCVFile_valid file :
  Validation.valid (validateCVFile (Val file))
  = size_allowed file && type_allowed file && extension_allowed file.
Proof.
  unfold validateCVFile, size_allowed, type_allowed, extension_allowed, extension.
  cbv zeta. rewrite N.ltb_antisym.
  destruct (File.size file <=? MAX_CV_SIZE_BYTES)%N; cbn [negb andb]; [|reflexivity].
  destruct (Array_includes _ (File.type file)); cbn [negb andb]; [|reflexivity].
  rewrite Array_includes_dot.
  destruct (Array_includes _ _); reflexivity.
Qed.

(** *** The name under which a file is stored *)

Definition safe_char (c : ascii) : bool :=
  is_lower c || is_upper c || is_digit c
  || Ascii.eqb c "." || Ascii.eqb c "-" || Ascii.eqb c "_".

Lemma sanitize_safe name : all safe_char (sanitize name) = true.
Proof.
  induction name as [|c name IH]; [reflexivity|].
  cbn [sanitize all]. rewrite IH, andb_true_r.
  unfold unsafe_char, safe_char.
  destruct (is_lower c || is_upper c || is_digit c || Ascii.eqb c "." || Ascii.eqb c "-") eqn:E;
    cbn [negb]; [rewrite E|]; reflexivity.
Qed.

Lemma sanitize_length name : String.length (sanitize name) = String.length name.
Proof. induction name as [|c name IH]; simpl; [reflexivity|]. rewrite IH. reflexivity. Qed.

Lemma sanitize_fixed name : all (fun c => negb (unsafe_char c)) name = true ->
  sanitize name = name.
Proof.
  induction name as [|c name IH]; [reflexivity|].
  cbn [all sanitize]. intros A. apply andb_prop in A. destruct A as [Pc A].
  apply negb_true_iff in Pc. rewrite Pc, (IH A). reflexivity.
Qed.

Lemma sanitize_idempotent name : sanitize (sanitize name) = sanitize name.
Proof.
  induction name as [|c name IH]; [reflexivity|].
  cbn [sanitize]. rewrite IH. destruct (unsafe_char c) eqn:U; [reflexivity|].
  rewrite U. reflexivity.
Qed.

Lemma sanitize_dot c :
  Ascii.eqb (if unsafe_char c then "_"%char else c) "." = Ascii.eqb c ".".
Proof.
  apply Bool.eqb_prop.
  apply (forall_ascii
           (fun c => Bool.eqb (Ascii.eqb (if unsafe_char c then "_"%char else c) ".")
                       (Ascii.eqb c "."))).
  vm_compute. reflexivity.
Qed.

(** The dots of a name are the dots of the sanitized name. *)
Lemma split_sanitize name :
  split "." (sanitize name) = map sanitize (split "." name).
Proof.
  induction name as [|c name IH]; [reflexivity|].
  cbn [sanitize split]. rewrite sanitize_dot, IH.
  destruct (Ascii.eqb c "."); [reflexivity|].
  destruct (split "." name); reflexivity.
Qed.

Lemma pop_map (f : string -> string) l :
  f "" = "" -> pop (map f l) = f (pop l).
Proof.
  intros F. unfold pop. induction l as [|x xs IH]; [symmetry; exact F|].
  destruct xs as [|y ys]; [reflexivity|]. exact IH.
Qed.

Lemma all_toLowerCase p s : all p (toLowerCase s) = all (fun c => p (lower_char c)) s.
Proof. induction s as [|c s IH]; simpl; [reflexivity|]. rewrite IH. reflexivity. Qed.

Lemma letter_safe c : is_lower (lower_char c) = true -> negb (unsafe_char c) = true.
Proof. revert c. apply implb_ascii. vm_compute. reflexivity. Qed.

(** Sanitizing a name keeps an allowed extension. *)
Lemma extension_sanitize name :
  Array_includes ["pdf"; "docx"; "txt"] (extension name) = true ->
  extension (sanitize name) = extension name.
Proof.
  unfold extension. intros H. rewrite split_sanitize, pop_map by reflexivity.
  f_equal. apply sanitize_fixed.
  eapply all_impl; [apply letter_safe|].
  rewrite <- all_toLowerCase.
  unfold Array_includes in H. apply existsb_exists in H.
  destruct H as (k & Hk & E). apply String.eqb_eq in E. rewrite E.
  destruct Hk as [<-|[<-|[<-|[]]]]; reflexivity.
Qed.

(** *** Parsing *)

(** The text of a PDF: every page on a line of its own. *)
Definition pages_text (pages : list (list string)) : string :=
  fold_left (fun fullText items => fullText ++ (join " " items ++ String LF ""))
    pages "".

Lemma fold_pages pages : forall acc,
  fold_left (fun fullText items => fullText ++ (join " " items ++ String LF ""))
    pages acc
  = acc ++ fold_right (fun items rest => join " " items ++ String LF rest) "" pages.
Proof.
  induction pages as [|p ps IH]; intros acc; cbn [fold_left fold_right].
  - symmetry. apply append_empty_r.
  - rewrite IH, !append_assoc. reflexivity.
Qed.

Lemma split_line l rest :
  lacks LF l = true -> split LF (l ++ String LF rest) = l :: split LF rest.
Proof.
  induction l as [|c l IH]; intros L.
  - cbn [append split]. rewrite Ascii.eqb_refl. reflexivity.
  - unfold lacks in L. cbn [all] in L. apply andb_prop in L. destruct L as [Lc L].
    apply negb_true_iff in Lc. cbn [append split]. rewrite Lc, (IH L). reflexivity.
Qed.

(** The lines of the text of a PDF are its pages, and an empty line. *)
Lemma pages_lines pages :
  Forall (Forall (fun item => lacks LF item = true)) pages ->
  split LF (fold_right (fun items rest => join " " items ++ String LF rest) "" pages)
  = (map (join " ") pages ++ [""])%list.
Proof.
  induction 1 as [|p ps Hp _ IH]; [reflexivity|].
  cbn [fold_right map app]. rewrite split_line, IH; [reflexivity|].
  apply FieldFacts.lacks_join; [reflexivity|exact Hp].
Qed.

Lemma pdf_text_lines pages :
  Forall (Forall (fun item => lacks LF item = true)) pages ->
  split LF (pages_text pages) = (map (join " ") pages ++ [""])%list.
Proof. intros L. unfold pages_text. rewrite fold_pages. apply pages_lines, L. Qed.

Lemma experience_entries_length lines :
  List.length (experience_entries (lines ++ [""])%list) <= List.length lines.
Proof.
  induction lines as [|l ls IH]; [vm_compute; lia|].
  cbn [app experience_entries].
  destruct (match_all yearRegex l) as [| |[|y ys]]; cbn [List.length]; lia.
Qed.

Lemma education_entries_length lines :
  List.length (education_entries (lines ++ [""])%list) <= List.length lines.
Proof.
  induction lines as [|l ls IH]; [vm_compute; lia|].
  cbn [app education_entries]. cbv zeta.
  destruct (existsb _ degreeKeywords); cbn [List.length]; lia.
Qed.

End FileFacts.

(** ** Facts about counting characters *)

Module CountFacts.

Import JSString Regex RegexFacts StringFacts MatchFacts LineFacts Parser PatternFacts.
Import ValidationFacts.
Local Open Scope string_scope.
Local Open Scope list_scope.

(** The number of characters of [s] that satisfy [p]. *)
Fixpoint count (p : ascii -> bool) (s : string) : nat :=
  match s with
  | EmptyString => 0
  | String c s' => (if p c then 1 else 0) + count p s'
  end.

Lemma count_app p a b : count p (a ++ b) = count p a + count p b.
Proof. induction a as [|c a IH]; simpl; [reflexivity|]. rewrite IH. lia. Qed.

(** The least and the greatest number of characters of the class [p] in
    a text that a pattern without [*] matches. *)
Fixpoint least (p : ascii -> bool) (r : regex) : nat :=
  match r with
  | Chr q => if forallb (fun c => implb (q c) (p c)) all_ascii then 1 else 0
  | Seq r1 r2 => least p r1 + least p r2
  | Alt r1 r2 => Nat.min (least p r1) (least p r2)
  | _ => 0
  end.

Fixpoint most (p : ascii -> bool) (r : regex) : nat :=
  match r with
  | Chr q => if forallb (fun c => implb (q c) (negb (p c))) all_ascii then 0 else 1
  | Seq r1 r2 => most p r1 + most p r2
  | Alt r1 r2 => Nat.max (most p r1) (most p r2)
  | _ => 0
  end.

Fixpoint star_free (r : regex) : bool :=
  match r with
  | Eps | Chr _ | WordB => true
  | Seq r1 r2 | Alt r1 r2 => star_free r1 && star_free r2
  | Star _ => false
  end.

Lemma derives_count p r w :
  derives r w -> star_free r = true ->
  least p r <= count p w <= most p r.
Proof.
  induction 1 as [|q c Q|r1 r2 w1 w2 _ IH1 _ IH2|r1 r2 w _ IH|r1 r2 w _ IH| | |];
    cbn [star_free least most]; intros S; try discriminate S;
    try (simpl; lia).
  - cbn [count]. rewrite Nat.add_0_r.
    destruct (forallb (fun c => implb (q c) (p c)) all_ascii) eqn:F1;
      destruct (forallb (fun c => implb (q c) (negb (p c))) all_ascii) eqn:F2;
      try (pose proof (forall_ascii _ F1 c) as H1; cbv beta in H1; rewrite Q in H1;
           simpl in H1; rewrite H1);
      try (pose proof (forall_ascii _ F2 c) as H2; cbv beta in H2; rewrite Q in H2;
           simpl in H2; try apply negb_true_iff in H2; try rewrite H2);
      try (destruct (p c)); try lia; try discriminate.
  - apply andb_prop in S. destruct S as [S1 S2].
    rewrite count_app. specialize (IH1 S1). specialize (IH2 S2). lia.
  - apply andb_prop in S. destruct S as [S1 S2]. specialize (IH S1). lia.
  - apply andb_prop in S. destruct S as [S1 S2]. specialize (IH S2). lia.
Qed.

(** Some class of the pattern holds the character. *)
Fixpoint in_class (r : regex) (c : ascii) : bool :=
  match r with
  | Chr q => q c
  | Seq r1 r2 | Alt r1 r2 => in_class r1 c || in_class r2 c
  | Star r1 => in_class r1 c
  | _ => false
  end.

Lemma derives_in_class r w : derives r w -> all (in_class r) w = true.
Proof.
  induction 1 as [|q c Q|r1 r2 w1 w2 _ IH1 _ IH2|r1 r2 w _ IH|r1 r2 w _ IH
                  | |r w1 w2 _ IH1 _ IH2|]; cbn [in_class]; try reflexivity.
  - cbn [all]. rewrite Q. reflexivity.
  - rewrite all_app. apply andb_true_iff. split.
    + eapply all_impl; [|exact IH1]. intros c H. rewrite H. reflexivity.
    + eapply all_impl; [|exact IH2]. intros c H. rewrite H. apply orb_true_r.
  - eapply all_impl; [|exact IH]. intros c H. rewrite H. reflexivity.
  - eapply all_impl; [|exact IH]. intros c H. rewrite H. apply orb_true_r.
  - rewrite all_app. apply andb_true_iff. split; [|exact IH2].
    eapply all_impl; [|exact IH1]. intros c H. exact H.
Qed.

(** The characters of a phone number: digits, [+], the parentheses, [-],
    [.] and white space. *)
Definition phone_char (c : ascii) : bool :=
  is_digit c || in_chars "+()-." c || is_space c.

Lemma phoneRegex_class c : in_class phoneRegex c = true -> phone_char c = true.
Proof. revert c. apply implb_ascii. vm_compute. reflexivity. Qed.

Lemma phoneRegex_digits w :
  derives phoneRegex w -> 10 <= count is_digit w <= 13.
Proof.
  intros D. apply (derives_count is_digit) in D; [|reflexivity].
  assert (L : least is_digit phoneRegex = 10) by (vm_compute; reflexivity).
  assert (M : most is_digit phoneRegex = 13) by (vm_compute; reflexivity).
  lia.
Qed.

End CountFacts.

(** ** Facts about blank texts and longer texts *)

Module TextFacts.

Import JSString Regex RegexFacts StringFacts MatchFacts LineFacts Parser ParserFacts.
Import PatternFacts ValidationFacts CountFacts FieldFacts ListFacts.
Local Open Scope string_scope.
Local Open Scope list_scope.

(** No character of the text is other than white space. *)
Definition blank (s : string) : bool := all is_space s.

Definition inked (c : ascii) : bool := negb (is_space c).

Lemma derives_least p r w : derives r w -> least p r <= count p w.
Proof.
  induction 1 as [|q c Q|r1 r2 w1 w2 _ IH1 _ IH2|r1 r2 w _ IH|r1 r2 w _ IH| | |];
    cbn [least]; try (simpl; lia).
  - cbn [count]. rewrite Nat.add_0_r.
    destruct (forallb (fun c => implb (q c) (p c)) all_ascii) eqn:F; [|lia].
    pose proof (forall_ascii _ F c) as H. cbv beta in H. rewrite Q in H.
    simpl in H. rewrite H. lia.
  - rewrite count_app. lia.
Qed.

Lemma blank_count s : blank s = true -> count inked s = 0.
Proof.
  unfold blank, inked. induction s as [|c s IH]; [reflexivity|].
  cbn [all count]. intros B. apply andb_prop in B. destruct B as [Bc B].
  rewrite Bc, (IH B). reflexivity.
Qed.

Lemma blank_app a b : blank (a ++ b) = blank a && blank b.
Proof. apply all_app. Qed.

(** A pattern that needs a character other than white space matches
    nowhere in a blank text. *)
Lemma blank_search r text prev :
  1 <= least inked r -> blank text = true -> search r prev text = None.
Proof.
  intros L B. destruct (search r prev text) as [[[b m] a]|] eqn:S; [|reflexivity].
  apply search_sound in S. destruct S as [-> D].
  rewrite !blank_app in B. apply andb_prop in B. destruct B as [_ B].
  apply andb_prop in B. destruct B as [B _].
  pose proof (derives_least inked r m D) as C.
  rewrite (blank_count m B) in C. lia.
Qed.

Lemma blank_test r text :
  1 <= least inked r -> blank text = true -> test r text = false.
Proof. intros L B. unfold test. rewrite (blank_search r text None L B). reflexivity. Qed.

Lemma blank_match_first r text :
  1 <= least inked r -> blank text = true -> match_first r text = Null.
Proof. intros L B. unfold match_first. rewrite (blank_search r text None L B). reflexivity. Qed.

Lemma blank_match_all r text :
  1 <= least inked r -> blank text = true -> match_all r text = Null.
Proof.
  intros L B. unfold match_all. cbn [match_all_from].
  rewrite (blank_search r text None L B). reflexivity.
Qed.

(** A word that is not blank occurs in no blank text. *)
Lemma blank_includes s k : blank k = false -> blank s = true -> includes s k = false.
Proof.
  intros K B. destruct (includes s k) eqn:I; [|reflexivity].
  apply includes_split in I. destruct I as (p & q & ->).
  rewrite !blank_app in B. apply andb_prop in B. destruct B as [_ B].
  apply andb_prop in B. destruct B as [B _]. congruence.
Qed.

Lemma blank_lower s : blank (toLowerCase s) = blank s.
Proof.
  unfold blank. induction s as [|c s IH]; [reflexivity|].
  cbn [toLowerCase all]. rewrite is_space_lower, IH. reflexivity.
Qed.

Lemma blank_existsb s ks :
  forallb (fun k => negb (blank k)) ks = true -> blank s = true ->
  existsb (fun k => includes (toLowerCase s) k) ks = false.
Proof.
  intros K B. apply existsb_none. intros k Hk.
  rewrite forallb_forall in K. specialize (K k Hk). apply negb_true_iff in K.
  apply blank_includes; [exact K|]. rewrite blank_lower. exact B.
Qed.

Lemma blank_filter s ks :
  forallb (fun k => negb (blank (toLowerCase k))) ks = true -> blank s = true ->
  filter (fun k => includes (toLowerCase s) (toLowerCase k)) ks = [].
Proof.
  intros K B. apply filter_none. intros k Hk.
  rewrite forallb_forall in K. specialize (K k Hk). apply negb_true_iff in K.
  apply blank_includes; [exact K|]. rewrite blank_lower. exact B.
Qed.

Lemma trimStart_blank s : blank s = true -> trimStart s = "".
Proof.
  unfold blank. induction s as [|c s IH]; [reflexivity|].
  cbn [all trimStart]. intros B. apply andb_prop in B. destruct B as [Bc B].
  rewrite Bc. apply IH, B.
Qed.

Lemma trim_blank s : blank s = true -> trim s = "".
Proof. intros B. unfold trim. rewrite (trimStart_blank s B). reflexivity. Qed.

(** The lines of a blank text are blank. *)
Lemma blank_lines text :
  blank text = true -> Forall (fun l => blank l = true) (split LF text).
Proof.
  intros B. apply Forall_forall. intros l Hl.
  apply split_In in Hl. destruct Hl as (p & q & ->).
  rewrite !blank_app in B. apply andb_prop in B. destruct B as [_ B].
  apply andb_prop in B. apply B.
Qed.

Lemma blank_join ls :
  Forall (fun l => blank l = true) ls -> blank (join " " ls) = true.
Proof.
  induction 1 as [|x xs Hx Hxs IH]; [reflexivity|].
  destruct xs as [|y ys]; [exact Hx|].
  change (join " " (x :: y :: ys)) with (x ++ " " ++ join " " (y :: ys))%string.
  rewrite !blank_app, Hx, IH. reflexivity.
Qed.

(** *** The parser on a blank text *)

Lemma blank_name text :
  blank text = true -> Personal.name (extractContactInfo text) = "Unknown".
Proof.
  intros B. unfold extractContactInfo. cbv zeta. cbn [Personal.name].
  rewrite filter_none; [reflexivity|].
  intros l Hl. pose proof (blank_lines text B) as F.
  rewrite Forall_forall in F. rewrite (trim_blank l (F l Hl)). reflexivity.
Qed.

Lemma blank_summary text : blank text = true -> extractSummary text = "".
Proof.
  intros B. unfold extractSummary. cbv zeta.
  pose proof (blank_lines text B) as L. revert L.
  generalize (split LF text) as lines. intros lines L.
  match goal with
  | |- match ?loop lines with _ => _ end = _ =>
      assert (H : forall ls, Forall (fun l => blank l = true) ls -> loop ls = None)
  end.
  { induction 1 as [|l rest Hl Hrest IH]; [reflexivity|].
    rewrite blank_existsb by (try reflexivity; exact Hl). exact IH. }
  rewrite (H lines L). apply trim_blank, blank_join.
  unfold slice. apply Forall_firstn, Forall_skipn, L.
Qed.

Lemma blank_career_goals text :
  blank text = true -> extractCareerGoals text = "Seeking new opportunities".
Proof.
  intros B. unfold extractCareerGoals. cbv zeta.
  pose proof (blank_lines text B) as L. revert L.
  generalize (split LF text) as lines. intros lines L.
  induction L as [|l rest Hl Hrest IH]; [reflexivity|].
  rewrite blank_existsb by (try reflexivity; exact Hl). exact IH.
Qed.

Lemma blank_experience lines :
  Forall (fun l => blank l = true) lines -> experience_entries lines = [].
Proof.
  induction 1 as [|l rest Hl Hrest IH]; [reflexivity|].
  cbn [experience_entries].
  rewrite blank_match_all by (try exact Hl; vm_compute; lia). exact IH.
Qed.

Lemma blank_education lines :
  Forall (fun l => blank l = true) lines -> education_entries lines = [].
Proof.
  induction 1 as [|l rest Hl Hrest IH]; [reflexivity|].
  cbn [education_entries]. cbv zeta.
  rewrite blank_existsb by (try reflexivity; exact Hl). exact IH.
Qed.

(** *** A text within a longer text *)

Lemma accepts_app r : forall (k k' : string -> bool) t b,
  (forall u, k u = true -> k' (u ++ b)%string = true) ->
  accepts r k t = true -> accepts r k' (t ++ b)%string = true.
Proof.
  induction r as [|p|r1 IH1 r2 IH2|r1 IH1 r2 IH2|r IH|]; intros k k' t b H A;
    cbn [accepts] in *; try discriminate A.
  - apply H, A.
  - destruct t as [|c t]; [discriminate A|].
    apply andb_prop in A. destruct A as [A1 A2].
    cbn [append]. rewrite A1, (H _ A2). reflexivity.
  - eapply IH1; [|exact A]. intros u. apply IH2, H.
  - apply orb_prop in A. destruct A as [A|A].
    + rewrite (IH1 _ _ _ _ H A). reflexivity.
    + rewrite (IH2 _ _ _ _ H A). apply orb_true_r.
Qed.

Lemma any_suffix_split (p : string -> bool) s :
  any_suffix p s = true -> exists a t, s = (a ++ t)%string /\ p t = true.
Proof.
  induction s as [|c s IH]; cbn [any_suffix]; intros H;
    apply orb_prop in H; destruct H as [H|H].
  - exists "", "". auto.
  - discriminate H.
  - exists "", (String c s). auto.
  - destruct (IH H) as (a & t & -> & P). exists (String c a), t. auto.
Qed.

(** What matches somewhere in a text matches in every text that holds
    the text. *)
Lemma any_suffix_longer r before text after :
  any_suffix (accepts r stop) text = true ->
  any_suffix (accepts r stop) (before ++ text ++ after)%string = true.
Proof.
  intros H. apply any_suffix_split in H. destruct H as (a & t & -> & P).
  rewrite (append_assoc a t after), <- (append_assoc before a).
  apply any_suffix_app. eapply accepts_app; [|exact P]. reflexivity.
Qed.

Lemma includes_longer before text after k :
  includes text k = true -> includes (before ++ text ++ after)%string k = true.
Proof. intros H. apply includes_app_r, includes_app_l, H. Qed.

Lemma includes_lower_longer before text after k :
  includes (toLowerCase text) k = true ->
  includes (toLowerCase (before ++ text ++ after)%string) k = true.
Proof. intros H. rewrite !toLowerCase_app. apply includes_longer, H. Qed.

(** The five signals of a text hold of a longer text. *)
Lemma signals_longer keywords before text after :
  Forall2 (fun x y => x = true -> y = true)
    (signals keywords text) (signals keywords (before ++ text ++ after)%string).
Proof.
  unfold signals. repeat constructor.
  - apply includes_longer.
  - apply (any_suffix_longer
             (Seq (rep 3 digit) (Seq (opt separator) (Seq (rep 3 digit)
                (Seq (opt separator) (rep 4 digit)))))).
  - apply includes_lower_longer.
  - apply (any_suffix_longer (Seq (Alt (lit "19") (lit "20")) (rep 2 digit))).
  - unfold has_degree. intros H. apply existsb_exists in H.
    destruct H as (k & Hk & I). apply existsb_exists. exists k.
    split; [exact Hk|apply includes_lower_longer, I].
Qed.

Local Open Scope float_scope.

Lemma five_checks_longer (a b c d e a' b' c' d' e' : bool) :
  Forall2 (fun x y => x = true -> y = true) [a; b; c; d; e] [a'; b'; c'; d'; e'] ->
  (JSNumber.Math_min
     (JSNumber.of_length (List.length (filter (fun x : bool => x) [a; b; c; d; e]))
      / JSNumber.of_length (List.length [a; b; c; d; e]) + 0.2) 1
   <=? JSNumber.Math_min
         (JSNumber.of_length (List.length (filter (fun x : bool => x) [a'; b'; c'; d'; e']))
          / JSNumber.of_length (List.length [a'; b'; c'; d'; e']) + 0.2) 1) = true.
Proof.
  intros H.
  inversion H as [|? ? ? ? Ha H1]; subst. inversion H1 as [|? ? ? ? Hb H2]; subst.
  inversion H2 as [|? ? ? ? Hc H3]; subst. inversion H3 as [|? ? ? ? Hd H4]; subst.
  inversion H4 as [|? ? ? ? He _]; subst. clear H H1 H2 H3 H4.
  destruct a; [rewrite (Ha eq_refl)|clear Ha];
    (destruct b; [rewrite (Hb eq_refl)|clear Hb]);
    (destruct c; [rewrite (Hc eq_refl)|clear Hc]);
    (destruct d; [rewrite (Hd eq_refl)|clear Hd]);
    (destruct e; [rewrite (He eq_refl)|clear He]);
    try destruct a'; try destruct b'; try destruct c'; try destruct d';
    try destruct e'; vm_compute; reflexivity.
Qed.

End TextFacts.

(* ================================================================= *)
(** * Part III: the claims of the specification *)
(* ================================================================= *)

Import JSString Regex RegexFacts JSNumber NumberFacts Parser ParserFacts YearFacts.
Import SortFacts Matcher MatcherFacts ListFacts.
Local Open Scope float_scope.

(** ** C1: the scores are between zero and one *)

(** C1. Whatever the profile and the candidates, [rankCompanies] and
    [rankProfiles] return, and every [match_score] of their results lies
    between [0.0] and [1.0]. *)
Theorem match_score_in_unit_interval :
  forall (companies : nullable (list Company.t))
         (profiles : nullable (list Person.t))
         (cvData : nullable CVData.t),
    (exists out,
        rankCompanies companies cvData = Ok out
        /\ Forall (fun r => (0 <=? RankedCompany.match_score r) = true
                          /\ (RankedCompany.match_score r <=? 1) = true) out)
    /\ (exists out,
          rankProfiles profiles cvData = Ok out
          /\ Forall (fun r => (0 <=? RankedProfile.match_score r) = true
                            /\ (RankedProfile.match_score r <=? 1) = true) out).
Proof.
  intros companies profiles cvData. split.
  - destruct (rankCompanies_on_grid companies cvData) as (out & E & G).
    exists out. split; [exact E|].
    eapply Forall_impl; [|exact G]. intros r. apply grid_bounds.
  - destruct (rankProfiles_on_grid profiles cvData) as (out & E & G).
    exists out. split; [exact E|].
    eapply Forall_impl; [|exact G]. intros r. apply grid_bounds.
Qed.

(** ** C2: the ranking is sorted *)

(** C2. The lists [rankCompanies] and [rankProfiles] return are in
    non-increasing order of [match_score]: every element's score is at
    least the score of every element after it. *)
Theorem ranking_sorted_by_score :
  forall (companies : nullable (list Company.t))
         (profiles : nullable (list Person.t))
         (cvData : nullable CVData.t),
    (exists out,
        rankCompanies companies cvData = Ok out
        /\ StronglySorted
             (fun a b => (RankedCompany.match_score b <=? RankedCompany.match_score a) = true)
             out)
    /\ (exists out,
          rankProfiles profiles cvData = Ok out
          /\ StronglySorted
               (fun a b => (RankedProfile.match_score b <=? RankedProfile.match_score a) = true)
               out).
Proof.
  intros companies profiles cvData. split.
  - destruct companies as [| |cs];
      try (exists []; split; [reflexivity|constructor]);
      destruct cvData as [| |cv];
      try (exists []; split; [reflexivity|constructor]).
    eexists. split; [apply rankCompanies_present|].
    apply Array_sort_sorted
      with (P := fun r => In (RankedCompany.match_score r) grid_values).
    + intros x y Px Py C. pose proof (grid_order _ _ Px Py) as G.
      unfold company_order in C. rewrite C in G. exact G.
    + intros x y Px Py C. pose proof (grid_order _ _ Px Py) as G.
      unfold company_order in C. rewrite C in G. exact G.
    + intros x y z Px Py Pz. apply grid_trans; assumption.
    + apply Forall_forall. intros r Hr. apply in_map_iff in Hr.
      destruct Hr as (c & <- & _). apply rankedCompany_on_grid.
  - destruct profiles as [| |ps];
      try (exists []; split; [reflexivity|constructor]);
      destruct cvData as [| |cv];
      try (exists []; split; [reflexivity|constructor]).
    eexists. split; [apply rankProfiles_present|].
    apply Array_sort_sorted
      with (P := fun r => In (RankedProfile.match_score r) grid_values).
    + intros x y Px Py C. pose proof (grid_order _ _ Px Py) as G.
      unfold profile_order in C. rewrite C in G. exact G.
    + intros x y Px Py C. pose proof (grid_order _ _ Px Py) as G.
      unfold profile_order in C. rewrite C in G. exact G.
    + intros x y z Px Py Pz. apply grid_trans; assumption.
    + apply Forall_forall. intros r Hr. apply in_map_iff in Hr.
      destruct Hr as (p & <- & _). apply rankedProfile_on_grid.
Qed.

(** ** C3: the confidence score *)

(** The confidence score with the degree keywords of [extractEducation],
    [mba] and the abbreviated forms among them. *)
Definition claimed_confidence (text : string) : float :=
  confidence degreeKeywords text.

(** C3, as stated, fails: the text [mba] holds a degree keyword, but
    none of the three [calculateAccuracyScore] looks for. *)
Lemma accuracy_score_ignores_mba :
  calculateAccuracyScore "mba" = 0.2
  /\ claimed_confidence "mba" = 0.4
  /\ calculateAccuracyScore "mba" <> claimed_confidence "mba".
Proof.
  split; [vm_compute; reflexivity|].
  split; [vm_compute; reflexivity|].
  apply float_neq. vm_compute. reflexivity.
Qed.

(** C3, amended. The accuracy score of a text is
    [min(count_true / 5 + 0.2, 1.0)], where [count_true] counts five
    signals: the text contains [@]; it contains three digits, three digits
    and four digits with at most one separator before the second and the
    third group; it contains [linkedin.com] in any letter case; it contains
    [19] or [20] followed by two digits; it contains [bachelor], [master]
    or [phd] in any letter case. *)
Theorem accuracy_score_formula :
  forall text : string,
    calculateAccuracyScore text
    = Math_min
        (of_length
           (count_true
              [ has_at text; has_phone text; has_linkedin text; has_year text;
                has_degree ["bachelor"; "master"; "phd"]%string text ])
         / 5 + 0.2) 1.
Proof.
  intros text. unfold calculateAccuracyScore.
  rewrite accuracy_checks_signals. unfold signals.
  reflexivity.
Qed.

(** A text with none of the five signals scores [0.2]; a text with an
    address, a phone number, a LinkedIn link, a year and a degree scores
    [1.0]. *)
Example accuracy_score_without_signal :
  calculateAccuracyScore "Jane Doe, gardener" = 0.2.
Proof. vm_compute. reflexivity. Qed.

Example accuracy_score_with_all_signals :
  calculateAccuracyScore
    "jane@example.com, 555-123-4567, linkedin.com/in/jane, Bachelor of Arts 2014"
  = 1.
Proof. vm_compute. reflexivity. Qed.

(** ** C4: the score of TechCorp *)

(** The candidate company of the scenario. *)
Definition TechCorp : Company.t :=
  {| Company.name := Val "TechCorp"%string;
     Company.linkedin_url := Undefined;
     Company.industry := Val "Technology"%string;
     Company.size := Val "51-200"%string;
     Company.location := Val "SF"%string;
     Company.description := Val "uses Python and AWS"%string |}.

(** A profile of the scenario: the skills Python and AWS, the industry
    Technology, and nothing else. *)
Definition TechCorp_profile : CVData.t :=
  {| CVData.personal := Undefined;
     CVData.summary := Undefined;
     CVData.skills :=
       Val [ {| Skill.name := "Python"%string; Skill.category := "technical"%string |};
             {| Skill.name := "AWS"%string; Skill.category := "technical"%string |} ];
     CVData.experience := Undefined;
     CVData.education := Undefined;
     CVData.industries := Val ["Technology"%string];
     CVData.career_goals := Undefined;
     CVData.accuracy_score := Undefined |}.

(** C4. For every profile whose skills are Python and AWS, whose industries
    are Technology and which names no location, [rankCompanies] gives
    TechCorp the score [0.9]: [0.4] for the industry, [0.3] for the skills,
    [0.1] for a location that is present, [0.1] for the size. *)
Theorem TechCorp_score :
  forall cvData : CVData.t,
    map Skill.name (JS.or_default (CVData.skills cvData) []) = ["Python"; "AWS"]%string ->
    CVData.industries cvData = Val ["Technology"%string] ->
    JS.truthy_string (cvLocation cvData) = false ->
    exists r,
      rankCompanies (Val [TechCorp]) (Val cvData) = Ok [r]
      /\ RankedCompany.company r = TechCorp
      /\ RankedCompany.match_score r = 0.9
      /\ CompanyTerms.industry TechCorp cvData = 0.4
      /\ CompanyTerms.skills TechCorp cvData = 0.3
      /\ CompanyTerms.location TechCorp cvData = 0.1
      /\ CompanyTerms.size TechCorp = 0.1.
Proof.
  intros cvData Hskills Hind Hloc.
  assert (Ti : CompanyTerms.industry TechCorp cvData = 0.4).
  { unfold CompanyTerms.industry, CompanyScore.industryMatch, CompanyScore.cvIndustries.
    rewrite Hind. reflexivity. }
  assert (Ts : CompanyTerms.skills TechCorp cvData = 0.3).
  { unfold CompanyTerms.skills, CompanyScore.skillsScore, CompanyScore.matchingSkills,
      CompanyScore.cvSkills.
    rewrite <- (map_map Skill.name JSString.toLowerCase), Hskills.
    vm_compute. reflexivity. }
  assert (Tl : CompanyTerms.location TechCorp cvData = 0.1).
  { unfold CompanyTerms.location, CompanyScore.locationMatch.
    rewrite Hloc. reflexivity. }
  assert (Tz : CompanyTerms.size TechCorp = 0.1) by reflexivity.
  exists (rankedCompany cvData TechCorp).
  rewrite rankCompanies_present.
  repeat split; try assumption.
  simpl. unfold company_sum. rewrite Ti, Ts, Tl, Tz.
  vm_compute. reflexivity.
Qed.

Lemma TechCorp_score_witness :
  exists r,
    rankCompanies (Val [TechCorp]) (Val TechCorp_profile) = Ok [r]
    /\ RankedCompany.company r = TechCorp
    /\ RankedCompany.match_score r = 0.9
    /\ CompanyTerms.industry TechCorp TechCorp_profile = 0.4
    /\ CompanyTerms.skills TechCorp TechCorp_profile = 0.3
    /\ CompanyTerms.location TechCorp TechCorp_profile = 0.1
    /\ CompanyTerms.size TechCorp = 0.1.
Proof.
  apply (TechCorp_score TechCorp_profile); reflexivity.
Defined.

(** Before it is rounded, the score of TechCorp is not [0.9]. *)
Example TechCorp_raw_score :
  calculateCompanyMatchScore TechCorp TechCorp_profile = Ok 0.8999999999999999.
Proof. vm_compute. reflexivity. Qed.

(** ** C5: shared skills and seniority *)








(** ** C6: experience entries *)

Import TokenFacts.

(** The line holds a year token: [19] or [20] and two digits, standing as
    a word of its own. *)
Definition holds_year_token (line : string) : bool :=
  match year_tokens line with
  | [] => false
  | _ :: _ => true
  end.

(** The years a line names, in reading order. *)
Definition years_of (line : string) : list Z := map year_value (year_tokens line).

(** The earliest and the latest of some years. *)
Definition earliest (years : list Z) : Z := fold_right Z.min (hd 0%Z years) years.
Definition latest (years : list Z) : Z := fold_right Z.max (hd 0%Z years) years.

(** The entry of a line as the claim words it: from the earliest year of
    the line to the latest. *)
Definition claimed_entry (line : string) (entry : Experience.t) : Prop :=
  year_value (Experience.start_date entry) = earliest (years_of line)
  /\ year_value (Experience.end_date entry) = latest (years_of line)
  /\ Experience.duration_months entry
     = of_integer ((year_value (Experience.end_date entry)
                    - year_value (Experience.start_date entry)) * 12).

(** The entry [extractExperience] makes of a line: its periods are the
    first and the last year token of the line in reading order, and its
    duration is twelve times their difference. *)
Definition entry_of_line (line : string) (entry : Experience.t) : Prop :=
  exists first others,
    year_tokens line = first :: others
    /\ Experience.start_date entry = first
    /\ Experience.end_date entry = last (first :: others) first
    /\ (1900 <= year_value (Experience.start_date entry) <= 2099)%Z
    /\ (1900 <= year_value (Experience.end_date entry) <= 2099)%Z
    /\ Experience.duration_months entry
       = of_integer ((year_value (Experience.end_date entry)
                      - year_value (Experience.start_date entry)) * 12).

(** The years of the line never go back. *)
Definition ascending (line : string) : Prop := StronglySorted Z.le (years_of line).

Lemma experience_entries_lines lines :
  Forall2 entry_of_line (filter holds_year_token lines) (experience_entries lines).
Proof.
  induction lines as [|line rest IH]; cbn [filter experience_entries].
  - constructor.
  - unfold holds_year_token at 1.
    pose proof (match_all_yearRegex line) as F.
    rewrite match_all_year_tokens in *.
    destruct (year_tokens line) as [|first others] eqn:T; [exact IH|].
    constructor; [|exact IH].
    specialize (F _ eq_refl). rewrite Forall_forall in F.
    assert (Y0 : year_token first = true) by (apply F; left; reflexivity).
    assert (Y1 : year_token (last (first :: others) first) = true)
      by (apply F, last_In; discriminate).
    exists first, others. cbn [Experience.start_date Experience.end_date
                               Experience.duration_months].
    split; [exact T|]. split; [reflexivity|]. split; [reflexivity|].
    split; [apply (year_token_value _ Y0)|].
    split; [apply (year_token_value _ Y1)|].
    apply calculateMonths_years; assumption.
Qed.

Lemma earliest_first x l :
  Forall (Z.le x) l -> fold_right Z.min x l = x.
Proof.
  induction 1 as [|y l Hy _ IH]; [reflexivity|].
  cbn [fold_right]. rewrite IH. lia.
Qed.

Lemma latest_last l : forall x d,
  (d <= x)%Z -> StronglySorted Z.le (x :: l) ->
  fold_right Z.max d (x :: l) = last (x :: l) x.
Proof.
  induction l as [|y l IH]; intros x d Hd S.
  - cbn [fold_right last]. lia.
  - inversion S as [|? ? S' F]; subst.
    inversion F as [|? ? Hxy F']; subst.
    change (fold_right Z.max d (x :: y :: l))
      with (Z.max x (fold_right Z.max d (y :: l))).
    rewrite (IH y d) by (try assumption; lia).
    change (last (x :: y :: l) x) with (last (y :: l) x).
    assert (L : forall a b, last (y :: l) a = last (y :: l) b)
      by (clear; revert y; induction l as [|z l IH]; intros y a b;
          [reflexivity|apply (IH z)]).
    rewrite (L x y).
    assert (I : In (last (y :: l) y) (y :: l)) by (apply last_In; discriminate).
    rewrite Forall_forall in F. specialize (F _ I). lia.
Qed.

Lemma last_map {A B} (f : A -> B) l : forall d,
  last (map f l) (f d) = f (last l d).
Proof.
  induction l as [|x l IH]; intros d; [reflexivity|].
  destruct l as [|y l]; [reflexivity|]. apply (IH d).
Qed.

(** When the years of a line never go back, its entry runs from the
    earliest to the latest. *)
Lemma entry_of_ascending_line line entry :
  entry_of_line line entry -> ascending line -> claimed_entry line entry.
Proof.
  intros (first & others & T & Es & Ee & _ & _ & D) A.
  unfold claimed_entry, ascending, years_of in *. rewrite T in *.
  change (map year_value (first :: others))
    with (year_value first :: map year_value others) in *.
  split; [|split; [|exact D]].
  - rewrite Es. unfold earliest. cbn [hd fold_right].
    inversion A as [|? ? _ F]; subst.
    rewrite (earliest_first _ _ F). lia.
  - rewrite Ee. unfold latest. cbn [hd].
    rewrite (latest_last _ _ _ (Z.le_refl _) A).
    change (year_value first :: map year_value others)
      with (map year_value (first :: others)).
    rewrite last_map. reflexivity.
Qed.

(** A line that names the year 2021 between 2018 and 2015. *)
Definition back_and_forth : string := "2018 2021 2015 Engineer".

(** C6, as stated, fails: the periods are the first and the last year of
    the line as it reads, not the earliest and the latest. The line names
    2018, 2021 and 2015: the entry runs from 2018 to 2015, thirty-six
    months below zero, while the earliest year is 2015 and the latest
    2021. *)
Lemma experience_periods_follow_reading_order :
  year_tokens back_and_forth = ["2018"; "2021"; "2015"]%string
  /\ map (fun e => (Experience.start_date e, Experience.end_date e,
                    Experience.duration_months e))
       (extractExperience back_and_forth)
     = [("2018"%string, "2015"%string, (-36)%float)]
  /\ earliest (years_of back_and_forth) = 2015%Z
  /\ latest (years_of back_and_forth) = 2021%Z
  /\ ~ Forall2 claimed_entry
         (firstn 5 (filter holds_year_token (split LF back_and_forth)))
         (extractExperience back_and_forth).
Proof.
  split; [vm_compute; reflexivity|].
  split; [vm_compute; reflexivity|].
  split; [vm_compute; reflexivity|].
  split; [vm_compute; reflexivity|].
  intros F.
  assert (L : firstn 5 (filter holds_year_token (split LF back_and_forth))
              = [back_and_forth]) by (vm_compute; reflexivity).
  rewrite L in F.
  destruct (extractExperience back_and_forth) as [|entry rest] eqn:E;
    [inversion F|].
  assert (S : Experience.start_date entry = "2018"%string).
  { change entry with (hd entry (entry :: rest)). rewrite <- E.
    vm_compute. reflexivity. }
  inversion F as [|? ? ? ? C _]; subst.
  destruct C as (C & _). rewrite S in C. vm_compute in C. discriminate C.
Qed.

(** C6, amended. The entries [extractExperience] returns are those of the
    first five lines that hold a year token, in order. The start period of
    an entry is the first year token of its line as it reads, its end
    period is the last one, both years are between 1900 and 2099, and
    [duration_months] is twelve times the end year minus the start year.
    When the years of the line never go back, these are the earliest and
    the latest year of the line. *)
Theorem extractExperience_entries :
  forall text : string,
    let qualifying := filter holds_year_token (split LF text) in
    Forall2 entry_of_line (firstn 5 qualifying) (extractExperience text)
    /\ Forall2 (fun line entry => ascending line -> claimed_entry line entry)
         (firstn 5 qualifying) (extractExperience text)
    /\ List.length (extractExperience text) = Nat.min 5 (List.length qualifying)
    /\ (List.length (extractExperience text) <= 5)%nat.
Proof.
  intros text qualifying.
  assert (F : Forall2 entry_of_line (firstn 5 qualifying) (extractExperience text)).
  { unfold extractExperience, slice. cbn [skipn Nat.sub]. cbv zeta.
    apply Forall2_firstn, experience_entries_lines. }
  assert (L : List.length (extractExperience text) = Nat.min 5 (List.length qualifying)).
  { rewrite <- (Forall2_length F). apply length_firstn. }
  split; [exact F|]. split; [|split; [exact L|lia]].
  clear L. induction F as [|line entry lines entries H _ IH]; constructor.
  - apply entry_of_ascending_line, H.
  - exact IH.
Qed.

(** ** C7: absent fields *)
















(** ** C8: nothing to rank *)

(** The candidate list or the profile is [undefined] or [null], or the
    candidate list is empty. *)
Definition nothing_to_rank {A B : Type} (candidates : nullable (list A))
  (cvData : nullable B) : bool :=
  negb (JS.present candidates) || negb (JS.present cvData)
  || match candidates with Val [] => true | _ => false end.

(** C8. When the candidate list or the profile is absent, or the candidate
    list is empty, [rankCompanies] and [rankProfiles] return the empty
    list and raise nothing. *)
Theorem ranking_nothing_to_rank :
  forall (companies : nullable (list Company.t))
         (profiles : nullable (list Person.t))
         (cvData : nullable CVData.t),
    (nothing_to_rank companies cvData = true ->
     rankCompanies companies cvData = Ok [])
    /\ (nothing_to_rank profiles cvData = true ->
        rankProfiles profiles cvData = Ok []).
Proof.
  intros companies profiles cvData. split; intros H.
  - destruct companies as [| |[|c cs]]; destruct cvData as [| |cv];
      try reflexivity; discriminate H.
  - destruct profiles as [| |[|p ps]]; destruct cvData as [| |cv];
      try reflexivity; discriminate H.
Qed.

Lemma ranking_nothing_to_rank_witness :
  rankCompanies Null (@Undefined CVData.t) = Ok []
  /\ rankProfiles (Val []) (@Null CVData.t) = Ok [].
Proof.
  split.
  - apply (proj1 (ranking_nothing_to_rank Null Null Undefined)). reflexivity.
  - apply (proj2 (ranking_nothing_to_rank Null (Val []) Null)). reflexivity.
Defined.

(** ** C9: duplicates *)

Lemma extracted_cvSkills_NoDup text :
  NoDup (ProfileScore.cvSkills (extractedData text)).
Proof.
  unfold ProfileScore.cvSkills. cbn [extractedData CVData.skills JS.or_default].
  rewrite <- (map_map Skill.name toLowerCase), extractSkills_names.
  apply NoDup_map_filter, nodupb_NoDup. vm_compute. reflexivity.
Qed.

Lemma getSharedSkills_NoDup profile cvData :
  NoDup (ProfileScore.cvSkills cvData) -> NoDup (getSharedSkills profile cvData).
Proof.
  intros H. unfold getSharedSkills, slice. cbn [skipn Nat.sub]. cbv zeta.
  apply NoDup_firstn, NoDup_filter, H.
Qed.

(** A profile with the skills Python and python: two entries that differ. *)
Definition Python_twice : CVData.t :=
  {| CVData.personal := Undefined;
     CVData.summary := Undefined;
     CVData.skills :=
       Val [ {| Skill.name := "Python"%string; Skill.category := "technical"%string |};
             {| Skill.name := "python"%string; Skill.category := "technical"%string |} ];
     CVData.experience := Undefined;
     CVData.education := Undefined;
     CVData.industries := Undefined;
     CVData.career_goals := Undefined;
     CVData.accuracy_score := Undefined |}.

Definition Python_person : Person.t :=
  {| Person.name := Undefined;
     Person.linkedin_url := Undefined;
     Person.current_role := Undefined;
     Person.current_company := Undefined;
     Person.location := Undefined;
     Person.headline := Undefined;
     Person.skills := Val ["Python"%string] |}.

(** C9, as stated, fails: ranking against a profile whose skills Python
    and python are two different entries lists the shared skill twice. *)
Lemma shared_skills_listed_twice :
  NoDup (JS.or_default (CVData.skills Python_twice) [])
  /\ exists r,
       rankProfiles (Val [Python_person]) (Val Python_twice) = Ok [r]
       /\ RankedProfile.shared_skills r = ["python"; "python"]%string
       /\ ~ NoDup (RankedProfile.shared_skills r).
Proof.
  split.
  - constructor; [simpl; intros [H|[]]; discriminate H|].
    constructor; [intros []|constructor].
  - eexists. split; [reflexivity|].
    split; [reflexivity|].
    intros H. inversion H as [|? ? Hin _]; subst. apply Hin. left. reflexivity.
Qed.

(** C9, amended. The skills and the industries of an extracted profile
    hold no duplicates, the names of its skills are distinct even when
    lower-cased, and ranking against a profile whose lower-cased skill
    names are distinct gives every result a [shared_skills] list without
    duplicates. *)
Theorem extraction_and_ranking_without_duplicates :
  forall text : string,
    NoDup (extractSkills text)
    /\ NoDup (map Skill.name (extractSkills text))
    /\ NoDup (extractIndustries text)
    /\ NoDup (ProfileScore.cvSkills (extractedData text))
    /\ (forall (profiles : list Person.t) (cvData : CVData.t),
          NoDup (ProfileScore.cvSkills cvData) ->
          exists out,
            rankProfiles (Val profiles) (Val cvData) = Ok out
            /\ Forall (fun r => NoDup (RankedProfile.shared_skills r)) out).
Proof.
  intros text.
  assert (N : NoDup (map Skill.name (extractSkills text))).
  { rewrite extractSkills_names. apply NoDup_filter, nodupb_NoDup.
    vm_compute. reflexivity. }
  split; [exact (NoDup_map_inv _ _ N)|].
  split; [exact N|].
  split; [apply NoDup_filter, nodupb_NoDup; vm_compute; reflexivity|].
  split; [apply extracted_cvSkills_NoDup|].
  intros profiles cvData H.
  eexists. split; [apply rankProfiles_present|].
  apply Array_sort_Forall, Forall_forall.
  intros r Hr. apply in_map_iff in Hr. destruct Hr as (p & <- & _).
  apply getSharedSkills_NoDup, H.
Qed.

Lemma extraction_and_ranking_without_duplicates_witness :
  exists out,
    rankProfiles (Val [Python_person]) (Val (extractedData "Python and AWS")) = Ok out
    /\ Forall (fun r => NoDup (RankedProfile.shared_skills r)) out.
Proof.
  apply (proj2 (proj2 (proj2 (proj2
           (extraction_and_ranking_without_duplicates "Python and AWS"))))).
  apply extracted_cvSkills_NoDup.
Defined.

(** ** C10: the location flag *)

(** A company whose location is the empty string. *)
Definition Nowhere : Company.t :=
  {| Company.name := Val "Nowhere Ltd"%string;
     Company.linkedin_url := Undefined;
     Company.industry := Undefined;
     Company.size := Undefined;
     Company.location := Val ""%string;
     Company.description := Undefined |}.

Lemma extracted_location text : cvLocation (extractedData text) = Null.
Proof. reflexivity. Qed.

(** C10, as stated, fails: for a company whose location is the empty
    string the flag is set, but the location term is zero, not [0.1]. *)
Lemma empty_location_earns_nothing :
  cvLocation (extractedData "Jane Doe") = Null
  /\ exists r,
       rankCompanies (Val [Nowhere]) (Val (extractedData "Jane Doe")) = Ok [r]
       /\ MatchingCriteria.location_match (RankedCompany.matching_criteria r) = true
       /\ CompanyTerms.location Nowhere (extractedData "Jane Doe") = 0
       /\ CompanyTerms.location Nowhere (extractedData "Jane Doe") <> 0.1.
Proof.
  split; [reflexivity|].
  exists (rankedCompany (extractedData "Jane Doe") Nowhere).
  split; [apply rankCompanies_present|].
  split; [reflexivity|].
  split; [reflexivity|].
  apply float_neq. reflexivity.
Qed.

Lemma includes_empty s : includes s "" = true.
Proof. destruct s; reflexivity. Qed.

(** C10, amended. [extractContactInfo] never finds a location. For a
    profile without a location and a company whose location is a string,
    [rankCompanies] sets [location_match]; the location term of the score
    is [0.1] when the string is not empty and [0] when it is, never
    [0.2]. *)
Theorem location_match_without_profile_location :
  forall (text : string) (companies : list Company.t) (cvData : CVData.t),
    Personal.location (extractContactInfo text) = Null
    /\ (JS.present (cvLocation cvData) = false ->
        exists out,
          rankCompanies (Val companies) (Val cvData) = Ok out
          /\ Forall
               (fun r =>
                  let company := RankedCompany.company r in
                  RankedCompany.match_score r
                  = round2 (Math_min (0 + CompanyTerms.industry company cvData
                                      + CompanyTerms.skills company cvData
                                      + CompanyTerms.location company cvData
                                      + CompanyTerms.size company) 1)
                  /\ forall s,
                       Company.location company = Val s ->
                       MatchingCriteria.location_match (RankedCompany.matching_criteria r)
                       = true
                       /\ CompanyTerms.location company cvData
                          = (if String.eqb s "" then 0 else 0.1)
                       /\ CompanyTerms.location company cvData <> 0.2)
               out).
Proof.
  intros text companies cvData. split; [reflexivity|].
  intros Hloc. eexists. split; [apply rankCompanies_present|].
  apply Array_sort_Forall, Forall_forall.
  intros r Hr. apply in_map_iff in Hr. destruct Hr as (c & <- & _).
  cbn [rankedCompany RankedCompany.company RankedCompany.match_score
       RankedCompany.matching_criteria].
  cbv zeta. split; [reflexivity|].
  intros s Hs.
  assert (T : CompanyTerms.location c cvData = (if String.eqb s "" then 0 else 0.1)).
  { unfold CompanyTerms.location, CompanyScore.locationMatch.
    destruct (cvLocation cvData) as [| |l]; try discriminate Hloc;
      rewrite Hs; cbn [JS.truthy_string andb]; destruct (String.eqb s ""); reflexivity. }
  split; [|split; [exact T|]].
  - unfold getCompanyMatchingCriteria. cbn [MatchingCriteria.location_match].
    rewrite Hs.
    destruct (cvLocation cvData) as [| |l]; try discriminate Hloc;
      cbn [JS.optcall JS.truthy_bool JS.string_or JS.truthy_string];
      apply includes_empty.
  - rewrite T. destruct (String.eqb s ""); apply float_neq; reflexivity.
Qed.

Lemma location_match_without_profile_location_witness :
  exists out,
    rankCompanies (Val [TechCorp; Nowhere]) (Val TechCorp_profile) = Ok out
    /\ Forall
         (fun r =>
            let company := RankedCompany.company r in
            RankedCompany.match_score r
            = round2 (Math_min (0 + CompanyTerms.industry company TechCorp_profile
                                + CompanyTerms.skills company TechCorp_profile
                                + CompanyTerms.location company TechCorp_profile
                                + CompanyTerms.size company) 1)
            /\ forall s,
                 Company.location company = Val s ->
                 MatchingCriteria.location_match (RankedCompany.matching_criteria r)
                 = true
                 /\ CompanyTerms.location company TechCorp_profile
                    = (if String.eqb s "" then 0 else 0.1)
                 /\ CompanyTerms.location company TechCorp_profile <> 0.2)
         out.
Proof.
  apply (proj2 (location_match_without_profile_location
                  ""%string [TechCorp; Nowhere] TechCorp_profile)).
  reflexivity.
Defined.

(* ================================================================= *)
(** * Part IV: further properties of the code *)
(* ================================================================= *)

Import RankingFacts TieFacts StringFacts JSMath Pages PagesFacts MatchFacts.
Import LineFacts PatternFacts ExtractionFacts FieldFacts CountFacts.

(** ** Ranking *)

(** The entry of the ranking is the candidate company with the score
    and the rationale the scoring functions give this company. *)
Definition company_entry (cvData : CVData.t) (r : RankedCompany.t) : Prop :=
  exists matchScore,
    calculateCompanyMatchScore (RankedCompany.company r) cvData = Ok matchScore
    /\ RankedCompany.match_score r = round2 matchScore
    /\ RankedCompany.matching_criteria r
       = getCompanyMatchingCriteria (RankedCompany.company r) cvData.

Definition profile_entry (cvData : CVData.t) (r : RankedProfile.t) : Prop :=
  RankedProfile.match_score r
  = round2 (calculateProfileMatchScore (RankedProfile.profile r) cvData)
  /\ RankedProfile.shared_skills r = getSharedSkills (RankedProfile.profile r) cvData
  /\ RankedProfile.shared_interests r
     = getSharedInterests (RankedProfile.profile r) cvData
  /\ RankedProfile.conversation_starter r
     = generateConversationStarter (RankedProfile.profile r) cvData.

(** X1. [rankCompanies] and [rankProfiles] rank exactly the candidates
    they are given, each as many times as it is given; and every entry of
    the result carries what the scoring functions give its own candidate:
    the score rounded to two decimals and the rationale of a company; the
    rounded score, the shared skills, the shared interests and the
    conversation starter of a person. *)
Theorem ranking_keeps_every_candidate :
  forall (companies : list Company.t) (profiles : list Person.t)
         (cvData : CVData.t),
    (exists out,
        rankCompanies (Val companies) (Val cvData) = Ok out
        /\ Permutation (map RankedCompany.company out) companies
        /\ Forall (company_entry cvData) out)
    /\ (exists out,
          rankProfiles (Val profiles) (Val cvData) = Ok out
          /\ Permutation (map RankedProfile.profile out) profiles
          /\ Forall (profile_entry cvData) out).
Proof.
  intros companies profiles cvData. split.
  - eexists. split; [apply rankCompanies_present|]. split.
    + eapply perm_trans; [apply Permutation_map, Array_sort_perm|].
      rewrite map_map. cbn [rankedCompany RankedCompany.company].
      rewrite map_id. apply Permutation_refl.
    + apply Array_sort_Forall, Forall_forall. intros r Hr.
      apply in_map_iff in Hr. destruct Hr as (c & <- & _).
      destruct (rankedCompany_source cvData c) as (s & E & ->).
      exists s. cbn. auto.
  - eexists. split; [apply rankProfiles_present|]. split.
    + eapply perm_trans; [apply Permutation_map, Array_sort_perm|].
      rewrite map_map. cbn [rankedProfile RankedProfile.profile].
      rewrite map_id. apply Permutation_refl.
    + apply Array_sort_Forall, Forall_forall. intros r Hr.
      apply in_map_iff in Hr. destruct Hr as (c & <- & _).
      repeat split.
Qed.

(** X2. Ranking is idempotent: the candidates of a ranking, handed back
    in the order of the ranking with the same profile, are ranked as they
    stand. *)
Theorem ranking_a_ranking_changes_nothing :
  forall (companies : list Company.t) (profiles : list Person.t)
         (cvData : CVData.t),
    (exists out,
        rankCompanies (Val companies) (Val cvData) = Ok out
        /\ rankCompanies (Val (map RankedCompany.company out)) (Val cvData) = Ok out)
    /\ (exists out,
          rankProfiles (Val profiles) (Val cvData) = Ok out
          /\ rankProfiles (Val (map RankedProfile.profile out)) (Val cvData) = Ok out).
Proof.
  intros companies profiles cvData. split.
  - eexists. split; [apply rankCompanies_present|].
    rewrite rankCompanies_present. f_equal.
    set (out := Array_sort company_order (map (rankedCompany cvData) companies)).
    assert (G : Forall company_on_grid out)
      by apply Array_sort_Forall, rankedCompanies_on_grid.
    rewrite map_map, map_fixed.
    + apply Array_sort_fixed with (P := company_on_grid) (R := company_ge).
      * intros x y Px Py Rxy. unfold company_order.
        rewrite (grid_sign _ _ Px Py). unfold company_ge in Rxy.
        rewrite Rxy. reflexivity.
      * exact G.
      * apply company_order_sorted, rankedCompanies_on_grid.
    + apply Array_sort_Forall, Forall_forall. intros r Hr.
      apply in_map_iff in Hr. destruct Hr as (c & <- & _). reflexivity.
  - eexists. split; [apply rankProfiles_present|].
    rewrite rankProfiles_present. f_equal.
    set (out := Array_sort profile_order (map (rankedProfile cvData) profiles)).
    assert (G : Forall profile_on_grid out)
      by apply Array_sort_Forall, rankedProfiles_on_grid.
    rewrite map_map, map_fixed.
    + apply Array_sort_fixed with (P := profile_on_grid) (R := profile_ge).
      * intros x y Px Py Rxy. unfold profile_order.
        rewrite (grid_sign _ _ Px Py). unfold profile_ge in Rxy.
        rewrite Rxy. reflexivity.
      * exact G.
      * apply profile_order_sorted, rankedProfiles_on_grid.
    + apply Array_sort_Forall, Forall_forall. intros r Hr.
      apply in_map_iff in Hr. destruct Hr as (c & <- & _). reflexivity.
Qed.

(** The number is [v], bit for bit. *)
Definition scored (v x : float) : bool := PrimFloat.Leibniz.eqb x v.

(** The company gets the score [v]. *)
Definition company_scored (cvData : CVData.t) (v : float) (company : Company.t) : bool :=
  match calculateCompanyMatchScore company cvData with
  | Ok matchScore => scored v (round2 matchScore)
  | Throw _ => false
  end.

Definition profile_scored (cvData : CVData.t) (v : float) (profile : Person.t) : bool :=
  scored v (round2 (calculateProfileMatchScore profile cvData)).

(** X3. Candidates of equal score keep the order in which they were
    given: for every number [v], the candidates of the result whose score
    is [v] are, in this order, the given candidates whose score is [v]. *)
Theorem equal_scores_keep_the_given_order :
  forall (companies : list Company.t) (profiles : list Person.t)
         (cvData : CVData.t) (v : float),
    (exists out,
        rankCompanies (Val companies) (Val cvData) = Ok out
        /\ map RankedCompany.company
             (filter (fun r => scored v (RankedCompany.match_score r)) out)
           = filter (company_scored cvData v) companies)
    /\ (exists out,
          rankProfiles (Val profiles) (Val cvData) = Ok out
          /\ map RankedProfile.profile
               (filter (fun r => scored v (RankedProfile.match_score r)) out)
             = filter (profile_scored cvData v) profiles).
Proof.
  intros companies profiles cvData v. split.
  - eexists. split; [apply rankCompanies_present|].
    rewrite Array_sort_ties with (P := company_on_grid).
    + rewrite filter_map, map_map. cbn [rankedCompany RankedCompany.company].
      rewrite map_id. apply filter_ext. intros c.
      unfold company_scored. rewrite calculateCompanyMatchScore_terms. reflexivity.
    + intros x y Px Py Ex Ey. unfold scored in Ex, Ey.
      apply FloatAxioms.Leibniz.eqb_spec in Ex, Ey.
      unfold company_order. rewrite (grid_sign _ _ Px Py).
      rewrite Ex, Ey, grid_refl; [reflexivity|].
      rewrite <- Ex. exact Px.
    + apply rankedCompanies_on_grid.
  - eexists. split; [apply rankProfiles_present|].
    rewrite Array_sort_ties with (P := profile_on_grid).
    + rewrite filter_map, map_map. cbn [rankedProfile RankedProfile.profile].
      rewrite map_id. reflexivity.
    + intros x y Px Py Ex Ey. unfold scored in Ex, Ey.
      apply FloatAxioms.Leibniz.eqb_spec in Ex, Ey.
      unfold profile_order. rewrite (grid_sign _ _ Px Py).
      rewrite Ex, Ey, grid_refl; [reflexivity|].
      rewrite <- Ex. exact Px.
    + apply rankedProfiles_on_grid.
Qed.

(** X4. The rationale of a company agrees with its score. The
    [matched_skills], lower-cased, are the first five of the skills the
    score counts ([matchingSkills]), so there are at most five of them; the
    explanation gives the number of all the skills the score counts, also
    when more than five match; [matched_industries] is empty exactly when
    the score finds no industry match; [size_preference] is the size of
    the company. *)
Theorem company_rationale_agrees_with_score :
  forall (company : Company.t) (cvData : CVData.t),
    let criteria := getCompanyMatchingCriteria company cvData in
    let counted := CompanyScore.matchingSkills company cvData in
    map toLowerCase (MatchingCriteria.matched_skills criteria) = firstn 5 counted
    /\ (List.length (MatchingCriteria.matched_skills criteria) <= 5)%nat
    /\ MatchingCriteria.explanation criteria
       = ("Matches " ++ length_text (List.length counted)
          ++ " of your key skills and operates in your target industry.")%string
    /\ (MatchingCriteria.matched_industries criteria = []
        <-> CompanyScore.industryMatch company cvData = false)
    /\ MatchingCriteria.size_preference criteria = Company.size company.
Proof.
  intros company cvData criteria counted.
  assert (E : map toLowerCase
                (filter (fun skill => includes (CompanyScore.companyText company)
                                        (toLowerCase skill))
                   (map Skill.name (JS.or_default (CVData.skills cvData) [])))
              = counted).
  { unfold counted, CompanyScore.matchingSkills, CompanyScore.cvSkills.
    rewrite <- (map_map Skill.name toLowerCase).
    rewrite (filter_map toLowerCase). reflexivity. }
  split; [|split; [|split; [|split]]].
  - unfold criteria, getCompanyMatchingCriteria, slice.
    cbn [MatchingCriteria.matched_skills skipn Nat.sub].
    rewrite <- E. symmetry. apply firstn_map.
  - unfold criteria, getCompanyMatchingCriteria, slice.
    cbn [MatchingCriteria.matched_skills skipn Nat.sub].
    apply firstn_le_length.
  - unfold criteria, getCompanyMatchingCriteria.
    cbn [MatchingCriteria.explanation].
    rewrite <- E, length_map. reflexivity.
  - unfold criteria, getCompanyMatchingCriteria.
    cbn [MatchingCriteria.matched_industries].
    unfold filter_truthy, CompanyScore.industryMatch, some, CompanyScore.cvIndustries.
    apply filter_nil_existsb.
  - reflexivity.
Qed.

(** X5. The rationale of a person agrees with its score. There are as
    many [shared_skills] as skills the score counts ([sharedCount]), but
    five at most; each is a lower-cased skill of the profile that is also a
    lower-cased skill of the candidate; [shared_interests] is empty exactly
    when the score finds no industry match. *)
Theorem person_rationale_agrees_with_score :
  forall (profile : Person.t) (cvData : CVData.t),
    let shared := getSharedSkills profile cvData in
    List.length shared = Nat.min 5 (ProfileScore.sharedCount profile cvData)
    /\ Forall (fun skill =>
                 In skill (ProfileScore.cvSkills cvData)
                 /\ In skill (ProfileScore.profileSkills profile)) shared
    /\ (getSharedInterests profile cvData = []
        <-> ProfileScore.industryMatch profile cvData = false).
Proof.
  intros profile cvData shared. split; [|split].
  - unfold shared, getSharedSkills, slice, ProfileScore.sharedCount.
    cbn [skipn Nat.sub]. apply length_firstn.
  - apply Forall_forall. intros skill H.
    unfold shared, getSharedSkills, slice in H. cbn [skipn Nat.sub] in H.
    apply In_firstn, filter_In in H. destruct H as [H1 H2].
    split; [exact H1|].
    unfold ProfileScore.array_includes in H2.
    apply existsb_exists in H2. destruct H2 as (t & Ht & E).
    apply String.eqb_eq in E. subst t. exact Ht.
  - unfold getSharedInterests, ProfileScore.industryMatch, ProfileScore.cvIndustries.
    rewrite existsb_map. apply filter_nil_existsb.
Qed.

(** The name by which [generateConversationStarter] greets: what stands
    before the first space of the name, or the word [undefined] for a
    candidate without a name. *)
Definition greeting_name (profile : Person.t) : string :=
  match Person.name profile with
  | Val name => before " " name
  | _ => "undefined"
  end.

Lemma firstName_greeting profile :
  JS.template (firstName profile) = greeting_name profile.
Proof.
  unfold firstName, greeting_name.
  destruct (Person.name profile) as [| |name]; try reflexivity.
  simpl. apply split_hd.
Qed.

Ltac includes_piece :=
  repeat first [ apply includes_refl_app | apply includes_app_r ].

(** X6. A conversation starter begins with [Hi], the text before the
    first space of the candidate's name and a comma; for a candidate whose
    name is [null] or missing it greets by the word [undefined]. It names
    the first shared skill when there is one, the first shared interest
    when there is one, and in every case the company of the candidate (as
    a template literal renders it). *)
Theorem conversation_starter_contents :
  forall (profile : Person.t) (cvData : CVData.t),
    let starter := generateConversationStarter profile cvData in
    (exists rest, starter = ("Hi " ++ greeting_name profile ++ "," ++ rest)%string)
    /\ (forall skill rest,
           getSharedSkills profile cvData = skill :: rest ->
           includes starter skill = true)
    /\ (forall interest rest,
           getSharedInterests profile cvData = interest :: rest ->
           includes starter interest = true)
    /\ includes starter (JS.template (Person.current_company profile)) = true.
Proof.
  intros profile cvData starter.
  unfold starter, generateConversationStarter. cbv zeta.
  rewrite firstName_greeting.
  destruct (getSharedSkills profile cvData) as [|skill skills];
    destruct (getSharedInterests profile cvData) as [|interest interests];
    (split; [|split; [|split]]);
    try (eexists; rewrite append_assoc; reflexivity);
    try (intros s r E; try discriminate E; inversion E; subst);
    includes_piece.
Qed.

(** ** The result pages *)

(** The badge of a score: the score is [n] hundredths, the badge shows
    the number [n] and has the class of [n]. *)
Definition badge (match_score : float) : Prop :=
  exists n : nat,
    (n <= 100)%nat
    /\ match_score = grid n
    /\ matchPercent match_score = of_length n
    /\ getScoreClass match_score = class_of_percent n.

(** X7. On the result pages, whatever the profile and the candidates,
    the badge of every ranked candidate shows a whole number [n] of percent
    between 0 and 100, the score being [n] hundredths; its class is
    [excellent] from 80 percent, [good] from 60, [fair] from 40 and [poor]
    below. *)
Theorem badge_of_a_ranked_candidate :
  forall (companies : nullable (list Company.t))
         (profiles : nullable (list Person.t))
         (cvData : nullable CVData.t),
    (exists out,
        rankCompanies companies cvData = Ok out
        /\ Forall (fun r => badge (RankedCompany.match_score r)) out)
    /\ (exists out,
          rankProfiles profiles cvData = Ok out
          /\ Forall (fun r => badge (RankedProfile.match_score r)) out).
Proof.
  intros companies profiles cvData. split.
  - destruct (rankCompanies_on_grid companies cvData) as (out & E & G).
    exists out. split; [exact E|].
    eapply Forall_impl; [|exact G]. intros r. apply badge_on_grid.
  - destruct (rankProfiles_on_grid profiles cvData) as (out & E & G).
    exists out. split; [exact E|].
    eapply Forall_impl; [|exact G]. intros r. apply badge_on_grid.
Qed.

Lemma five_checks (a b c d e : bool) :
  let checks := [a; b; c; d; e] in
  let n := List.length (filter (fun x : bool => x) checks) in
  let score := Math_min (of_length n / of_length (List.length checks) + 0.2) 1 in
  score = nth n [0.2; 0.4; 0.6000000000000001; 0.8; 1; 1] 1
  /\ accuracyPercent score = nth n [20; 40; 60; 80; 100; 100] 100
  /\ (n <= 5)%nat.
Proof.
  destruct a, b, c, d, e; vm_compute; repeat split; lia.
Qed.

(** X8. The accuracy score of a text takes five values only: [0.2],
    [0.4], [0.6000000000000001], [0.8] and [1] when none, one, two, three,
    and four or five of the checks succeed: the fifth check adds nothing.
    The upload page shows them as 20, 40, 60, 80 and 100 percent. *)
Theorem accuracy_score_values :
  forall text : string,
    let n := count_true (accuracy_checks text) in
    calculateAccuracyScore text = nth n [0.2; 0.4; 0.6000000000000001; 0.8; 1; 1] 1
    /\ accuracyPercent (calculateAccuracyScore text)
       = nth n [20; 40; 60; 80; 100; 100] 100
    /\ (n <= 5)%nat.
Proof.
  intros text. unfold calculateAccuracyScore, accuracy_checks, count_true.
  apply five_checks.
Qed.

Local Open Scope string_scope.

(** ** The score and the extractors *)

(** X9. The checks of the accuracy score and the contact details that
    are extracted. When an address is extracted, the check for [@]
    succeeds; when the check for a phone number succeeds, a phone number
    is extracted; when a LinkedIn link is extracted, the check for
    [linkedin.com] succeeds. *)
Theorem contact_signals_and_extraction :
  forall text : string,
    let checks := accuracy_checks text in
    let personal := extractContactInfo text in
    (Personal.email personal <> Null -> nth 0 checks false = true)
    /\ (nth 1 checks false = true -> Personal.phone personal <> Null)
    /\ (Personal.linkedin_url personal <> Null -> nth 2 checks false = true).
Proof.
  intros text checks personal. unfold checks. rewrite accuracy_checks_signals.
  cbn [signals nth]. split; [|split].
  - unfold personal, extractContactInfo. cbn [Personal.email]. intros H.
    destruct (match_first emailRegex text) as [| |m] eqn:M; try (contradiction H; reflexivity).
    apply match_first_sound in M. destruct M as [(b & a & ->) D].
    apply derives_emailRegex in D. destruct D as (l & d & t & -> & _).
    unfold has_at. rewrite !append_assoc, <- (append_assoc b).
    apply includes_app.
  - intros H. unfold personal, extractContactInfo. cbn [Personal.phone].
    assert (T : test phoneRegex text = true).
    { rewrite (test_any_suffix _ (accepts phoneRegex stop)).
      - eapply any_suffix_impl; [|exact H]. apply phone_at_phoneRegex.
      - intros prev t. apply matches_accepts. reflexivity. }
    unfold test in T. unfold match_first.
    destruct (search phoneRegex None text) as [[[b m] a]|]; [|discriminate T].
    intros E. discriminate E.
  - unfold personal, extractContactInfo. cbn [Personal.linkedin_url]. intros H.
    destruct (match_first linkedinRegex text) as [| |m] eqn:M; try (contradiction H; reflexivity).
    apply match_first_sound in M. destruct M as [(b & a & ->) D].
    apply derives_linkedinRegex in D. destruct D as (host & slug & -> & E & _).
    unfold has_linkedin. rewrite !toLowerCase_app, E.
    apply includes_app_r, includes_app_l, includes_app_l. reflexivity.
Qed.

(** X10. The checks of the accuracy score and the entries that are
    extracted. When an experience entry is extracted, the check for a year
    succeeds; when the check for a degree succeeds, an education entry is
    extracted. *)
Theorem section_signals_and_extraction :
  forall text : string,
    let checks := accuracy_checks text in
    (extractExperience text <> [] -> nth 3 checks false = true)
    /\ (nth 4 checks false = true -> extractEducation text <> []).
Proof.
  intros text checks. unfold checks. rewrite accuracy_checks_signals.
  cbn [signals nth]. split.
  - unfold extractExperience, slice. cbn [skipn Nat.sub]. cbv zeta. intros H.
    apply firstn_nil_inv, experience_entries_line in H.
    destruct H as (line & first & others & Hl & M).
    apply match_all_search in M. destruct M as (b & a & S).
    pose proof (search_yearRegex _ _ _ _ _ S) as Y.
    apply search_sound in S. destruct S as [-> _].
    apply split_In in Hl. destruct Hl as (p & q & ->).
    unfold has_year. rewrite !append_assoc, <- (append_assoc p).
    apply any_suffix_app, year_token_year_at, Y.
  - unfold has_degree. intros H. apply existsb_exists in H.
    destruct H as (k & Hk & I).
    assert (L : lacks LF k = true)
      by (destruct Hk as [<-|[<-|[<-|[]]]]; reflexivity).
    destruct (includes_line k text L I) as (line & Hl & Il).
    unfold extractEducation, slice. cbn [skipn Nat.sub].
    apply firstn_not_nil. apply (education_entries_line _ line Hl).
    apply existsb_exists. exists k. split; [|exact Il].
    destruct Hk as [<-|[<-|[<-|[]]]]; simpl; auto.
Qed.

(** ** The fields of a profile *)

(** The keywords of [extractCareerGoals]. *)
Definition goalKeywords : list string :=
  ["seeking"; "looking for"; "interested in"; "goal"; "objective"].

Definition holds_goal (line : string) : bool :=
  existsb (fun keyword => includes (toLowerCase line) keyword) goalKeywords.

Lemma extractCareerGoals_line text :
  (Forall (fun l => holds_goal l = false) (split LF text)
   /\ extractCareerGoals text = "Seeking new opportunities")
  \/ exists before line after,
       split LF text = (before ++ line :: after)%list
       /\ Forall (fun l => holds_goal l = false) before
       /\ holds_goal line = true
       /\ extractCareerGoals text = trim line.
Proof.
  unfold extractCareerGoals. cbv zeta.
  generalize (split LF text) as lines. intros lines.
  induction lines as [|l rest IH]; [left; split; [constructor|reflexivity]|].
  fold goalKeywords in *. fold (holds_goal l).
  destruct (holds_goal l) eqn:G.
  - right. exists [], l, rest.
    split; [reflexivity|]. split; [constructor|]. split; [exact G|reflexivity].
  - destruct IH as [[F IH]|(before & line & after & E & F & Hg & IH)].
    + left. split; [constructor; assumption|exact IH].
    + right. exists (l :: before), line, after.
      split; [rewrite E; reflexivity|]. split; [constructor; assumption|].
      split; [exact Hg|exact IH].
Qed.

(** X11. The career goals of a text hold one of the goal keywords, in
    any letter case: they are the first line that holds one, trimmed, or
    the sentence [Seeking new opportunities] when no line does. *)
Theorem career_goals_hold_a_goal_keyword :
  forall text : string,
    holds_goal (extractCareerGoals text) = true
    /\ ((Forall (fun l => holds_goal l = false) (split LF text)
         /\ extractCareerGoals text = "Seeking new opportunities")
        \/ exists before line after,
             split LF text = (before ++ line :: after)%list
             /\ Forall (fun l => holds_goal l = false) before
             /\ holds_goal line = true
             /\ extractCareerGoals text = trim line).
Proof.
  intros text. split; [|apply extractCareerGoals_line].
  destruct (extractCareerGoals_line text)
    as [[_ ->]|(before & line & after & _ & _ & G & ->)]; [reflexivity|].
  unfold holds_goal in *. apply existsb_exists in G.
  destruct G as (k & Hk & I). apply existsb_exists. exists k.
  split; [exact Hk|]. apply keyword_in_trimmed; [|exact I].
  destruct Hk as [<-|[<-|[<-|[<-|[<-|[]]]]]]; reflexivity.
Qed.

(** The line holds a degree keyword, in any letter case. *)
Definition holds_degree (line : string) : bool :=
  existsb (fun keyword => includes (toLowerCase line) keyword) degreeKeywords.

Lemma holds_degree_trimmed line :
  holds_degree line = true -> trim line <> "".
Proof.
  unfold holds_degree. intros H. apply existsb_exists in H.
  destruct H as (k & Hk & I). apply (keyword_in_trimmed line k); [|exact I].
  destruct Hk as [<-|[<-|[<-|[<-|[<-|[<-|[<-|[<-|[]]]]]]]]]; reflexivity.
Qed.

(** The carriage return, and the characters that end a line: line feed
    and carriage return. *)
Definition CR : ascii := ascii_of_N 13.

Definition line_end (c : ascii) : bool := Ascii.eqb c LF || Ascii.eqb c CR.

Lemma line_end_lacks c d :
  line_end c = true -> lacks LF d = true -> lacks CR d = true -> lacks c d = true.
Proof.
  unfold line_end. intros H L R. apply orb_prop in H.
  destruct H as [H|H]; apply Ascii.eqb_eq in H; subst; assumption.
Qed.

Ltac default_lacks E := apply (line_end_lacks _ _ E); reflexivity.

Lemma experience_entries_fields c lines :
  line_end c = true ->
  Forall (fun l => lacks c l = true) lines ->
  Forall (fun e => Experience.job_title e <> ""
                   /\ Experience.company e = "Company"
                   /\ lacks c (Experience.job_title e) = true
                   /\ lacks c (Experience.description e) = true)
    (experience_entries lines).
Proof.
  intros E.
  induction 1 as [|line rest Hl Hrest IH]; cbn [experience_entries]; [constructor|].
  destruct (match_all yearRegex line) as [| |[|first others]]; try exact IH.
  constructor; [|exact IH].
  cbn [Experience.job_title Experience.company Experience.description].
  split; [apply string_or_not_empty; discriminate|].
  split; [reflexivity|]. split.
  - apply string_or_lacks; [default_lacks E|].
    apply lacks_trim, split_first_lacks, Hl.
  - apply next_line_or_lacks; [default_lacks E|exact Hrest].
Qed.

Lemma education_entries_fields c lines :
  line_end c = true ->
  Forall (fun l => lacks c l = true) lines ->
  Forall (fun e => Education.degree e <> ""
                   /\ Education.institution e <> ""
                   /\ lacks c (Education.degree e) = true
                   /\ lacks c (Education.institution e) = true)
    (education_entries lines).
Proof.
  intros E.
  induction 1 as [|line rest Hl Hrest IH]; cbn [education_entries]; [constructor|].
  cbv zeta. fold (holds_degree line).
  destruct (holds_degree line) eqn:D; [|exact IH].
  constructor; [|exact IH].
  cbn [Education.degree Education.institution].
  split; [apply holds_degree_trimmed, D|].
  split; [apply string_or_not_empty; discriminate|].
  split; [apply lacks_trim, Hl|].
  apply next_line_or_lacks; [default_lacks E|exact Hrest].
Qed.

Lemma extractSummary_lacks c text :
  line_end c = true ->
  Forall (fun l => lacks c l = true) (split LF text) ->
  lacks c (extractSummary text) = true.
Proof.
  intros E. unfold extractSummary. cbv zeta.
  generalize (split LF text) as lines. intros lines L.
  match goal with
  | |- lacks _ match ?loop lines with _ => _ end = true =>
      assert (H : forall ls, Forall (fun l => lacks c l = true) ls ->
                  match loop ls with
                  | Some s => lacks c s = true
                  | None => True
                  end)
  end.
  { induction 1 as [|l rest Hl Hrest IH]; [exact I|].
    destruct (existsb _ _); [|exact IH].
    apply lacks_trim, lacks_join; [default_lacks E|].
    apply Forall_firstn, Hrest. }
  specialize (H lines L).
  destruct ((fix loop (ls : list string) : option string := _) lines).
  - exact H.
  - apply lacks_trim, lacks_join; [default_lacks E|].
    unfold slice. apply Forall_firstn, Forall_skipn, L.
Qed.

Lemma extractContactInfo_name_lacks c text :
  line_end c = true ->
  Forall (fun l => lacks c l = true) (split LF text) ->
  lacks c (Personal.name (extractContactInfo text)) = true.
Proof.
  intros E L. unfold extractContactInfo. cbv zeta. cbn [Personal.name].
  apply string_or_lacks; [default_lacks E|].
  assert (F : Forall (fun l => lacks c l = true)
                (filter (fun line => (0 <? String.length (trim line))%nat)
                   (split LF text))).
  { apply Forall_forall. intros l Hl. apply filter_In in Hl.
    rewrite Forall_forall in L. apply L, Hl. }
  destruct F as [|l ls Hl _]; simpl; [exact I|].
  apply lacks_trim, Hl.
Qed.

Lemma extractCareerGoals_lacks c text :
  line_end c = true ->
  Forall (fun l => lacks c l = true) (split LF text) ->
  lacks c (extractCareerGoals text) = true.
Proof.
  intros Ec L.
  destruct (extractCareerGoals_line text)
    as [[_ ->]|(before & line & after & E & _ & _ & ->)]; [default_lacks Ec|].
  apply lacks_trim. rewrite Forall_forall in L. apply L. rewrite E.
  apply in_or_app. right. left. reflexivity.
Qed.

(** X12. Fields that are never empty: the name of the contact details;
    the title of every experience entry, whose company is always the word
    [Company]; the degree and the institution of every education entry;
    the career goals. *)
Theorem extracted_fields_are_never_empty :
  forall text : string,
    Personal.name (extractContactInfo text) <> ""
    /\ Forall (fun e => Experience.job_title e <> ""
                        /\ Experience.company e = "Company")
         (extractExperience text)
    /\ Forall (fun e => Education.degree e <> "" /\ Education.institution e <> "")
         (extractEducation text)
    /\ extractCareerGoals text <> "".
Proof.
  intros text. split; [|split; [|split]].
  - unfold extractContactInfo. cbv zeta. cbn [Personal.name].
    apply string_or_not_empty. discriminate.
  - unfold extractExperience, slice. cbn [skipn Nat.sub]. cbv zeta.
    apply Forall_firstn.
    eapply Forall_impl;
      [|apply (experience_entries_fields LF); [reflexivity|apply split_lacks]].
    intros e (H1 & H2 & _). split; assumption.
  - unfold extractEducation, slice. cbn [skipn Nat.sub].
    apply Forall_firstn.
    eapply Forall_impl;
      [|apply (education_entries_fields LF); [reflexivity|apply split_lacks]].
    intros e (H1 & H2 & _). split; assumption.
  - destruct (extractCareerGoals_line text)
      as [[_ ->]|(before & line & after & _ & _ & G & ->)]; [discriminate|].
    unfold holds_goal in G. apply existsb_exists in G.
    destruct G as (k & Hk & I). apply (keyword_in_trimmed line k); [|exact I].
    destruct Hk as [<-|[<-|[<-|[<-|[<-|[]]]]]]; reflexivity.
Qed.

(** The field is a single line of the text: it holds no line feed, and
    no carriage return either when the text holds none. *)
Definition single_line (text field : string) : Prop :=
  lacks LF field = true /\ (lacks CR text = true -> lacks CR field = true).

(** A text with the line ends of Windows: carriage return, line feed. *)
Definition windows_text : string :=
  "Summary" ++ String CR (String LF "") ++ "A" ++ String CR (String LF "") ++ "B".

(** What the fields hold of the end of a line, whichever of the two
    characters it is, when the lines of the text hold none. *)
Lemma fields_lack c text :
  line_end c = true ->
  Forall (fun l => lacks c l = true) (split LF text) ->
  lacks c (Personal.name (extractContactInfo text)) = true
  /\ lacks c (extractSummary text) = true
  /\ lacks c (extractCareerGoals text) = true
  /\ Forall (fun e => lacks c (Experience.job_title e) = true
                      /\ lacks c (Experience.description e) = true)
       (extractExperience text)
  /\ Forall (fun e => lacks c (Education.degree e) = true
                      /\ lacks c (Education.institution e) = true)
       (extractEducation text).
Proof.
  intros E L.
  split; [apply extractContactInfo_name_lacks; assumption|].
  split; [apply extractSummary_lacks; assumption|].
  split; [apply extractCareerGoals_lacks; assumption|]. split.
  - unfold extractExperience, slice. cbn [skipn Nat.sub]. cbv zeta.
    apply Forall_firstn.
    eapply Forall_impl; [|apply (experience_entries_fields c); assumption].
    intros e (_ & _ & H). exact H.
  - unfold extractEducation, slice. cbn [skipn Nat.sub].
    apply Forall_firstn.
    eapply Forall_impl; [|apply (education_entries_fields c); assumption].
    intros e (_ & _ & H). exact H.
Qed.

(** X13. The lines of a text end at line feeds only. The name, the
    summary, the career goals, the title and the description of every
    experience entry, the degree and the institution of every education
    entry hold no line feed; they hold no carriage return when the text
    holds none. A carriage return of the text can stay within a field:
    the summary of a text with the line ends of Windows holds one. *)
Theorem extracted_fields_are_single_lines :
  forall text : string,
    single_line text (Personal.name (extractContactInfo text))
    /\ single_line text (extractSummary text)
    /\ single_line text (extractCareerGoals text)
    /\ Forall (fun e => single_line text (Experience.job_title e)
                        /\ single_line text (Experience.description e))
         (extractExperience text)
    /\ Forall (fun e => single_line text (Education.degree e)
                        /\ single_line text (Education.institution e))
         (extractEducation text)
    /\ extractSummary windows_text = "A" ++ String CR " B".
Proof.
  intros text.
  destruct (fields_lack LF text eq_refl (split_lacks LF text))
    as (N & S & G & X & D).
  assert (R : lacks CR text = true ->
              lacks CR (Personal.name (extractContactInfo text)) = true
              /\ lacks CR (extractSummary text) = true
              /\ lacks CR (extractCareerGoals text) = true
              /\ Forall (fun e => lacks CR (Experience.job_title e) = true
                                  /\ lacks CR (Experience.description e) = true)
                   (extractExperience text)
              /\ Forall (fun e => lacks CR (Education.degree e) = true
                                  /\ lacks CR (Education.institution e) = true)
                   (extractEducation text)).
  { intros H. apply (fields_lack CR text eq_refl), split_keeps_lacks, H. }
  unfold single_line.
  split; [split; [exact N|apply R]|].
  split; [split; [exact S|apply R]|].
  split; [split; [exact G|apply R]|].
  split; [|split; [|vm_compute; reflexivity]].
  - assert (F : Forall (fun e => lacks CR text = true ->
                                 lacks CR (Experience.job_title e) = true
                                 /\ lacks CR (Experience.description e) = true)
                  (extractExperience text))
      by (apply Forall_under; apply R).
    eapply Forall_impl; [|apply (Forall_both _ _ _ X F)].
    intros e ((L1 & L2) & C). split; (split; [assumption|intros H; apply (C H)]).
  - assert (F : Forall (fun e => lacks CR text = true ->
                                 lacks CR (Education.degree e) = true
                                 /\ lacks CR (Education.institution e) = true)
                  (extractEducation text))
      by (apply Forall_under; apply R).
    eapply Forall_impl; [|apply (Forall_both _ _ _ D F)].
    intros e ((L1 & L2) & C). split; (split; [assumption|intros H; apply (C H)]).
Qed.






Lemma includes_lower s k :
  includes s k = true -> includes (toLowerCase s) (toLowerCase k) = true.
Proof.
  intros H. apply includes_split in H. destruct H as (p & q & ->).
  rewrite !toLowerCase_app. apply includes_app.
Qed.

(** X15. Skills are found as parts of words: whenever a skill of the
    vocabulary is found, every skill of the vocabulary that is a part of
    its name is found with it. So [java] comes with [javascript], [sql]
    with [postgresql], and [go] with [mongodb] and with [negotiation]. *)
Theorem skill_found_within_a_skill :
  forall (text inner outer : string),
    In inner (TECHNICAL_SKILLS ++ SOFT_SKILLS) ->
    includes outer inner = true ->
    In outer (map Skill.name (extractSkills text)) ->
    In inner (map Skill.name (extractSkills text)).
Proof.
  intros text inner outer Hin Hsub Hout.
  rewrite extractSkills_names in *.
  apply filter_In in Hout. destruct Hout as [_ Hout].
  apply filter_In. split; [exact Hin|].
  eapply includes_trans; [exact Hout|]. apply includes_lower, Hsub.
Qed.

Lemma skill_found_within_a_skill_witness :
  In "java" (map Skill.name (extractSkills "Ten years of JavaScript"))
  /\ In "go" (map Skill.name (extractSkills "Skilled in negotiation")).
Proof.
  split.
  - apply (skill_found_within_a_skill "Ten years of JavaScript" "java" "javascript").
    + simpl. auto.
    + reflexivity.
    + vm_compute. auto.
  - apply (skill_found_within_a_skill "Skilled in negotiation" "go" "negotiation").
    + simpl. auto 12.
    + reflexivity.
    + vm_compute. auto.
Defined.

(** X16. A phone number that is extracted is a part of the text; it
    holds between ten and thirteen digits, and besides digits only [+],
    parentheses, [-], [.] and white space. *)
Theorem extracted_phone_has_ten_to_thirteen_digits :
  forall text phone : string,
    Personal.phone (extractContactInfo text) = Val phone ->
    (exists before after, text = (before ++ phone ++ after)%string)
    /\ (10 <= count is_digit phone <= 13)%nat
    /\ all phone_char phone = true.
Proof.
  intros text phone H.
  unfold extractContactInfo in H. cbn [Personal.phone] in H.
  destruct (match_first phoneRegex text) as [| |m] eqn:M; try discriminate H.
  cbv beta iota in H. injection H as E. subst m.
  apply match_first_sound in M. destruct M as [P D].
  split; [exact P|]. split; [apply phoneRegex_digits, D|].
  eapply all_impl; [apply phoneRegex_class|]. apply derives_in_class, D.
Qed.

Lemma extracted_phone_has_ten_to_thirteen_digits_witness :
  (exists before after,
      "Call +1 (555) 123-4567 today" = (before ++ "+1 (555) 123-4567" ++ after)%string)
  /\ (10 <= count is_digit "+1 (555) 123-4567" <= 13)%nat
  /\ all phone_char "+1 (555) 123-4567" = true.
Proof.
  apply (extracted_phone_has_ten_to_thirteen_digits "Call +1 (555) 123-4567 today").
  vm_compute. reflexivity.
Defined.




(** *** Blank texts and longer texts *)

Import TextFacts.

(** X26. From a text of white space only (spaces, tabs, line breaks),
    also from the empty text, the parser extracts the default profile: the
    name [Unknown], no email, phone or LinkedIn link, an empty summary, no
    skills, experience, education or industries, the career goals
    [Seeking new opportunities], and the accuracy score [0.2]. *)
Theorem blank_text_gives_the_default_profile (text : string) :
  all is_space text = true ->
  extractContactInfo text =
    {| Personal.name := "Unknown"; Personal.email := Null; Personal.phone := Null;
       Personal.linkedin_url := Null; Personal.location := Null |} /\
  extractSummary text = "" /\
  extractSkills text = [] /\
  extractExperience text = [] /\
  extractEducation text = [] /\
  extractIndustries text = [] /\
  extractCareerGoals text = "Seeking new opportunities" /\
  calculateAccuracyScore text = 0.2%float.
Proof.
  intros B. change (blank text = true) in B.
  repeat split.
  - pose proof (blank_name text B) as N. unfold extractContactInfo in *.
    cbv zeta in *. cbn [Personal.name] in N. rewrite N.
    rewrite (blank_match_first Parser.emailRegex text) by (try exact B; vm_compute; lia).
    rewrite (blank_match_first phoneRegex text) by (try exact B; vm_compute; lia).
    rewrite (blank_match_first linkedinRegex text) by (try exact B; vm_compute; lia).
    reflexivity.
  - apply blank_summary, B.
  - unfold extractSkills. cbv zeta.
    rewrite !blank_filter by (try exact B; reflexivity). reflexivity.
  - unfold extractExperience. cbv zeta.
    rewrite (blank_experience _ (blank_lines text B)). reflexivity.
  - unfold extractEducation.
    rewrite (blank_education _ (blank_lines text B)). reflexivity.
  - unfold extractIndustries. cbv zeta.
    rewrite blank_filter by (try exact B; reflexivity). reflexivity.
  - apply blank_career_goals, B.
  - unfold calculateAccuracyScore, accuracy_checks. cbv zeta.
    rewrite (blank_includes text "@") by (try exact B; reflexivity).
    rewrite !blank_test by (try exact B; vm_compute; lia).
    vm_compute. reflexivity.
Qed.

Lemma blank_text_gives_the_default_profile_witness :
  all is_space (" " ++ String LF "  ") = true /\
  calculateAccuracyScore (" " ++ String LF "  ") = 0.2%float.
Proof.
  split; [reflexivity|].
  apply (blank_text_gives_the_default_profile (" " ++ String LF "  ")).
  reflexivity.
Defined.

(** X27. Text added before and after a text never lowers the accuracy
    score, and every skill and every industry found in the text is found
    in the longer text. *)
Theorem text_around_a_cv_never_lowers_what_is_found (before text after : string) :
  (calculateAccuracyScore text
     <=? calculateAccuracyScore (before ++ text ++ after))%float = true /\
  incl (extractSkills text) (extractSkills (before ++ text ++ after)) /\
  incl (extractIndustries text) (extractIndustries (before ++ text ++ after)).
Proof.
  split; [|split].
  - unfold calculateAccuracyScore. cbv zeta. rewrite !accuracy_checks_signals.
    apply five_checks_longer, signals_longer.
  - unfold extractSkills. cbv zeta. cbn [app].
    intros s H. apply in_app_or in H. apply in_or_app.
    destruct H as [H|H]; [left|right]; apply in_map_iff in H;
      destruct H as (k & <- & Hk);
      apply (in_map (fun skill => {| Skill.name := skill; Skill.category := _ |}));
      apply filter_In in Hk;
      destruct Hk as [Hk I]; apply filter_In; (split; [exact Hk|]);
      apply includes_lower_longer, I.
  - unfold extractIndustries. cbv zeta.
    intros s H. apply filter_In in H. destruct H as [Hk I].
    apply filter_In. split; [exact Hk|]. apply includes_lower_longer, I.
Qed.

(** ** Extraction and validation *)

Import Constants Validation ValidationFacts.

(** X18. An address that is extracted is a part of the text; it has a
    local part, [@], a domain, a dot and two characters or more after it,
    each of the class of its place; and [validateEmail] accepts it. *)
Theorem extracted_email_is_a_valid_address :
  forall text email : string,
    Personal.email (extractContactInfo text) = Val email ->
    (exists before after, text = (before ++ email ++ after)%string)
    /\ email_shape email
    /\ validateEmail (Val email) = {| valid := true; error := Null |}.
Proof.
  intros text email H.
  unfold extractContactInfo in H. cbn [Personal.email] in H.
  destruct (match_first Parser.emailRegex text) as [| |m] eqn:M; try discriminate H.
  cbv beta iota in H. injection H as E. subst m.
  apply match_first_sound in M. destruct M as [P D].
  apply derives_emailRegex in D.
  split; [exact P|]. split; [exact D|].
  destruct (email_shape_valid email D) as [T E].
  unfold validateEmail. cbn [JS.truthy_string JS.or_default].
  rewrite E, T.
  destruct D as (l & d & t & -> & Nl & _).
  destruct l as [|c l]; [contradiction|]. reflexivity.
Qed.

Lemma extracted_email_is_a_valid_address_witness :
  (exists before after,
      "Jane Doe <jane.doe@example.com>, Berlin"
      = (before ++ "jane.doe@example.com" ++ after)%string)
  /\ email_shape "jane.doe@example.com"
  /\ validateEmail (Val "jane.doe@example.com")
     = {| valid := true; error := Null |}.
Proof.
  apply (extracted_email_is_a_valid_address
           "Jane Doe <jane.doe@example.com>, Berlin" "jane.doe@example.com").
  vm_compute. reflexivity.
Defined.

Lemma not_w x : lower_char x = "l"%char -> Ascii.eqb "w" x = false.
Proof.
  intros H. apply Ascii.eqb_neq. intros <-. discriminate H.
Qed.

(** X19. A LinkedIn link that is extracted is [https://] followed by
    [linkedin.com/in/], in the letter case of the text, and a name of
    letters, digits and [-]. It does not start with
    [https://www.linkedin.com/in/]: [validateLinkedInProfileURL] rejects
    every link that is extracted. *)
Theorem extracted_linkedin_url_is_never_valid :
  forall text url : string,
    Personal.linkedin_url (extractContactInfo text) = Val url ->
    (exists host slug,
        url = ("https://" ++ host ++ slug)%string
        /\ toLowerCase host = "linkedin.com/in/"
        /\ slug <> "" /\ all linkedin_slug slug = true)
    /\ validateLinkedInProfileURL (Val url)
       = {| valid := false;
            error := Val "Invalid LinkedIn profile URL. Must start with https://www.linkedin.com/in/" |}.
Proof.
  intros text url H.
  unfold extractContactInfo in H. cbn [Personal.linkedin_url] in H.
  destruct (match_first linkedinRegex text) as [| |m] eqn:M; try discriminate H.
  cbv beta iota in H. injection H as E. subst url.
  apply match_first_sound in M. destruct M as [_ D].
  apply derives_linkedinRegex in D. destruct D as (host & slug & -> & L & N & A).
  split; [exists host, slug; auto|].
  unfold validateLinkedInProfileURL. cbn [JS.truthy_string JS.or_default].
  cbn [append String.eqb negb].
  replace (test_at_start LINKEDIN_PATTERNS_PROFILE _) with false; [reflexivity|].
  symmetry. change test_at_start with (fun r s => matches r None s). cbv beta.
  rewrite matches_accepts by reflexivity.
  unfold LINKEDIN_PATTERNS_PROFILE. rewrite accepts_lit.
  destruct host as [|x host']; [discriminate L|].
  cbn [toLowerCase] in L. injection L as Lx _.
  cbn [append literal_then]. rewrite !Ascii.eqb_refl. cbn [andb].
  rewrite (not_w x Lx). reflexivity.
Qed.

Lemma extracted_linkedin_url_is_never_valid_witness :
  (exists host slug,
      "https://LinkedIn.com/in/jane-doe" = ("https://" ++ host ++ slug)%string
      /\ toLowerCase host = "linkedin.com/in/"
      /\ slug <> "" /\ all linkedin_slug slug = true)
  /\ validateLinkedInProfileURL (Val "https://LinkedIn.com/in/jane-doe")
     = {| valid := false;
          error := Val "Invalid LinkedIn profile URL. Must start with https://www.linkedin.com/in/" |}.
Proof.
  apply (extracted_linkedin_url_is_never_valid
           "Jane Doe, LinkedIn.com/in/jane-doe" "https://LinkedIn.com/in/jane-doe").
  vm_compute. reflexivity.
Defined.

(** ** Files *)

Import Storage ParseCV FileFacts.

(** X20. [parseCV] answers [Unsupported file type] exactly for the files
    whose type is none of the three allowed types, whatever the libraries
    read. A file that [validateCVFile] accepts has at most 5 * 1024 * 1024
    bytes, one of the three allowed types, and a name that ends, after its
    last dot and in any letter case, with [pdf], [docx] or [txt] (for a
    name without dot, the name itself is one of them); so [parseCV] never
    answers [Unsupported file type] for it. *)
Theorem validated_files_have_a_supported_type :
  forall (pdf_pages : File.t -> outcome (list (list string)))
         (docx_value file_text : File.t -> outcome string)
         (TypeError_message : string) (file : File.t),
    let parsed := parseCV pdf_pages docx_value file_text TypeError_message (Val file) in
    (parse_error parsed = Val "Unsupported file type" <-> type_allowed file = false)
    /\ (Validation.valid (validateCVFile (Val file)) = true ->
        (File.size file <= 5 * 1024 * 1024)%N
        /\ type_allowed file = true
        /\ In (extension (File.name file)) ["pdf"; "docx"; "txt"]).
Proof.
  intros pdf_pages docx_value file_text msg file parsed. split.
  - unfold parsed, parseCV, type_allowed, Array_includes,
      extractTextFromPDF, extractTextFromDOCX.
    cbn [existsb]. rewrite orb_false_r.
    destruct (String.eqb (File.type file) ALLOWED_FILE_TYPES_PDF).
    { destruct (pdf_pages file); cbn; split; discriminate. }
    destruct (String.eqb (File.type file) ALLOWED_FILE_TYPES_DOCX).
    { destruct (docx_value file); cbn; split; discriminate. }
    destruct (String.eqb (File.type file) ALLOWED_FILE_TYPES_TXT).
    { destruct (file_text file); cbn; split; discriminate. }
    cbn. split; reflexivity.
  - rewrite validateCVFile_valid. intros H.
    apply andb_prop in H. destruct H as [H He].
    apply andb_prop in H. destruct H as [Hs Ht].
    split; [apply N.leb_le, Hs|]. split; [exact Ht|].
    unfold extension_allowed, Array_includes in He.
    apply existsb_exists in He. destruct He as (k & Hk & E).
    apply String.eqb_eq in E. rewrite E. exact Hk.
Qed.




(** X22. Of a PDF whose text items hold no line break, every page is
    read as one line, the items joined by single spaces, and an empty line
    follows the last page. So at most one experience entry and at most one
    education entry is extracted per page. *)
Theorem pdf_page_is_read_as_one_line :
  forall (pdf_pages : File.t -> outcome (list (list string)))
         (docx_value file_text : File.t -> outcome string)
         (TypeError_message : string) (file : File.t)
         (pages : list (list string)),
    File.type file = ALLOWED_FILE_TYPES_PDF ->
    pdf_pages file = Fulfilled pages ->
    Forall (Forall (fun item => lacks LF item = true)) pages ->
    exists text,
      parseCV pdf_pages docx_value file_text TypeError_message (Val file)
      = ParseCV.parsed text
      /\ split LF text = (map (join " ") pages ++ [""])%list
      /\ (List.length (extractExperience text) <= List.length pages)%nat
      /\ (List.length (extractEducation text) <= List.length pages)%nat.
Proof.
  intros pdf_pages docx_value file_text msg file pages T P L.
  exists (pages_text pages). split; [|split; [|split]].
  - unfold parseCV, extractTextFromPDF. rewrite T, P, String.eqb_refl.
    reflexivity.
  - apply pdf_text_lines, L.
  - unfold extractExperience, slice. cbn [skipn Nat.sub]. cbv zeta.
    rewrite (pdf_text_lines _ L).
    rewrite length_firstn. etransitivity; [apply Nat.le_min_r|].
    etransitivity; [apply experience_entries_length|].
    rewrite length_map. reflexivity.
  - unfold extractEducation, slice. cbn [skipn Nat.sub].
    rewrite (pdf_text_lines _ L).
    rewrite length_firstn. etransitivity; [apply Nat.le_min_r|].
    etransitivity; [apply education_entries_length|].
    rewrite length_map. reflexivity.
Qed.

Definition two_pages : list (list string) :=
  [ ["Jane Doe"; "Engineer 2015 - 2020"; "Developer 2010 - 2014"];
    ["Bachelor of Science 2009"; "Master of Arts 2011"] ].

Definition cv_pdf : File.t :=
  {| File.name := "cv.pdf"; File.size := 2048; File.type := "application/pdf" |}.

Lemma pdf_page_is_read_as_one_line_witness :
  exists text,
    parseCV (fun _ => Fulfilled two_pages) (fun _ => Rejected "")
      (fun _ => Rejected "") "" (Val cv_pdf)
    = ParseCV.parsed text
    /\ split LF text = (map (join " ") two_pages ++ [""])%list
    /\ (List.length (extractExperience text) <= List.length two_pages)%nat
    /\ (List.length (extractEducation text) <= List.length two_pages)%nat.
Proof.
  apply (pdf_page_is_read_as_one_line
           (fun _ => Fulfilled two_pages) (fun _ => Rejected "")
           (fun _ => Rejected "") "" cv_pdf two_pages).
  - reflexivity.
  - reflexivity.
  - repeat constructor.
Defined.

Lemma safe_no_slash c : safe_char c = true -> negb (Ascii.eqb c "/") = true.
Proof. revert c. apply implb_ascii. vm_compute. reflexivity. Qed.

(** X23. The path under which a file is stored is the user, [/], the
    time stamp, [_] and a file name. The file name is as long as the name
    of the file and holds only letters, digits, [.], [-] and [_], hence no
    [/]; sanitizing it again changes nothing; and it keeps the extension
    of a file that [validateCVFile] accepts. *)
Theorem storage_path_has_a_safe_file_name :
  forall (userId : string) (timestamp : Z) (file : File.t),
    exists name,
      storagePath userId timestamp file
      = (userId ++ "/" ++ integer_text timestamp ++ "_" ++ name)%string
      /\ String.length name = String.length (File.name file)
      /\ all safe_char name = true
      /\ lacks "/" name = true
      /\ sanitize name = name
      /\ (Validation.valid (validateCVFile (Val file)) = true ->
          extension name = extension (File.name file)).
Proof.
  intros userId timestamp file. exists (sanitize (File.name file)).
  split; [reflexivity|]. split; [apply sanitize_length|].
  split; [apply sanitize_safe|].
  split; [eapply all_impl; [apply safe_no_slash|apply sanitize_safe]|].
  split; [apply sanitize_idempotent|].
  rewrite validateCVFile_valid. intros H. apply andb_prop in H.
  apply extension_sanitize, H.
Qed.

(** A storage client that records the calls of [upload]: the bucket, the
    path, the file and the options of each. *)
Definition Call : Type := string * string * File.t * UploadOptions.

Definition recording {E : Type}
  (respond : list Call -> Call -> outcome (UploadResponse E))
  (bucket path : string) (file : File.t) (options : UploadOptions)
  (calls : list Call) : list Call * outcome (UploadResponse E) :=
  let call := (bucket, path, file, options) in
  ((calls ++ [call])%list, respond calls call).

(** X24. [uploadCV] uploads a file that [validateCVFile] accepts once:
    to the bucket [cvs], under the storage path made of the user, the time
    at the call and the file name, with [upsert] off. It uploads nothing
    when the file is rejected or missing. *)
Theorem uploadCV_calls_the_client_at_most_once :
  forall (E : Type) (Date_now : list Call -> Z)
         (respond : list Call -> Call -> outcome (UploadResponse E))
         (getPublicUrl : string -> string -> nullable string)
         (TypeError_message : string)
         (file : nullable File.t) (userId : string) (calls : list Call),
    let after :=
      fst (uploadCV Date_now (recording respond) getPublicUrl TypeError_message
             file userId calls) in
    match file with
    | Val f =>
        if Validation.valid (validateCVFile file) then
          after
          = (calls
             ++ [("cvs", storagePath userId (Date_now calls) f, f,
                  {| cacheControl := "3600"; upsert := false |})])%list
        else after = calls
    | _ => after = calls
    end.
Proof.
  intros E Date_now respond getPublicUrl msg file userId calls after.
  unfold after, uploadCV. cbv zeta.
  destruct file as [| |f]; try reflexivity.
  destruct (Validation.valid (validateCVFile (Val f))); cbn [negb]; [|reflexivity].
  unfold recording at 1. cbv zeta.
  destruct (respond calls _) as [response|message]; [|reflexivity].
  destruct (upload_error response); try reflexivity;
    destruct (data response); reflexivity.
Qed.




